(** * The notebooks' training and evaluation loops, and NDArray in-place writes

    A shallow embedding of the Python cells of three notebooks

    - [P04-C02-cnn-gluon.ipynb] (first document): the convolutional network
      on MNIST, called the CNN notebook below;
    - [P04-C02-cnn-gluon.ipynb] (second document): multiclass logistic
      regression with gluon, called the softmax notebook below;
    - [unnamed/part_000]: the VGG notebook, with its [transformer],
      [vgg_block] and [vgg_stack];
    - [P01-C02-ndarray.ipynb]: the cells on in-place operations.

    The deep-learning framework (mxnet) is an external collaborator.  Its
    numerical operations are the fields of the class [Framework]; the few
    framework objects whose behaviour the notebooks rely on
    ([mx.metric.Accuracy], [mx.io.NDArrayIter], [gluon.data.DataLoader],
    [autograd.record], the deferred initialisation of a network's
    parameters, NDArray identity, the shapes that the layers of [gluon.nn]
    infer) are modelled after the framework's documented behaviour and are
    marked as such. *)

From Stdlib Require Import ZArith QArith List String Lia ZifyNat Permutation.
From stdpp Require Import base gmap list strings.

Local Open Scope nat_scope.
Local Open Scope string_scope.
Local Open Scope list_scope.

(** ** Python exceptions and outcomes *)

Inductive exn : Type :=
| NameError (name : string)
| ValueError (msg : string)
| MXNetError (msg : string).

Inductive outcome (A : Type) : Type :=
| Ok (a : A)
| Raise (x : exn).
Arguments Ok {A} a.
Arguments Raise {A} x.

(** ** The framework, as the notebooks use it *)

Class Framework : Type := {
  (** Python / NumPy floating-point scalars, with the arithmetic the
      notebooks apply to them. *)
  scalar : Type;
  float_lit : Q -> scalar;
  fadd : scalar -> scalar -> scalar;
  fsub : scalar -> scalar -> scalar;
  fmul : scalar -> scalar -> scalar;
  fltb : scalar -> scalar -> bool;
  (** One input sample, i.e. one row along axis 0 of a data NDArray. *)
  datum : Type;
  (** The values held by a network's parameter dictionary, and the
      gradient buffers attached to them. *)
  params : Type;
  grads : Type;
  (** [net(data)]: one row of class scores per sample. *)
  net_forward : params -> list datum -> outcome (list (list scalar));
  (** [softmax_cross_entropy(output, label)]: one loss value per sample. *)
  loss_fn : list (list scalar) -> list nat -> outcome (list scalar);
  (** [nd.mean(loss).asscalar()]. *)
  nd_mean : list scalar -> scalar;
  (** [loss.backward()], from what was recorded: the parameters, the data
      and the labels the loss was computed from. *)
  autograd_backward : params -> list datum -> list nat -> outcome grads;
  (** [trainer.step(batch_size)]: the optimizer's update rule. *)
  trainer_update : params -> grads -> nat -> outcome params;
  (** [.reshape((-1,784))] on a data batch, row by row. *)
  reshape784 : datum -> datum
}.

(** [DataBatch]: [batch.data[0]] and [batch.label[0]]; the DataLoader
    yields the same two arrays as a pair [(d, l)]. *)
Record DataBatch `{Framework} : Type := {
  b_data : list datum;
  b_label : list nat
}.

(** The Python iteration protocol of the two data sources.

    - [iter_pending] is the sequence of batches that a [for] started on
      the object now gets from successive [next()] calls, until
      [StopIteration];
    - [iter_begin] is the effect on the object of [iter(obj)] at the head
      of that [for];
    - [iter_step] is the effect on the object of one successful [next()]. *)
Class DataIter `{Framework} (I : Type) : Type := {
  iter_pending : I -> list DataBatch;
  iter_begin : I -> I;
  iter_step : I -> I
}.

(** *** mx.io.NDArrayIter (framework model)

    The iterator is its own Python iterator: it keeps a cursor, yields the
    batches from the cursor on, and starts over only after [reset()].
    [nd_batches] are the batches of one pass (see [NDArrayIter_new] for how
    they are cut out of the data) and [nd_cursor] counts the batches that
    have been yielded since the last [reset()]. *)
Record NDArrayIter `{Framework} : Type := {
  nd_batches : list DataBatch;
  nd_cursor : nat
}.

Definition NDArrayIter_reset `{Framework} (it : NDArrayIter) : NDArrayIter :=
  {| nd_batches := nd_batches it; nd_cursor := 0 |}.

#[global] Instance NDArrayIter_iter `{Framework} : DataIter NDArrayIter := {
  iter_pending it := drop (nd_cursor it) (nd_batches it);
  iter_begin it := it;
  iter_step it := {| nd_batches := nd_batches it; nd_cursor := S (nd_cursor it) |}
}.

(** *** gluon.data.DataLoader (framework model)

    Every [for] over a loader starts a fresh pass; with [shuffle=True] the
    order of a pass is drawn anew, so the batches are a function of the
    number of passes started so far. *)
Record DataLoader `{Framework} : Type := {
  dl_pass : nat -> list DataBatch;
  dl_started : nat
}.

#[global] Instance DataLoader_iter `{Framework} : DataIter DataLoader := {
  iter_pending dl := dl_pass dl (dl_started dl);
  iter_begin dl := {| dl_pass := dl_pass dl; dl_started := S (dl_started dl) |};
  iter_step dl := dl
}.

(** *** mx.metric.Accuracy (framework model) *)

Record Accuracy : Type := {
  sum_metric : nat;
  num_inst : nat
}.

Definition Accuracy_new : Accuracy := {| sum_metric := 0; num_inst := 0 |}.

(** What [acc.get()[1]] evaluates to: [sum_metric / num_inst], or NaN when
    nothing was counted. *)
Inductive accuracy_value : Type :=
| acc_nan
| acc_ratio (q : Q).

Definition ratio (c n : nat) : accuracy_value :=
  match n with
  | O => acc_nan
  | S _ => acc_ratio (Z.of_nat c # Pos.of_nat n)
  end.

Definition Accuracy_get (a : Accuracy) : accuracy_value :=
  ratio (sum_metric a) (num_inst a).

(** Number of positions at which prediction and label agree. *)
Fixpoint count_hits (preds labels : list nat) : nat :=
  match preds, labels with
  | p :: preds', l :: labels' =>
      (if Nat.eqb p l then 1 else 0) + count_hits preds' labels'
  | _, _ => 0
  end.

Definition Accuracy_update (preds labels : list nat) (a : Accuracy)
  : outcome Accuracy :=
  if Nat.eqb (length labels) (length preds)
  then Ok {| sum_metric := sum_metric a + count_hits preds labels;
             num_inst := num_inst a + length preds |}
  else Raise (ValueError "Shape of labels does not match shape of predictions").

(** *** nd.argmax(output, axis=1) (framework model)

    The index of the first largest entry of each row. *)
Fixpoint argmax_from `{Framework} (best : scalar) (besti i : nat)
    (row : list scalar) : nat :=
  match row with
  | [] => besti
  | x :: row' =>
      if fltb best x then argmax_from x i (S i) row'
      else argmax_from best besti (S i) row'
  end.

Definition argmax_row `{Framework} (row : list scalar) : nat :=
  match row with
  | [] => 0
  | x :: row' => argmax_from x 0 1 row'
  end.

Definition nd_argmax `{Framework} (output : list (list scalar)) : list nat :=
  map argmax_row output.

(** ** The state of a notebook kernel *)

(** What the loops do to the framework, in program order. *)
Inductive event : Type :=
| EvForward (net : string) (recording : bool) (batch_size : nat)
| EvLoss (recording : bool)
| EvBackward
| EvStep (batch_size : nat)
| EvMovingLoss.

(** One line printed at the end of an epoch. *)
Record report `{Framework} : Type := {
  r_epoch : nat;
  r_loss : scalar;
  r_train_acc : accuracy_value;
  r_test_acc : accuracy_value
}.

(** The global names the loops read and write.  Network objects are
    shared between the notebook and its trainer, so they live in one store
    keyed by variable name; a name that no cell binds is absent.

    [k_nets] holds the values of the parameters of the networks that have
    them.  gluon defers the initialisation of a network whose input shape
    it does not know yet: [net.collect_params().initialize(...)] only
    notes the initialiser, and the first [net(data)] infers the shapes from
    [data] and gives the parameters their values (framework model, after
    the notebooks' own account of it).  Such a network is bound in
    [k_init], to what makes its parameters from the first data batch, and
    gets its entry in [k_nets] by its first forward pass. *)
Record kernel `{Framework} (I : Type) : Type := Kernel {
  k_nets : gmap string params;
  k_grad : option grads;
  k_recording : bool;
  k_i : option nat;
  k_e : option nat;
  k_moving_loss : option scalar;
  k_train_data : I;
  k_test_data : I;
  k_stdout : list report;
  k_trace : list event;
  k_init : gmap string (list datum -> params)
}.
Arguments Kernel {_ I}.
Arguments k_nets {_ I}.
Arguments k_grad {_ I}.
Arguments k_recording {_ I}.
Arguments k_i {_ I}.
Arguments k_e {_ I}.
Arguments k_moving_loss {_ I}.
Arguments k_train_data {_ I}.
Arguments k_test_data {_ I}.
Arguments k_stdout {_ I}.
Arguments k_trace {_ I}.
Arguments k_init {_ I}.

Section Setters.
Context `{Framework} {I : Type}.
Implicit Type s : kernel I.

Definition set_nets (v : gmap string params) s : kernel I :=
  Kernel v (k_grad s) (k_recording s) (k_i s) (k_e s) (k_moving_loss s)
         (k_train_data s) (k_test_data s) (k_stdout s) (k_trace s)
         (k_init s).
Definition set_grad (v : option grads) s : kernel I :=
  Kernel (k_nets s) v (k_recording s) (k_i s) (k_e s) (k_moving_loss s)
         (k_train_data s) (k_test_data s) (k_stdout s) (k_trace s)
         (k_init s).
Definition set_recording (v : bool) s : kernel I :=
  Kernel (k_nets s) (k_grad s) v (k_i s) (k_e s) (k_moving_loss s)
         (k_train_data s) (k_test_data s) (k_stdout s) (k_trace s)
         (k_init s).
Definition set_i (v : option nat) s : kernel I :=
  Kernel (k_nets s) (k_grad s) (k_recording s) v (k_e s) (k_moving_loss s)
         (k_train_data s) (k_test_data s) (k_stdout s) (k_trace s)
         (k_init s).
Definition set_e (v : option nat) s : kernel I :=
  Kernel (k_nets s) (k_grad s) (k_recording s) (k_i s) v (k_moving_loss s)
         (k_train_data s) (k_test_data s) (k_stdout s) (k_trace s)
         (k_init s).
Definition set_moving_loss (v : option scalar) s : kernel I :=
  Kernel (k_nets s) (k_grad s) (k_recording s) (k_i s) (k_e s) v
         (k_train_data s) (k_test_data s) (k_stdout s) (k_trace s)
         (k_init s).
Definition set_train_data (v : I) s : kernel I :=
  Kernel (k_nets s) (k_grad s) (k_recording s) (k_i s) (k_e s)
         (k_moving_loss s) v (k_test_data s) (k_stdout s) (k_trace s)
         (k_init s).
Definition set_test_data (v : I) s : kernel I :=
  Kernel (k_nets s) (k_grad s) (k_recording s) (k_i s) (k_e s)
         (k_moving_loss s) (k_train_data s) v (k_stdout s) (k_trace s)
         (k_init s).
Definition set_stdout (v : list report) s : kernel I :=
  Kernel (k_nets s) (k_grad s) (k_recording s) (k_i s) (k_e s)
         (k_moving_loss s) (k_train_data s) (k_test_data s) v (k_trace s)
         (k_init s).
Definition set_trace (v : list event) s : kernel I :=
  Kernel (k_nets s) (k_grad s) (k_recording s) (k_i s) (k_e s)
         (k_moving_loss s) (k_train_data s) (k_test_data s) (k_stdout s) v
         (k_init s).
Definition set_init (v : gmap string (list datum -> params)) s : kernel I :=
  Kernel (k_nets s) (k_grad s) (k_recording s) (k_i s) (k_e s)
         (k_moving_loss s) (k_train_data s) (k_test_data s) (k_stdout s)
         (k_trace s) v.
End Setters.

(** ** Statements: state passing with exceptions

    A statement takes the kernel state and returns either a value or the
    exception it raised, together with the state it left behind.  There is
    no handler anywhere in the notebooks, hence none here. *)
Definition M `{Framework} (I A : Type) : Type := kernel I -> outcome A * kernel I.

Section Monad.
Context `{Framework} {I : Type}.

Definition ret {A} (a : A) : M I A := fun s => (Ok a, s).
Definition raise {A} (x : exn) : M I A := fun s => (Raise x, s).
Definition bind {A B} (m : M I A) (f : A -> M I B) : M I B :=
  fun s => match m s with
           | (Ok a, s') => f a s'
           | (Raise x, s') => (Raise x, s')
           end.
Definition get : M I (kernel I) := fun s => (Ok s, s).
Definition modify (f : kernel I -> kernel I) : M I unit := fun s => (Ok tt, f s).
  (** A call into the framework that may raise. *)
Definition call {A} (r : outcome A) : M I A := fun s => (r, s).
Definition emit (ev : event) : M I unit :=
  modify (fun s => set_trace (k_trace s ++ [ev]) s).
End Monad.

Declare Scope py_scope.
Delimit Scope py_scope with py.
Notation "'let!' x ':=' m 'in' k" := (bind m (fun x => k))
  (at level 10, x name, m at level 100, k at level 200) : py_scope.
Notation "'do!' m 'in' k" := (bind m (fun _ => k))
  (at level 10, m at level 100, k at level 200) : py_scope.
Local Open Scope py_scope.

(** ** Pieces shared by the three notebooks *)

Inductive source : Type := train_data | test_data.

(** A loss NDArray: its values, and what autograd recorded for it (nothing
    when it was computed outside [autograd.record()]). *)
Record loss_array `{Framework} : Type := {
  loss_values : list scalar;
  loss_tape : option (list datum * list nat)
}.

Section Statements.
Context `{Framework} {I : Type} `{!DataIter I}.

Definition the_source (src : source) (s : kernel I) : I :=
  match src with
  | train_data => k_train_data s
  | test_data => k_test_data s
  end.

Definition map_source (src : source) (f : I -> I) (s : kernel I) : kernel I :=
  match src with
  | train_data => set_train_data (f (k_train_data s)) s
  | test_data => set_test_data (f (k_test_data s)) s
  end.

Definition update_source (src : source) (f : I -> I) : M I unit :=
  modify (map_source src f).

(** Reading a global name; a name that is not bound raises NameError. *)
Definition lookup {A} (name : string) (field : kernel I -> option A) : M I A :=
  let! s := get in
  match field s with
  | Some v => ret v
  | None => raise (NameError name)
  end.

(** Whether a name is bound to a network object, with or without values
    for its parameters. *)
Definition network (name : string) (s : kernel I) : option unit :=
  match k_nets s !! name, k_init s !! name with
  | None, None => None
  | _, _ => Some tt
  end.

(** Evaluating the name of a network, e.g. the [net] of
    [evaluate_accuracy(test_data, net)]: the object itself, here its key
    in the store. *)
Definition lookup_net (name : string) : M I string :=
  let! _ := lookup name (network name) in ret name.

(** The parameters that [net(data)] computes with.  When the
    initialisation of [net] is still deferred, this is where it is
    finished: the parameters are made from [data] and stored. *)
Definition parameters (net : string) (data : list datum) : M I params :=
  let! s := get in
  match k_nets s !! net with
  | Some p => ret p
  | None =>
      match k_init s !! net with
      | Some init =>
          let p := init data in
          do! modify (fun s => set_nets (<[net := p]> (k_nets s)) s) in
          ret p
      | None => raise (NameError net)
      end
  end.

(** What asking for the values of the parameters of [net] raises when
    there are none: the network is waiting for its first data, or the name
    is not bound at all. *)
Definition not_initialised (net : string) (s : kernel I) : exn :=
  match k_init s !! net with
  | Some _ => MXNetError "Parameter has not been initialized yet because initialization was deferred"
  | None => NameError net
  end.

(** The values of the parameters of [net], as [loss.backward()] and the
    trainer need them: they are there once data has gone through [net]. *)
Definition initialised_parameters (net : string) : M I params :=
  let! s := get in
  match k_nets s !! net with
  | Some p => ret p
  | None => raise (not_initialised net s)
  end.

(** [net(data)] *)
Definition forward (net : string) (data : list datum)
  : M I (list (list scalar)) :=
  let! p := parameters net data in
  let! s := get in
  do! emit (EvForward net (k_recording s) (length data)) in
  call (net_forward p data).

(** [softmax_cross_entropy(output, label)] *)
Definition softmax_cross_entropy (output : list (list scalar))
    (data : list datum) (label : list nat) : M I loss_array :=
  let! s := get in
  do! emit (EvLoss (k_recording s)) in
  let! v := call (loss_fn output label) in
  ret {| loss_values := v;
         loss_tape := if k_recording s then Some (data, label) else None |}.

(** [with autograd.record(): body]: recording is switched on for the
    body and switched back when the block is left, normally or not. *)
Definition with_autograd_record {A} (body : M I A) : M I A :=
  fun s =>
    let (r, s') := body (set_recording true s) in
    (r, set_recording (k_recording s) s').

(** [loss.backward()] *)
Definition backward (net : string) (loss : loss_array) : M I unit :=
  do! emit EvBackward in
  match loss_tape loss with
  | None => raise (MXNetError "Cannot differentiate node because it is not in a computational graph")
  | Some (data, label) =>
      let! p := initialised_parameters net in
      let! g := call (autograd_backward p data label) in
      modify (set_grad (Some g))
  end.

(** [trainer.step(batch_size)], for the trainer built on the parameters
    of [net]. *)
Definition trainer_step (net : string) (batch_size : nat) : M I unit :=
  do! emit (EvStep batch_size) in
  let! p := initialised_parameters net in
  let! s := get in
  match k_grad s with
  | None => raise (MXNetError "Gradient of Parameter has not been updated by backward")
  | Some g =>
      let! p' := call (trainer_update p g batch_size) in
      modify (fun s => set_nets (<[net := p']> (k_nets s)) s)
  end.

Definition smoothing_constant : scalar := float_lit (1 # 100).

(** [[
    moving_loss = (curr_loss if ((i == 0) and (e == 0))
                   else (1 - smoothing_constant) * moving_loss
                        + (smoothing_constant) * curr_loss)
    ]] *)
Definition update_moving_loss (curr_loss : scalar) : M I unit :=
  let! i := lookup "i" k_i in
  let! first := (if Nat.eqb i 0
                 then let! e := lookup "e" k_e in ret (Nat.eqb e 0)
                 else ret false) in
  let! v := (if first : bool then ret curr_loss
             else let! moving_loss := lookup "moving_loss" k_moving_loss in
                  ret (fadd (fmul (fsub (float_lit 1) smoothing_constant)
                                  moving_loss)
                            (fmul smoothing_constant curr_loss))) in
  do! modify (set_moving_loss (Some v)) in
  emit EvMovingLoss.

(** [for batch in src: body], with [enumerate] binding the global [i]
    when the loop is written [for i, batch in enumerate(src)] at the top
    level of a cell.  [acc] stands for the local objects the body
    updates from one iteration to the next. *)
Fixpoint iterate {L} (src : source) (enumerate : bool) (i : nat)
    (pending : list DataBatch) (body : DataBatch -> L -> M I L) (acc : L)
  : M I L :=
  match pending with
  | [] => ret acc
  | batch :: rest =>
      do! update_source src iter_step in
      do! (if enumerate then modify (set_i (Some i)) else ret tt) in
      let! acc' := body batch acc in
      iterate src enumerate (S i) rest body acc'
  end.

Definition for_in {L} (src : source) (enumerate : bool)
    (body : DataBatch -> L -> M I L) (acc : L) : M I L :=
  let! s := get in
  let pending := iter_pending (the_source src s) in
  do! update_source src iter_begin in
  iterate src enumerate 0 pending body acc.

(** [for e in range(epochs): body] *)
Fixpoint for_range (lo n : nat) (body : nat -> M I unit) : M I unit :=
  match n with
  | O => ret tt
  | S n' =>
      do! modify (set_e (Some lo)) in
      do! body lo in
      for_range (S lo) n' body
  end.

(** [print("Epoch %s. Loss: %s, Train_acc %s, Test_acc %s" %
    (e, moving_loss, train_accuracy, test_accuracy))] *)
Definition print_report (train_accuracy test_accuracy : accuracy_value)
  : M I unit :=
  let! e := lookup "e" k_e in
  let! moving_loss := lookup "moving_loss" k_moving_loss in
  modify (fun s =>
    set_stdout (k_stdout s ++
      [{| r_epoch := e; r_loss := moving_loss;
          r_train_acc := train_accuracy;
          r_test_acc := test_accuracy |}]) s).
End Statements.

(** ** evaluate_accuracy and the training cells *)

Section Loops.
Context `{Framework}.

(** The body of the evaluation loop, common to the three notebooks up to
    how the data batch is prepared:
    [[
      output = net(data)
      predictions = nd.argmax(output, axis=1)
      acc.update(preds=predictions, labels=label)
    ]] *)
Definition evaluate_batch {I} `{!DataIter I}
    (prepare : list datum -> list datum)
    (net : string) (batch : DataBatch) (acc : Accuracy) : M I Accuracy :=
  let data := prepare (b_data batch) in
  let label := b_label batch in
  let! output := forward net data in
  let predictions := nd_argmax output in
  call (Accuracy_update predictions label acc).

(** [evaluate_accuracy] of the CNN and softmax notebooks, which calls
    [data_iterator.reset()] first. *)
Definition mnist_evaluate_accuracy (prepare : list datum -> list datum)
    (data_iterator : source) (net : string) : M NDArrayIter accuracy_value :=
  let acc := Accuracy_new in
  do! update_source data_iterator NDArrayIter_reset in
  let! acc := for_in data_iterator false (evaluate_batch prepare net) acc in
  ret (Accuracy_get acc).

(** The body of the batch loop, common to the three notebooks up to the
    name of the network and the preparation of the data batch:
    [[
      with autograd.record():
          output = net(data)
          loss = softmax_cross_entropy(output, label)
      loss.backward()
      trainer.step(data.shape[0])
      curr_loss = nd.mean(loss).asscalar()
      moving_loss = ...
    ]] *)
Definition train_batch {I} `{!DataIter I}
    (prepare : list datum -> list datum) (net : string)
    (batch : DataBatch) (_ : unit) : M I unit :=
  let data := prepare (b_data batch) in
  let label := b_label batch in
  let! loss := with_autograd_record
                 (let! output := forward net data in
                  softmax_cross_entropy output data label) in
  do! backward net loss in
  do! trainer_step net (length data) in
  let curr_loss := nd_mean (loss_values loss) in
  update_moving_loss curr_loss.

(** One iteration of the epoch loop of the CNN and softmax notebooks:
    [[
      train_data.reset()
      for i, batch in enumerate(train_data): ...
      test_accuracy = evaluate_accuracy(test_data, net)
      train_accuracy = evaluate_accuracy(train_data, net)
      print(...)
    ]] *)
Definition mnist_epoch (prepare : list datum -> list datum) (e : nat)
  : M NDArrayIter unit :=
  do! update_source train_data NDArrayIter_reset in
  do! for_in train_data true (train_batch prepare "net") tt in
  let! test_accuracy :=
    (let! net := lookup_net "net" in
     mnist_evaluate_accuracy prepare test_data net) in
  let! train_accuracy :=
    (let! net := lookup_net "net" in
     mnist_evaluate_accuracy prepare train_data net) in
  print_report train_accuracy test_accuracy.

(** The kernel as the cells above the training cell leave it: the one
    network the notebook builds is bound, nothing has been recorded or
    printed, and [i], [e] and [moving_loss] are not bound yet.  Here the
    parameters of the network have their values [p]. *)
Definition fresh_kernel {I} (net : string) (p : params) (train test : I)
  : kernel I :=
  Kernel {[ net := p ]} None false None None None train test [] [] ∅.

(** The same kernel with the initialisation of the network still
    deferred, as [initialize()] leaves it when no data has gone through the
    network yet: [init] makes the parameters from the first data batch. *)
Definition deferred_kernel {I} (net : string) (init : list datum -> params)
    (train test : I) : kernel I :=
  Kernel ∅ None false None None None train test [] [] {[ net := init ]}.
End Loops.

(** The CNN notebook. *)
Module CNN.
Section Cells.
Context `{Framework}.
Definition epochs : nat := 10.

(** [def evaluate_accuracy(data_iterator, net)], on the data as it comes. *)
Definition evaluate_accuracy := mnist_evaluate_accuracy id.

(** The training cell: [for e in range(epochs): ...]. *)
Definition training_loop : M NDArrayIter unit :=
  for_range 0 epochs (mnist_epoch id).
End Cells.
End CNN.

(** The softmax notebook: every data batch is reshaped, and the training
    cell first sets [moving_loss = 0.]. *)
Module Softmax.
Section Cells.
Context `{Framework}.
Definition epochs : nat := 10.

(** [def evaluate_accuracy(data_iterator, net)], on the reshaped data. *)
Definition evaluate_accuracy := mnist_evaluate_accuracy (map reshape784).

(** The training cell: [moving_loss = 0.], then
    [for e in range(epochs): ...]. *)
Definition training_loop : M NDArrayIter unit :=
  do! modify (set_moving_loss (Some (float_lit 0))) in
  for_range 0 epochs (mnist_epoch (map reshape784)).
End Cells.
End Softmax.

(** The VGG notebook. *)
Module VGG.
Section Cells.
Context `{Framework}.
Definition epochs : nat := 10.

(** [def evaluate_accuracy(data_iterator, net)]; there is no [reset()]
    here, the loader starts a pass by itself. *)
Definition evaluate_accuracy (data_iterator : source) (net : string)
  : M DataLoader accuracy_value :=
  let acc := Accuracy_new in
  let! acc := for_in data_iterator false (evaluate_batch id net) acc in
  ret (Accuracy_get acc).

(** One iteration of the epoch loop: the batch loop is
    [for d, l in train_data], which binds no [i], and the accuracy is
    asked of [alex_net]:
    [[
      for d, l in train_data: ...
      test_accuracy = evaluate_accuracy(test_data, alex_net)
      train_accuracy = evaluate_accuracy(train_data, alex_net)
      print(...)
    ]] *)
Definition epoch (e : nat) : M DataLoader unit :=
  do! for_in train_data false (train_batch id "vgg_net") tt in
  let! test_accuracy :=
    (let! net := lookup_net "alex_net" in
     evaluate_accuracy test_data net) in
  let! train_accuracy :=
    (let! net := lookup_net "alex_net" in
     evaluate_accuracy train_data net) in
  print_report train_accuracy test_accuracy.

(** The training cell: [for e in range(epochs): ...]. *)
Definition training_loop : M DataLoader unit :=
  for_range 0 epochs epoch.
End Cells.
End VGG.

(** ** How the data sources cut a dataset into batches (framework model)

    A dataset is a list of samples, here already in the order that
    [shuffle=True] drew for it. *)

Section Batching.
Context {A : Type}.

(** [NDArrayIter._getdata]: the slice at the cursor, and for a last,
    incomplete slice (the default [last_batch_handle='pad']) the samples
    that are left followed by as many samples from the start of the data
    as are missing. *)
Definition nd_getdata (xs : list A) (batch_size cursor : nat) : list A :=
  if (cursor + batch_size <=? length xs)%nat
  then take batch_size (drop cursor xs)
  else drop cursor xs ++ take (cursor + batch_size - length xs) xs.

(** Successive [next()] calls: the cursor advances by [batch_size] while
    it is below the number of samples.  [fuel] bounds the number of calls. *)
Fixpoint nd_pass_from (fuel : nat) (xs : list A) (batch_size cursor : nat)
  : list (list A) :=
  match fuel with
  | O => []
  | S fuel' =>
      if (cursor <? length xs)%nat
      then nd_getdata xs batch_size cursor
           :: nd_pass_from fuel' xs batch_size (cursor + batch_size)
      else []
  end.

(** One pass after [reset()]. *)
Definition nd_pass (xs : list A) (batch_size : nat) : list (list A) :=
  nd_pass_from (length xs) xs batch_size 0.

(** The number of samples that the last batch of a pass takes from the
    start of the data. *)
Definition nd_pad (n batch_size : nat) : nat :=
  (batch_size - n mod batch_size) mod batch_size.

(** [last_batch] of [gluon.data.DataLoader], as far as the notebooks and
    the loader's default use it. *)
Inductive last_batch : Type := keep | discard.

(** [BatchSampler.__iter__]: indices are appended to the current batch,
    which is yielded when it reaches [batch_size]; returns the batches
    yielded and the incomplete batch that is left. *)
Fixpoint batch_sampler_from (batch_size : nat) (batch sampler : list A)
  : list (list A) * list A :=
  match sampler with
  | [] => ([], batch)
  | i :: rest =>
      let batch' := batch ++ [i] in
      if (length batch' =? batch_size)%nat
      then let (out, last) := batch_sampler_from batch_size [] rest in
           (batch' :: out, last)
      else batch_sampler_from batch_size batch' rest
  end.

(** The batches of one pass of a loader: the full batches, and the last,
    incomplete one only if it is kept. *)
Definition BatchSampler (sampler : list A) (batch_size : nat)
    (lb : last_batch) : list (list A) :=
  let (out, last) := batch_sampler_from batch_size [] sampler in
  match last, lb with
  | [], _ => out
  | _ :: _, keep => out ++ [last]
  | _ :: _, discard => out
  end.

End Batching.

Section DataSources.
Context `{Framework}.

(** A sample of a dataset: its data and its integer label. *)
Definition sample : Type := datum * nat.

(** The batch made of some samples: their data stacked, their labels
    stacked. *)
Definition to_batch (samples : list sample) : DataBatch :=
  {| b_data := map fst samples; b_label := map snd samples |}.

(** The samples of a sequence of batches, in the order in which a loop
    over them meets them. *)
Definition samples_of (batches : list DataBatch) : list sample :=
  concat (map (fun b => zip (b_data b) (b_label b)) batches).

(** [mx.io.NDArrayIter(data, label, batch_size, shuffle=True)] *)
Definition NDArrayIter_new (samples : list sample) (batch_size : nat)
  : NDArrayIter :=
  {| nd_batches := map to_batch (nd_pass samples batch_size); nd_cursor := 0 |}.

(** [gluon.data.DataLoader(dataset, batch_size=batch_size, shuffle=True,
    last_batch=lb)]; [order k] is the dataset in the order drawn for the
    pass number [k]. *)
Definition DataLoader_new (order : nat -> list sample) (batch_size : nat)
    (lb : last_batch) : DataLoader :=
  {| dl_pass := fun k => map to_batch (BatchSampler (order k) batch_size lb);
     dl_started := 0 |}.

End DataSources.

(** ** NDArrays as objects: the cells on in-place operations

    The notebook [P01-C02-ndarray.ipynb] binds names to NDArray objects
    and asks for their [id()].  An object is a location in a store; a name
    is bound to a location; [id(v)] is the location that [v] is bound to.
    How the framework's NDArray implements [+], [+=] and slice assignment
    is modelled after the notebook's own account of them. *)
Module NDArrayCells.

Section Cells.
Context `{Framework}.

Record NDArray : Type := {
  shape : list nat;
  values : list scalar
}.

Record state : Type := {
  names : gmap string nat;
  store : gmap nat NDArray
}.

(** [id(v)] *)
Definition id_of (v : string) (st : state) : outcome nat :=
  match names st !! v with
  | Some l => Ok l
  | None => Raise (NameError v)
  end.

(** The object that a name is bound to. *)
Definition value_of (v : string) (st : state) : outcome NDArray :=
  match names st !! v with
  | None => Raise (NameError v)
  | Some l =>
      match store st !! l with
      | Some a => Ok a
      | None => Raise (MXNetError "dangling NDArray handle")
      end
  end.

(** Elementwise addition of two arrays of the same shape. *)
Definition elementwise_add (a b : NDArray) : outcome NDArray :=
  if decide (shape a = shape b)
  then Ok {| shape := shape a; values := zip_with fadd (values a) (values b) |}
  else Raise (MXNetError "shapes differ").

(** A new object: a location that the store does not use yet. *)
Definition allocate (a : NDArray) (st : state) : nat * state :=
  let l := fresh (dom (store st)) in
  (l, {| names := names st; store := <[l := a]> (store st) |}).

(** The expression [u + v]: the result is a newly allocated array. *)
Definition add_expr (u v : string) (st : state) : outcome (nat * state) :=
  match value_of u st with
  | Raise x => Raise x
  | Ok a =>
      match value_of v st with
      | Raise x => Raise x
      | Ok b =>
          match elementwise_add a b with
          | Raise x => Raise x
          | Ok c => Ok (allocate c st)
          end
      end
  end.

(** [w = u + v]: the name [w] is bound to the new array. *)
Definition assign_add (w u v : string) (st : state) : outcome state :=
  match add_expr u v st with
  | Raise x => Raise x
  | Ok (l, st') => Ok {| names := <[w := l]> (names st'); store := store st' |}
  end.

(** [w[:] = u + v]: the values of the new array are written into the
    object that [w] is bound to, which must have their shape. *)
Definition slice_assign_add (w u v : string) (st : state) : outcome state :=
  match add_expr u v st with
  | Raise x => Raise x
  | Ok (l, st') =>
      match names st' !! w with
      | None => Raise (NameError w)
      | Some lw =>
          match store st' !! lw, store st' !! l with
          | Some target, Some c =>
              if decide (shape target = shape c)
              then Ok {| names := names st';
                         store := <[lw := {| shape := shape target;
                                             values := values c |}]> (store st') |}
              else Raise (MXNetError "shapes differ")
          | _, _ => Raise (MXNetError "dangling NDArray handle")
          end
      end
  end.

(** [u += v]: the sum is written into the object that [u] is bound to,
    and [u] is bound to that same object again. *)
Definition iadd (u v : string) (st : state) : outcome state :=
  match names st !! u with
  | None => Raise (NameError u)
  | Some lu =>
      match value_of u st with
      | Raise x => Raise x
      | Ok a =>
          match value_of v st with
          | Raise x => Raise x
          | Ok b =>
              match elementwise_add a b with
              | Raise x => Raise x
              | Ok c =>
                  Ok {| names := <[u := lu]> (names st);
                        store := <[lu := c]> (store st) |}
              end
          end
      end
  end.

(** [w = nd.zeros_like(u)]: the name [w] is bound to a newly allocated
    array of zeros with the shape of [u]. *)
Definition zeros_like (w u : string) (st : state) : outcome state :=
  match value_of u st with
  | Raise x => Raise x
  | Ok a =>
      let (l, st') :=
        allocate {| shape := shape a;
                    values := map (fun _ => float_lit 0) (values a) |} st in
      Ok {| names := <[w := l]> (names st'); store := store st' |}
  end.

(** Three names bound to arrays of one and the same shape. *)
Definition equal_shapes (st : state) (x y z : string) (a b c : NDArray) : Prop :=
  value_of x st = Ok a /\ value_of y st = Ok b /\ value_of z st = Ok c /\
  shape a = shape b /\ shape c = shape a.

End Cells.
End NDArrayCells.

(** ** The network definitions of the notebooks

    A gluon network is a tree of layers.  The notebooks build theirs with
    [Sequential] / [HybridSequential] containers and [add]; [hybridize()]
    changes how a network is run, not what it computes. *)
Module Architecture.

#[warnings="-register-all"]
Inductive layer : Type :=
| Conv2D (channels kernel_size : nat) (activation : option string)
| MaxPool2D (pool_size strides : nat)
| Flatten
| Dense (units : nat) (activation : option string)
| Sequential (children : list layer).

(** [out.add(block)] on the children of a container. *)
Definition add (out : list layer) (block : layer) : list layer := out ++ [block].

(** [[
    def vgg_block(convs, channels):
        out = gluon.nn.HybridSequential(prefix='')
        for i in range(convs):
            out.add(gluon.nn.Conv2D(channels=channels, kernel_size=3,
                                    activation='relu'))
        out.add(gluon.nn.MaxPool2D(pool_size=2, strides=2))
        return out
    ]] *)
Definition vgg_block (convs channels : nat) : layer :=
  let out := [] in
  let out := fold_left (fun out _ => add out (Conv2D channels 3 (Some "relu")))
                       (seq 0 convs) out in
  let out := add out (MaxPool2D 2 2) in
  Sequential out.

(** [[
    def vgg_stack(architecture):
        out = gluon.nn.HybridSequential(prefix='')
        for (convs, channels) in architecture:
            out.add(vgg_block(convs, channels))
        return out
    ]] *)
Definition vgg_stack (architecture : list (nat * nat)) : layer :=
  let out := [] in
  let out := fold_left (fun out '(convs, channels) =>
                          add out (vgg_block convs channels))
                       architecture out in
  Sequential out.

Definition num_classes : nat := 10.

Definition architecture : list (nat * nat) :=
  [(2, 64); (2, 128); (3, 256); (3, 512); (3, 512)].

(** The network of the VGG notebook. *)
Definition vgg_net : layer :=
  Sequential [vgg_stack architecture;
              Flatten;
              Dense 4096 (Some "relu");
              Dense 4096 (Some "relu");
              Dense num_classes None].

Definition num_fc : nat := 512.
Definition num_outputs : nat := 10.

(** The network of the CNN notebook. *)
Definition cnn_net : layer :=
  Sequential [Conv2D 20 5 (Some "relu");
              MaxPool2D 2 2;
              Conv2D 50 5 (Some "relu");
              MaxPool2D 2 2;
              Flatten;
              Dense num_fc (Some "relu");
              Dense num_outputs None].

(** The network of the softmax notebook. *)
Definition softmax_net : layer := Sequential [Dense num_outputs None].

(** The shape of what a layer makes of one sample of shape [sh], as the
    framework infers it the first time data is passed through (framework
    model): a convolution or pooling window, without padding, has to fit
    in a [channels x height x width] input; [Flatten] and [Dense] take any
    input.  [None] stands for the framework's shape error. *)
Fixpoint output_shape (l : layer) (sh : list nat) : option (list nat) :=
  match l with
  | Conv2D channels k _ =>
      match sh with
      | [c; h; w] =>
          if (1 <=? k)%nat && (k <=? h)%nat && (k <=? w)%nat
          then Some [channels; h - k + 1; w - k + 1]
          else None
      | _ => None
      end
  | MaxPool2D pool strides =>
      match sh with
      | [c; h; w] =>
          if (1 <=? strides)%nat && (1 <=? pool)%nat
             && (pool <=? h)%nat && (pool <=? w)%nat
          then Some [c; (h - pool) / strides + 1; (w - pool) / strides + 1]
          else None
      | _ => None
      end
  | Flatten => Some [fold_right Nat.mul 1 sh]
  | Dense units _ => Some [units]
  | Sequential children =>
      (fix through (ls : list layer) (sh : list nat) : option (list nat) :=
         match ls with
         | [] => Some sh
         | l :: ls' =>
             match output_shape l sh with
             | Some sh' => through ls' sh'
             | None => None
             end
         end) children sh
  end.

(** The layers of a network that satisfy [p], containers looked into. *)
Fixpoint count_layers (p : layer -> bool) (l : layer) : nat :=
  match l with
  | Sequential children =>
      (fix sum (ls : list layer) : nat :=
         match ls with
         | [] => 0
         | l :: ls' => count_layers p l + sum ls'
         end) children
  | _ => if p l then 1 else 0
  end.

Definition is_conv (l : layer) : bool :=
  match l with Conv2D _ _ _ => true | _ => false end.
Definition is_pool (l : layer) : bool :=
  match l with MaxPool2D _ _ => true | _ => false end.
Definition is_dense (l : layer) : bool :=
  match l with Dense _ _ => true | _ => false end.

(** What a block and a stack of blocks make of one side (height or width)
    of their input, and of its number of channels: the vocabulary for the
    shapes of [vgg_block] and [vgg_stack]. *)
Definition block_side (convs side : nat) : option nat :=
  if (2 * convs + 2 <=? side)%nat then Some ((side - 2 * convs) / 2) else None.

Definition stack_side (architecture : list (nat * nat)) (side : nat) : option nat :=
  fold_left (fun side '(convs, _) =>
               match side with
               | Some side => block_side convs side
               | None => None
               end)
            architecture (Some side).

Definition stack_channels (architecture : list (nat * nat)) (c : nat) : nat :=
  fold_left (fun c '(convs, channels) => if (convs =? 0)%nat then c else channels)
            architecture c.

(** What the framework knows of an image: its shape and element type. *)
Inductive dtype : Type := uint8 | float32.

Record image : Type := {
  im_shape : list nat;
  im_dtype : dtype
}.

(** [mx.image.imresize(data, w, h)] on a [height x width x channels]
    image (framework model). *)
Definition imresize (data : image) (w h : nat) : option image :=
  match im_shape data with
  | [_; _; c] => Some {| im_shape := [h; w; c]; im_dtype := im_dtype data |}
  | _ => None
  end.

(** [mx.nd.transpose(data, axes)] (framework model): the axes have to be a
    permutation of the positions of the shape. *)
Definition transpose (data : image) (axes : list nat) : option image :=
  if bool_decide (Permutation axes (seq 0 (length (im_shape data))))
  then Some {| im_shape := map (fun a => nth a (im_shape data) 0) axes;
               im_dtype := im_dtype data |}
  else None.

(** [data.astype(np.float32)] *)
Definition astype (data : image) (t : dtype) : image :=
  {| im_shape := im_shape data; im_dtype := t |}.

(** [[
    def transformer(data, label):
        data = mx.image.imresize(data, 224, 224)
        data = mx.nd.transpose(data, (2,0,1))
        data = data.astype(np.float32)
        return data, label
    ]] *)
Definition transformer {L} (data : image) (label : L) : option (image * L) :=
  match imresize data 224 224 with
  | None => None
  | Some data =>
      match transpose data [2; 0; 1] with
      | None => None
      | Some data =>
          let data := astype data float32 in
          Some (data, label)
      end
  end.

End Architecture.

(** ** A small framework to run the cells on

    Scalars are exact rationals, a sample is one integer feature, and the
    network has a single integer parameter [w]: it scores a sample [x] as
    [[w; x]], so it predicts class 1 when [x] exceeds [w] and class 0
    otherwise.  Every operation refuses an empty batch. *)
Module Toy.

(** [a < b] on rationals. *)
Definition qltb (a b : Q) : bool := negb (Qle_bool b a).

(** The row of class scores of the sample [x]. *)
Definition scores (w : Z) (x : Z) : list Q := [inject_Z w; inject_Z x].

(** The forward pass. *)
Definition forward (w : Z) (data : list Z) : outcome (list (list Q)) :=
  match data with
  | [] => Raise (MXNetError "empty batch")
  | _ => Ok (map (scores w) data)
  end.

(** The loss of one sample: the margin by which the wrong class wins. *)
Definition sample_loss (row : list Q) (l : nat) : Q :=
  match row with
  | [a; b] => if Nat.eqb l 0 then Qred (b - a) else Qred (a - b)
  | _ => 0%Q
  end.

(** The loss of a batch, sample by sample. *)
Definition loss (output : list (list Q)) (label : list nat)
  : outcome (list Q) :=
  if Nat.eqb (length output) (length label)
  then Ok (zip_with sample_loss output label)
  else Raise (MXNetError "shape mismatch").

(** The mean of the losses of a batch. *)
Definition mean (l : list Q) : Q :=
  match l with
  | [] => 0%Q
  | _ => Qred (fold_right Qplus 0%Q l / inject_Z (Z.of_nat (length l)))
  end.

(** The gradient with respect to [w]: one vote per sample. *)
Definition gradient (w : Z) (data : list Z) (label : list nat) : outcome Z :=
  Ok (fold_right Z.add 0%Z
        (zip_with (fun (x : Z) (l : nat) => if Nat.eqb l 0 then (-1)%Z else 1%Z)
                  data label)).

(** The optimizer step. *)
Definition update (w g : Z) (batch_size : nat) : outcome Z :=
  match batch_size with
  | O => Raise (MXNetError "empty batch")
  | S _ => Ok (w - g)%Z
  end.

Definition framework : Framework := {|
  scalar := Q;
  float_lit := Qred;
  fadd := fun a b => Qred (a + b);
  fsub := fun a b => Qred (a - b);
  fmul := fun a b => Qred (a * b);
  fltb := qltb;
  datum := Z;
  params := Z;
  grads := Z;
  net_forward := forward;
  loss_fn := loss;
  nd_mean := mean;
  autograd_backward := gradient;
  trainer_update := update;
  reshape784 := fun x => x
|}.
#[local] Existing Instance framework.

Definition batch (data : list Z) (label : list nat) : DataBatch :=
  {| b_data := data; b_label := label |}.

(** A training pass of two batches of two samples, and a test pass of one
    batch of two. *)
Definition train_batches : list DataBatch :=
  [batch [5; -3]%Z [1; 0]; batch [2; -7]%Z [0; 0]].
Definition test_batches : list DataBatch :=
  [batch [4; -1]%Z [1; 1]].

(** The two passes as NDArrayIters and as DataLoaders. *)
Definition nd_train : NDArrayIter :=
  {| nd_batches := train_batches; nd_cursor := 0 |}.
Definition nd_test : NDArrayIter :=
  {| nd_batches := test_batches; nd_cursor := 0 |}.
Definition dl_train : DataLoader :=
  {| dl_pass := fun _ => train_batches; dl_started := 0 |}.
Definition dl_test : DataLoader :=
  {| dl_pass := fun _ => test_batches; dl_started := 0 |}.

End Toy.

(** * The vocabulary of the statements *)

Section Vocabulary.
Context `{Framework} {I : Type} `{!DataIter I}.
Implicit Type s : kernel I.

(** A statement leaves an observation [f] of the state alone, whatever its
    outcome. *)
Definition unchanged {X A} (f : kernel I -> X) (m : M I A) : Prop :=
  forall s, f (snd (m s)) = f s.

(** The state in which the body of a loop over [src] starts its iteration
    number [i]: one more [next()], and [i] bound if the loop enumerates. *)
Definition enter_iteration (src : source) (enumerate : bool) (i : nat)
    (s : kernel I) : kernel I :=
  let s' := map_source src iter_step s in
  if enumerate then set_i (Some i) s' else s'.

(** The part of the state that only the loop headers, the moving-loss
    assignment and [print] write. *)
Definition bookkeeping (s : kernel I) :=
  (k_i s, k_e s, k_moving_loss s, k_stdout s).

(** What the epoch loop and [print] write: the number of the epoch and the
    lines printed so far. *)
Definition printed (s : kernel I) := (k_e s, k_stdout s).

(** The state with one more event in its trace. *)
Definition log (ev : event) s : kernel I := set_trace (k_trace s ++ [ev]) s.

(** The parameters that [net(data)] computes with in the state [s]: those
    the network has, or those that its deferred initialisation makes of
    [data]; none if the name is not bound. *)
Definition parameters_of (net : string) (data : list datum) s : option params :=
  match k_nets s !! net with
  | Some p => Some p
  | None =>
      match k_init s !! net with
      | Some init => Some (init data)
      | None => None
      end
  end.

(** The state [s] once [net] has its parameters: [s] itself, unless the
    initialisation of [net] was deferred and is finished with [data]. *)
Definition with_parameters (net : string) (data : list datum) s : kernel I :=
  match k_nets s !! net with
  | Some _ => s
  | None =>
      match k_init s !! net with
      | Some init => set_nets (<[net := init data]> (k_nets s)) s
      | None => s
      end
  end.

(** The value that the moving-loss assignment computes on a later batch. *)
Definition smooth (moving_loss curr_loss : scalar) : scalar :=
  fadd (fmul (fsub (float_lit 1) smoothing_constant) moving_loss)
       (fmul smoothing_constant curr_loss).

(** The value that the moving-loss assignment gives to [moving_loss] in
    the state [s], or the exception that reading [i], [e] or [moving_loss]
    raises there. *)
Definition next_moving_loss (s : kernel I) (curr_loss : scalar) : outcome scalar :=
  match k_i s with
  | None => Raise (NameError "i")
  | Some i =>
      match (if Nat.eqb i 0
             then match k_e s with
                  | None => Raise (NameError "e")
                  | Some e => Ok (Nat.eqb e 0)
                  end
             else Ok false) with
      | Raise x => Raise x
      | Ok true => Ok curr_loss
      | Ok false =>
          match k_moving_loss s with
          | None => Raise (NameError "moving_loss")
          | Some m => Ok (smooth m curr_loss)
          end
      end
  end.

(** The order of the operations on one batch as the specification has it,
    written out for comparison with [train_batch]: forward pass, loss,
    backward, optimizer step and moving-loss assignment, each on what the
    ones before it left, the first that fails ending the batch.  The result is
    the outcome of the batch with the parameter store, the gradient
    buffers and the moving loss after it: the gradient is the one of the
    parameters that made the forward pass, the step is taken from these
    parameters with this gradient and the size of the batch, and the moving
    loss is assigned only once the step is taken. *)
Definition operations_in_order (prepare : list datum -> list datum)
    (net : string) (batch : DataBatch) (s : kernel I)
  : outcome unit * gmap string params * option grads * option scalar :=
  let data := prepare (b_data batch) in
  let label := b_label batch in
  let nets := k_nets (with_parameters net data s) in
  match parameters_of net data s with
  | None => (Raise (NameError net), nets, k_grad s, k_moving_loss s)
  | Some p =>
      match net_forward p data with
      | Raise x => (Raise x, nets, k_grad s, k_moving_loss s)
      | Ok output =>
          match loss_fn output label with
          | Raise x => (Raise x, nets, k_grad s, k_moving_loss s)
          | Ok v =>
              match autograd_backward p data label with
              | Raise x => (Raise x, nets, k_grad s, k_moving_loss s)
              | Ok g =>
                  match trainer_update p g (length data) with
                  | Raise x => (Raise x, nets, Some g, k_moving_loss s)
                  | Ok p' =>
                      match next_moving_loss s (nd_mean v) with
                      | Raise x =>
                          (Raise x, <[net := p']> nets, Some g, k_moving_loss s)
                      | Ok m =>
                          (Ok tt, <[net := p']> nets, Some g, Some m)
                      end
                  end
              end
          end
      end
  end.

(** The operations of one complete pass through the body of the batch
    loop, on a batch of [n] samples. *)
Definition batch_events (net : string) (n : nat) : list event :=
  [EvForward net true n; EvLoss true; EvBackward; EvStep n; EvMovingLoss].

(** The sizes of the batches as the body sees them. *)
Definition batch_sizes (prepare : list datum -> list datum)
    (pending : list DataBatch) : list nat :=
  map (fun b => length (prepare (b_data b))) pending.

(** A batch loop that runs its operations in order, batch after batch. *)
Definition ordered_batch_loop prepare net enumerate s : Prop :=
  let sizes := batch_sizes prepare (iter_pending (k_train_data s)) in
  let run := for_in train_data enumerate (train_batch prepare net) tt s in
  exists (k : nat) (evs : list event),
    k_trace (snd run) =
      k_trace s ++ concat (map (batch_events net) (take k sizes)) ++ evs /\
    (fst run = Ok tt -> k = length sizes /\ evs = []) /\
    (forall x, fst run = Raise x ->
       exists n, sizes !! k = Some n /\ evs `prefix_of` batch_events net n).

(** What a training step writes and an evaluation must not: the parameter
    store, the gradient buffers and the recording flag. *)
Definition model_state s := (k_nets s, k_grad s, k_recording s).

(** The data of the first batch of a pass, as the body prepares them. *)
Definition first_data (prepare : list datum -> list datum)
    (pending : list DataBatch) : option (list datum) :=
  match pending with
  | batch :: _ => Some (prepare (b_data batch))
  | [] => None
  end.

(** A trace made of forward passes of [net] only, none of them recorded. *)
Definition forward_only (net : string) (evs : list event) : Prop :=
  Forall (fun ev => exists n, ev = EvForward net false n) evs.

(** A printed line without its loss column. *)
Definition without_loss (r : report) : nat * accuracy_value * accuracy_value :=
  (r_epoch r, r_train_acc r, r_test_acc r).

(** Whether a name is bound. *)
Definition bound {A} (o : option A) : bool :=
  match o with Some _ => true | None => false end.

(** Everything in the state except the value of [moving_loss] and the loss
    column of what was printed: the networks, the gradients, the recording
    flag, [i], [e], the data sources, the trace of framework calls, the
    rest of each printed line, whether [moving_loss] is bound, and the
    initialisations that are still to be made. *)
Definition besides_moving_loss s :=
  (k_nets s, k_grad s, k_recording s, k_i s, k_e s,
   k_train_data s, k_test_data s, k_trace s,
   map without_loss (k_stdout s), bound (k_moving_loss s), k_init s).

(** Two states that differ in the moving-loss bookkeeping only. *)
Definition same_besides_moving_loss s1 s2 : Prop :=
  besides_moving_loss s1 = besides_moving_loss s2.

(** A statement on which the moving-loss bookkeeping has no influence:
    from two such states it has the same outcome and leaves two such
    states. *)
Definition blind_to_moving_loss {A} (m : M I A) : Prop :=
  forall s1 s2, same_besides_moving_loss s1 s2 ->
    fst (m s1) = fst (m s2) /\
    same_besides_moving_loss (snd (m s1)) (snd (m s2)).

(** The batches that [for batch in src] hands to its body, in their order:
    what a body that only notes its batch has noted when the loop is
    over. *)
Definition batches_met (src : source) (enumerate : bool) (s : kernel I)
  : list DataBatch :=
  match fst (for_in src enumerate
               (fun batch seen => ret (seen ++ [batch])) [] s) with
  | Ok seen => seen
  | Raise _ => []
  end.

(** The body of the batch loop with its moving-loss assignment taken out,
    for comparison with [train_batch]. *)
Definition train_batch_without_moving_loss
    (prepare : list datum -> list datum) (net : string)
    (batch : DataBatch) (_ : unit) : M I unit :=
  let data := prepare (b_data batch) in
  let label := b_label batch in
  let! loss := with_autograd_record
                 (let! output := forward net data in
                  softmax_cross_entropy output data label) in
  do! backward net loss in
  trainer_step net (length data).

(** Everything in the state except [moving_loss] and the trace of
    framework calls. *)
Definition besides_loss_and_trace s :=
  (k_nets s, k_grad s, k_recording s, k_i s, k_e s,
   k_train_data s, k_test_data s, k_stdout s, k_init s).

End Vocabulary.

(** The state after an evaluation of [net], compared with the state before
    it; [first] is the data of the first batch of the pass, if there is
    one.  The parameter store is the one before, with the initialisation
    of [net] finished by that batch if it was deferred. *)
Definition evaluation_only `{Framework} {I} (net : string)
    (first : option (list datum)) (s s' : kernel I) : Prop :=
  k_nets s' = k_nets (match first with
                      | Some data => with_parameters net data s
                      | None => s
                      end) /\
  k_init s' = k_init s /\
  k_grad s' = k_grad s /\
  k_recording s' = false /\
  k_moving_loss s' = k_moving_loss s /\
  exists evs, k_trace s' = k_trace s ++ evs /\ forward_only net evs.

Section AccuracyVocabulary.
Context `{Framework}.

(** The samples of a pass as the metric sees them: the predicted class,
    i.e. the argmax of the sample's row of scores, and the label. *)
Definition seen (outputs : list (list (list scalar)))
    (batches : list DataBatch) : list (nat * nat) :=
  concat (zip_with (fun output b => zip (nd_argmax output) (b_label b))
                   outputs batches).

(** The number of samples whose predicted class is their label. *)
Definition correct (samples : list (nat * nat)) : nat :=
  length (List.filter (fun '(prediction, label) => Nat.eqb prediction label)
                      samples).

(** The fraction of the samples whose predicted class is their label. *)
Definition fraction_correct (samples : list (nat * nat)) : accuracy_value :=
  ratio (correct samples) (length samples).

(** The network with parameters [p] answers each batch of the pass with
    one row of scores per label. *)
Definition answers (p : params) (prepare : list datum -> list datum)
    (batches : list DataBatch) (outputs : list (list (list scalar))) : Prop :=
  Forall2 (fun b output =>
             net_forward p (prepare (b_data b)) = Ok output /\
             length output = length (b_label b))
          batches outputs.

End AccuracyVocabulary.

(** How often a sample occurs among the samples that a pass meets. *)
Definition times_met (x : Z * nat) (pass : list (Z * nat)) : nat :=
  length (List.filter (fun y => bool_decide (y = x)) pass).

(** ** The vocabulary of the training runs *)

Section TrainingVocabulary.
Context `{Framework}.

(** One step of mini-batch gradient descent on the batch [b]: the gradient
    is taken at the parameters [p] on the batch as the body prepares it,
    and the optimizer's update is given the number of rows of the batch.
    [None] when the framework raises. *)
Definition sgd_step (prepare : list datum -> list datum) (p : params)
    (b : DataBatch) : option params :=
  let data := prepare (b_data b) in
  match autograd_backward p data (b_label b) with
  | Raise _ => None
  | Ok g =>
      match trainer_update p g (length data) with
      | Raise _ => None
      | Ok p' => Some p'
      end
  end.

(** The steps on the batches of one pass, in their order. *)
Definition sgd_pass (prepare : list datum -> list datum)
    (batches : list DataBatch) (p : params) : option params :=
  fold_left (fun p b =>
               match p with
               | Some p => sgd_step prepare p b
               | None => None
               end)
            batches (Some p).

(** A step on the batch [b] in which the optimizer is given the size [n],
    whatever the number of rows of the batch; and the steps of a pass, all
    with that size. *)
Definition sgd_step_sized (n : nat) (prepare : list datum -> list datum)
    (p : params) (b : DataBatch) : option params :=
  match autograd_backward p (prepare (b_data b)) (b_label b) with
  | Raise _ => None
  | Ok g =>
      match trainer_update p g n with
      | Raise _ => None
      | Ok p' => Some p'
      end
  end.

Definition sgd_pass_sized (n : nat) (prepare : list datum -> list datum)
    (batches : list DataBatch) (p : params) : option params :=
  fold_left (fun p b =>
               match p with
               | Some p => sgd_step_sized n prepare p b
               | None => None
               end)
            batches (Some p).

(** [n] passes over the same batches. *)
Fixpoint sgd_epochs (prepare : list datum -> list datum)
    (batches : list DataBatch) (n : nat) (p : params) : option params :=
  match n with
  | O => Some p
  | S n' =>
      match sgd_pass prepare batches p with
      | Some p' => sgd_epochs prepare batches n' p'
      | None => None
      end
  end.

(** The labels of the samples of a sequence of batches. *)
Definition labels_of (batches : list DataBatch) : list nat :=
  concat (map b_label batches).

(** A batch of [n] rows of data with their [n] labels. *)
Definition rows (n : nat) (b : DataBatch) : Prop :=
  length (b_data b) = n /\ length (b_label b) = n.

End TrainingVocabulary.

(** What neither an evaluation nor an empty batch loop of the CNN and
    softmax notebooks writes: everything but the loop variable [i], the
    cursors of the two iterators and the trace of framework calls. *)
Definition besides_cursors `{Framework} (s : kernel NDArrayIter) :=
  (k_nets s, k_grad s, k_recording s, k_e s, k_moving_loss s, k_stdout s,
   nd_batches (k_train_data s), nd_batches (k_test_data s)).

(** The line that an epoch without training batches prints. *)
Definition idle_report `{Framework} (loss : scalar) (test_accuracy : accuracy_value)
    (e : nat) : report :=
  {| r_epoch := e; r_loss := loss;
     r_train_acc := acc_nan; r_test_acc := test_accuracy |}.

Section LossVocabulary.
Context `{Framework}.

(** The mean loss of the batch [b] at the parameters [p]: what the body of
    the batch loop calls [curr_loss].  [None] when the framework raises. *)
Definition batch_loss (prepare : list datum -> list datum) (p : params)
    (b : DataBatch) : option scalar :=
  match net_forward p (prepare (b_data b)) with
  | Raise _ => None
  | Ok output =>
      match loss_fn output (b_label b) with
      | Raise _ => None
      | Ok v => Some (nd_mean v)
      end
  end.

(** The mean losses of the batches of a pass of gradient descent, each at
    the parameters that the steps before it have made. *)
Fixpoint pass_losses (prepare : list datum -> list datum)
    (batches : list DataBatch) (p : params) : list scalar :=
  match batches with
  | [] => []
  | b :: rest =>
      match batch_loss prepare p b, sgd_step prepare p b with
      | Some c, Some p' => c :: pass_losses prepare rest p'
      | _, _ => []
      end
  end.

(** The exponential moving average of the losses [cs]: from the first of
    them if this is the start of the first epoch, from [m] otherwise. *)
Definition smoothed (first : bool) (m : option scalar) (cs : list scalar)
  : option scalar :=
  match cs with
  | [] => m
  | c :: cs' =>
      if first then Some (fold_left smooth cs' c)
      else match m with
           | Some m => Some (fold_left smooth cs m)
           | None => None
           end
  end.

End LossVocabulary.

(** * Properties *)

(** ** Running statements *)

Section MonadFacts.
Context `{Framework} {I : Type}.

Lemma run_with_outcome {A} (m : M I A) s r :
  fst (m s) = r -> m s = (r, snd (m s)).
Proof. destruct (m s). cbn. now intros ->. Qed.

Lemma bind_ok {A B} (m : M I A) (f : A -> M I B) s a s' :
  m s = (Ok a, s') -> bind m f s = f a s'.
Proof. intros E. unfold bind. now rewrite E. Qed.

Lemma bind_raise {A B} (m : M I A) (f : A -> M I B) s x s' :
  m s = (Raise x, s') -> bind m f s = (Raise x, s').
Proof. intros E. unfold bind. now rewrite E. Qed.

Lemma unchanged_ret {X A} (f : kernel I -> X) (a : A) : unchanged f (ret a).
Proof. now intros s. Qed.

Lemma unchanged_raise {X A} (f : kernel I -> X) x : unchanged f (@raise _ I A x).
Proof. now intros s. Qed.

Lemma unchanged_get {X} (f : kernel I -> X) : unchanged f get.
Proof. now intros s. Qed.

Lemma unchanged_call {X A} (f : kernel I -> X) (r : outcome A) :
  unchanged f (call r).
Proof. now intros s. Qed.

Lemma unchanged_modify {X} (f : kernel I -> X) g :
  (forall s, f (g s) = f s) -> unchanged f (modify g).
Proof. intros Hg s. apply Hg. Qed.

Lemma unchanged_bind {X A B} (f : kernel I -> X) (m : M I A) (k : A -> M I B) :
  unchanged f m -> (forall a, unchanged f (k a)) -> unchanged f (bind m k).
Proof.
  intros Hm Hk s. unfold bind.
  specialize (Hm s). destruct (m s) as [[a|x] s']; simpl in *.
  - now rewrite Hk.
  - exact Hm.
Qed.

Lemma unchanged_lookup {X A} (f : kernel I -> X) name (field : kernel I -> option A) :
  unchanged f (lookup name field).
Proof.
  unfold lookup. apply unchanged_bind; [apply unchanged_get|].
  intros s. destruct (field s); [apply unchanged_ret | apply unchanged_raise].
Qed.

Lemma unchanged_parameters {X} (f : kernel I -> X) net data :
  (forall v s, f (set_nets v s) = f s) -> unchanged f (parameters net data).
Proof.
  intros Hn s. unfold parameters, bind, get, modify, ret, raise.
  destruct (k_nets s !! net); [reflexivity|].
  destruct (k_init s !! net); [apply Hn|reflexivity].
Qed.

Lemma unchanged_initialised_parameters {X} (f : kernel I -> X) net :
  unchanged f (initialised_parameters net).
Proof.
  intros s. unfold initialised_parameters, bind, get, ret, raise.
  now destruct (k_nets s !! net).
Qed.

Lemma unchanged_with_autograd_record {X A} (f : kernel I -> X) (body : M I A) :
  (forall v s, f (set_recording v s) = f s) ->
  unchanged f body -> unchanged f (with_autograd_record body).
Proof.
  intros Hf Hb s. unfold with_autograd_record.
  specialize (Hb (set_recording true s)).
  destruct (body (set_recording true s)) as [r s']; simpl in *.
  now rewrite Hf, Hb, Hf.
Qed.

End MonadFacts.

(** The loop over a data source, one iteration at a time. *)
Section LoopFacts.
Context `{Framework} {I : Type} `{!DataIter I}.

Lemma iterate_nil {L} src enumerate i (body : DataBatch -> L -> M I L) acc s :
  iterate src enumerate i [] body acc s = (Ok acc, s).
Proof. reflexivity. Qed.

Lemma iterate_cons {L} src enumerate i batch rest
    (body : DataBatch -> L -> M I L) acc s :
  iterate src enumerate i (batch :: rest) body acc s =
  bind (body batch acc)
       (fun acc' => iterate src enumerate (S i) rest body acc')
       (enter_iteration src enumerate i s).
Proof. unfold enter_iteration. now destruct enumerate. Qed.

Lemma for_in_eq {L} src enumerate (body : DataBatch -> L -> M I L) acc s :
  for_in src enumerate body acc s =
  iterate src enumerate 0 (iter_pending (the_source src s)) body acc
          (map_source src iter_begin s).
Proof. reflexivity. Qed.

Lemma for_range_S lo n (body : nat -> M I unit) s :
  for_range lo (S n) body s =
  bind (body lo) (fun _ => for_range (S lo) n body) (set_e (Some lo) s).
Proof. reflexivity. Qed.

End LoopFacts.

(** Runs the first statement of a sequence, with a case for each outcome. *)
Ltac step E :=
  match goal with
  | |- context [bind ?m ?f ?s] =>
      let a := fresh "a" in
      let x := fresh "x" in
      let s' := fresh "s" in
      destruct (m s) as [[a|x] s'] eqn:E;
      [ rewrite (bind_ok m f s a s' E) | rewrite (bind_raise m f s x s' E) ]
  end.

(** ** What the statements of the batch loop leave alone *)

Section Frames.
Context `{Framework} {I : Type} `{!DataIter I}.

Lemma forward_bookkeeping net data : unchanged (I:=I) bookkeeping (forward net data).
Proof.
  unfold forward, emit.
  apply unchanged_bind; [apply unchanged_parameters; reflexivity|intros p].
  repeat first [ apply unchanged_bind | intro
               | apply unchanged_get | apply unchanged_call
               | apply unchanged_modify; reflexivity ].
Qed.

Lemma loss_bookkeeping output data label :
  unchanged (I:=I) bookkeeping (softmax_cross_entropy output data label).
Proof.
  unfold softmax_cross_entropy, emit.
  repeat first [ apply unchanged_bind | intro | apply unchanged_ret
               | apply unchanged_get | apply unchanged_call
               | apply unchanged_modify; reflexivity ].
Qed.

Lemma backward_bookkeeping net loss : unchanged (I:=I) bookkeeping (backward net loss).
Proof.
  unfold backward, emit.
  apply unchanged_bind; [apply unchanged_modify; reflexivity|intros _].
  destruct (loss_tape loss) as [[data label]|]; [|apply unchanged_raise].
  apply unchanged_bind; [apply unchanged_initialised_parameters|intros p].
  repeat first [ apply unchanged_bind | intro
               | apply unchanged_call | apply unchanged_modify; reflexivity ].
Qed.

Lemma trainer_step_bookkeeping net n : unchanged (I:=I) bookkeeping (trainer_step net n).
Proof.
  unfold trainer_step, emit.
  apply unchanged_bind; [apply unchanged_modify; reflexivity|intros _].
  apply unchanged_bind; [apply unchanged_initialised_parameters|intros p].
  apply unchanged_bind; [apply unchanged_get|intros s].
  destruct (k_grad s); [|apply unchanged_raise].
  apply unchanged_bind; [apply unchanged_call|intros p'].
  apply unchanged_modify; reflexivity.
Qed.

End Frames.

(** ** The VGG training cell stops in its first epoch *)

Section VGGFacts.
Context `{Framework}.

Lemma update_moving_loss_needs_i {I} curr_loss (s : kernel I) :
  k_i s = None -> update_moving_loss curr_loss s = (Raise (NameError "i"), s).
Proof.
  intros Hi. unfold update_moving_loss, lookup, bind, get, raise. now rewrite Hi.
Qed.

(** Without a binding for [i], the body of the batch loop cannot finish:
    either the framework raises, or the moving-loss assignment does. *)
Lemma train_batch_needs_i {I} `{!DataIter I} prepare net batch (s : kernel I) :
  k_i s = None ->
  exists x s',
    train_batch prepare net batch tt s = (Raise x, s') /\
    bookkeeping s' = bookkeeping s.
Proof.
  intros Hi. unfold train_batch.
  assert (Hrec : unchanged (I:=I) bookkeeping
            (with_autograd_record
               (let! output := forward net (prepare (b_data batch)) in
                softmax_cross_entropy output (prepare (b_data batch))
                  (b_label batch)))).
  { apply unchanged_with_autograd_record; [reflexivity|].
    apply unchanged_bind; [apply forward_bookkeeping|].
    intros output. apply loss_bookkeeping. }
  step E1.
  2:{ exists x, s0. split; [reflexivity|]. specialize (Hrec s). now rewrite E1 in Hrec. }
  specialize (Hrec s). rewrite E1 in Hrec. simpl in Hrec.
  step E2.
  2:{ exists x, s1. split; [reflexivity|].
      pose proof (backward_bookkeeping net a s0) as Hb.
      rewrite E2 in Hb. simpl in Hb. congruence. }
  pose proof (backward_bookkeeping net a s0) as Hb.
  rewrite E2 in Hb. simpl in Hb.
  step E3.
  2:{ exists x, s2. split; [reflexivity|].
      pose proof (trainer_step_bookkeeping net
                    (length (prepare (b_data batch))) s1) as Ht.
      rewrite E3 in Ht. simpl in Ht. congruence. }
  pose proof (trainer_step_bookkeeping net
                (length (prepare (b_data batch))) s1) as Ht.
  rewrite E3 in Ht. simpl in Ht.
  assert (Hi2 : k_i s2 = None).
  { assert (Hbk : bookkeeping s2 = bookkeeping s) by congruence.
    unfold bookkeeping in Hbk. congruence. }
  rewrite (update_moving_loss_needs_i _ _ Hi2).
  exists (NameError "i"), s2. split; [reflexivity|congruence].
Qed.

(** The whole cell, from any state in which neither [i] nor [alex_net] is
    bound: it raises during the first iteration of the epoch loop, having
    printed nothing and assigned no moving loss. *)
Lemma vgg_training_loop_raises (s : kernel DataLoader) :
  k_i s = None -> k_nets s !! "alex_net" = None ->
  k_init s !! "alex_net" = None ->
  exists x s',
    VGG.training_loop s = (Raise x, s') /\
    k_e s' = Some 0 /\
    k_moving_loss s' = k_moving_loss s /\
    k_stdout s' = k_stdout s.
Proof.
  intros Hi Halex Hinit.
  unfold VGG.training_loop, VGG.epochs. rewrite for_range_S.
  set (s0 := set_e (Some 0) s).
  assert (Hep : exists x s', VGG.epoch 0 s0 = (Raise x, s') /\
                              bookkeeping s' = bookkeeping s0).
  { unfold VGG.epoch. unfold bind at 1. rewrite for_in_eq.
    destruct (iter_pending (the_source train_data s0)) as [|batch rest].
    - (* an empty pass: straight on to [alex_net] *)
      rewrite iterate_nil.
      unfold lookup_net, lookup, network, bind, get, raise. simpl.
      rewrite Halex, Hinit. eexists _, _. split; reflexivity.
    - (* the first batch *)
      rewrite iterate_cons.
      destruct (train_batch_needs_i id "vgg_net" batch
                  (enter_iteration train_data false 0
                     (map_source train_data iter_begin s0)) Hi)
        as (x & s' & Eb & Hb).
      rewrite (bind_raise _ _ _ _ _ Eb).
      exists x, s'. split; [reflexivity|exact Hb]. }
  destruct Hep as (x & s' & Ee & Hb).
  exists x, s'. rewrite (bind_raise _ _ _ _ _ Ee).
  split; [reflexivity|].
  unfold bookkeeping in Hb. subst s0. simpl in Hb.
  injection Hb as H1 H2 H3 H4. auto.
Qed.

End VGGFacts.

(** ** What each statement of the batch loop does, case by case *)

Section RunEquations.
Context `{Framework} {I : Type} `{!DataIter I}.
Implicit Type s : kernel I.

Lemma parameters_of_initialised net data s p :
  k_nets s !! net = Some p -> parameters_of net data s = Some p.
Proof. intros Hp. unfold parameters_of. now rewrite Hp. Qed.

Lemma with_parameters_initialised net data s p :
  k_nets s !! net = Some p -> with_parameters net data s = s.
Proof. intros Hp. unfold with_parameters. now rewrite Hp. Qed.

(** Once the parameters are there, they are found in the store. *)
Lemma with_parameters_nets net data s p :
  parameters_of net data s = Some p ->
  k_nets (with_parameters net data s) !! net = Some p.
Proof.
  unfold parameters_of, with_parameters.
  destruct (k_nets s !! net) as [q|] eqn:Hq; [now intros [= <-]|].
  destruct (k_init s !! net) as [init|]; [|discriminate].
  intros [= <-]. cbn. apply lookup_insert_eq.
Qed.

Lemma forward_run net data s :
  forward net data s =
  match parameters_of net data s with
  | Some p =>
      (net_forward p data,
       log (EvForward net (k_recording s) (length data))
           (with_parameters net data s))
  | None => (Raise (NameError net), s)
  end.
Proof.
  unfold forward, parameters, parameters_of, with_parameters,
    emit, modify, call, bind, get, ret, raise.
  destruct (k_nets s !! net); [reflexivity|].
  now destruct (k_init s !! net).
Qed.

Lemma softmax_cross_entropy_run output data label s :
  softmax_cross_entropy output data label s =
  match loss_fn output label with
  | Ok v =>
      (Ok {| loss_values := v;
             loss_tape := if k_recording s then Some (data, label) else None |},
       log (EvLoss (k_recording s)) s)
  | Raise x => (Raise x, log (EvLoss (k_recording s)) s)
  end.
Proof.
  unfold softmax_cross_entropy, emit, modify, call, bind, get, ret. simpl.
  now destruct (loss_fn output label).
Qed.

Lemma backward_run net loss s :
  backward net loss s =
  match loss_tape loss with
  | None =>
      (Raise (MXNetError "Cannot differentiate node because it is not in a computational graph"),
       log EvBackward s)
  | Some (data, label) =>
      match k_nets s !! net with
      | None => (Raise (not_initialised net s), log EvBackward s)
      | Some p =>
          match autograd_backward p data label with
          | Ok g => (Ok tt, set_grad (Some g) (log EvBackward s))
          | Raise x => (Raise x, log EvBackward s)
          end
      end
  end.
Proof.
  unfold backward, initialised_parameters, emit, modify, call, bind, get, ret, raise.
  simpl.
  destruct (loss_tape loss) as [[data label]|]; [|reflexivity].
  cbn. destruct (k_nets s !! net); [|reflexivity].
  now destruct (autograd_backward _ _ _).
Qed.

Lemma trainer_step_run net n s :
  trainer_step net n s =
  match k_nets s !! net with
  | None => (Raise (not_initialised net s), log (EvStep n) s)
  | Some p =>
      match k_grad s with
      | None =>
          (Raise (MXNetError "Gradient of Parameter has not been updated by backward"),
           log (EvStep n) s)
      | Some g =>
          match trainer_update p g n with
          | Ok p' => (Ok tt, set_nets (<[net := p']> (k_nets s)) (log (EvStep n) s))
          | Raise x => (Raise x, log (EvStep n) s)
          end
      end
  end.
Proof.
  unfold trainer_step, initialised_parameters, emit, modify, call, bind, get,
    ret, raise. cbn.
  destruct (k_nets s !! net); [|reflexivity].
  cbn. destruct (k_grad s); [|reflexivity].
  now destruct (trainer_update _ _ _).
Qed.

Lemma update_moving_loss_run curr_loss s :
  update_moving_loss curr_loss s =
  match k_i s with
  | None => (Raise (NameError "i"), s)
  | Some i =>
      if Nat.eqb i 0 then
        match k_e s with
        | None => (Raise (NameError "e"), s)
        | Some e =>
            if Nat.eqb e 0
            then (Ok tt, log EvMovingLoss (set_moving_loss (Some curr_loss) s))
            else match k_moving_loss s with
                 | None => (Raise (NameError "moving_loss"), s)
                 | Some m =>
                     (Ok tt, log EvMovingLoss
                               (set_moving_loss (Some (smooth m curr_loss)) s))
                 end
        end
      else match k_moving_loss s with
           | None => (Raise (NameError "moving_loss"), s)
           | Some m =>
               (Ok tt, log EvMovingLoss
                         (set_moving_loss (Some (smooth m curr_loss)) s))
           end
  end.
Proof.
  unfold update_moving_loss, lookup, emit, modify, bind, get, ret, raise, smooth.
  destruct (k_i s) as [i|]; [|reflexivity]. simpl.
  destruct (Nat.eqb i 0); simpl.
  - destruct (k_e s) as [e|]; [|reflexivity]. simpl.
    destruct (Nat.eqb e 0); simpl; [reflexivity|].
    now destruct (k_moving_loss s).
  - now destruct (k_moving_loss s).
Qed.

Lemma with_autograd_record_run {A} (body : M I A) s :
  with_autograd_record body s =
  (fst (body (set_recording true s)),
   set_recording (k_recording s) (snd (body (set_recording true s)))).
Proof.
  unfold with_autograd_record. now destruct (body (set_recording true s)).
Qed.

End RunEquations.

(** ** The order of operations on a mini-batch *)

Section BatchOrder.
Context `{Framework} {I : Type} `{!DataIter I}.
Implicit Type s : kernel I.

(** The recorded block: the forward pass and the loss, both logged with
    recording switched on, after which the flag is what it was before. *)
Lemma record_block_run net data label s :
  with_autograd_record
    (let! output := forward net data in
     softmax_cross_entropy output data label) s =
  match parameters_of net data s with
  | None => (Raise (NameError net), s)
  | Some p =>
      let s1 := log (EvForward net true (length data))
                    (with_parameters net data s) in
      match net_forward p data with
      | Raise x => (Raise x, s1)
      | Ok output =>
          match loss_fn output label with
          | Raise x => (Raise x, log (EvLoss true) s1)
          | Ok v =>
              (Ok {| loss_values := v; loss_tape := Some (data, label) |},
               log (EvLoss true) s1)
          end
      end
  end.
Proof.
  rewrite with_autograd_record_run. unfold bind. rewrite forward_run.
  unfold parameters_of, with_parameters. cbn [k_nets k_init set_recording].
  destruct (k_nets s !! net) as [p|]; [|destruct (k_init s !! net) as [init|]].
  - destruct (net_forward p data) as [output|x].
    2:{ destruct s; reflexivity. }
    rewrite softmax_cross_entropy_run.
    destruct (loss_fn output label); destruct s; reflexivity.
  - destruct (net_forward (init data) data) as [output|x].
    2:{ destruct s; reflexivity. }
    rewrite softmax_cross_entropy_run.
    destruct (loss_fn output label); destruct s; reflexivity.
  - destruct s; reflexivity.
Qed.

Lemma record_block_initialised net data label s p :
  k_nets s !! net = Some p ->
  with_autograd_record
    (let! output := forward net data in
     softmax_cross_entropy output data label) s =
  let s1 := log (EvForward net true (length data)) s in
  match net_forward p data with
  | Raise x => (Raise x, s1)
  | Ok output =>
      match loss_fn output label with
      | Raise x => (Raise x, log (EvLoss true) s1)
      | Ok v =>
          (Ok {| loss_values := v; loss_tape := Some (data, label) |},
           log (EvLoss true) s1)
      end
  end.
Proof.
  intros Hp. rewrite record_block_run.
  now rewrite (parameters_of_initialised _ _ _ _ Hp),
    (with_parameters_initialised _ _ _ _ Hp).
Qed.

Lemma parameters_of_unbound net data s :
  parameters_of net data s = None ->
  k_nets s !! net = None /\ k_init s !! net = None /\
  with_parameters net data s = s.
Proof.
  unfold parameters_of, with_parameters.
  destruct (k_nets s !! net); [discriminate|].
  now destruct (k_init s !! net).
Qed.

Lemma with_parameters_idem net data s :
  parameters_of net data (with_parameters net data s) = parameters_of net data s /\
  with_parameters net data (with_parameters net data s) = with_parameters net data s.
Proof.
  destruct (parameters_of net data s) as [p|] eqn:Hp.
  - pose proof (with_parameters_nets _ _ _ _ Hp) as Hn.
    split.
    + apply (parameters_of_initialised _ _ _ _ Hn).
    + apply (with_parameters_initialised _ _ _ _ Hn).
  - destruct (parameters_of_unbound _ _ _ Hp) as (_ & _ & Hw).
    rewrite !Hw. split; [exact Hp|reflexivity].
Qed.

Lemma with_parameters_frame {X} (f : kernel I -> X) net data s :
  (forall v t, f (set_nets v t) = f t) -> f (with_parameters net data s) = f s.
Proof.
  intros Hf. unfold with_parameters.
  destruct (k_nets s !! net); [reflexivity|].
  destruct (k_init s !! net); [apply Hf|reflexivity].
Qed.

(** A forward pass on a network whose initialisation is deferred is the
    forward pass on the network with the initialisation finished. *)
Lemma forward_with_parameters net data s :
  forward net data s = forward net data (with_parameters net data s).
Proof.
  rewrite !forward_run.
  destruct (with_parameters_idem net data s) as [-> ->].
  rewrite (with_parameters_frame k_recording) by reflexivity.
  destruct (parameters_of net data s) as [p|] eqn:Hp; [reflexivity|].
  now destruct (parameters_of_unbound _ _ _ Hp) as (_ & _ & ->).
Qed.

Lemma record_block_with_parameters net data label s :
  with_autograd_record
    (let! output := forward net data in
     softmax_cross_entropy output data label) s =
  with_autograd_record
    (let! output := forward net data in
     softmax_cross_entropy output data label) (with_parameters net data s).
Proof.
  rewrite !record_block_run.
  destruct (with_parameters_idem net data s) as [-> ->].
  destruct (parameters_of net data s) as [p|] eqn:Hp; [reflexivity|].
  now destruct (parameters_of_unbound _ _ _ Hp) as (_ & _ & ->).
Qed.

(** So is a pass through the body of the batch loop. *)
Lemma train_batch_with_parameters prepare net batch u s :
  train_batch prepare net batch u s =
  train_batch prepare net batch u (with_parameters net (prepare (b_data batch)) s).
Proof.
  unfold train_batch. unfold bind at 1 5.
  now rewrite record_block_with_parameters.
Qed.

Lemma train_batch_unbound prepare net batch u s :
  parameters_of net (prepare (b_data batch)) s = None ->
  train_batch prepare net batch u s = (Raise (NameError net), s).
Proof.
  intros Hp. unfold train_batch. unfold bind at 1.
  now rewrite record_block_run, Hp.
Qed.

Lemma update_moving_loss_next curr_loss s :
  update_moving_loss curr_loss s =
  match next_moving_loss s curr_loss with
  | Ok m => (Ok tt, log EvMovingLoss (set_moving_loss (Some m) s))
  | Raise x => (Raise x, s)
  end.
Proof.
  rewrite update_moving_loss_run. unfold next_moving_loss.
  destruct (k_i s) as [i|]; [|reflexivity].
  destruct (Nat.eqb i 0).
  - destruct (k_e s) as [e|]; [|reflexivity].
    destruct (Nat.eqb e 0); [reflexivity|].
    now destruct (k_moving_loss s).
  - now destruct (k_moving_loss s).
Qed.

(** The body of the batch loop, statement by statement: where it stops and
    the state it leaves there. *)
Lemma train_batch_run prepare net batch u s :
  train_batch prepare net batch u s =
  let data := prepare (b_data batch) in
  let label := b_label batch in
  match parameters_of net data s with
  | None => (Raise (NameError net), s)
  | Some p =>
      let s1 := log (EvForward net true (length data))
                    (with_parameters net data s) in
      match net_forward p data with
      | Raise x => (Raise x, s1)
      | Ok output =>
          let s2 := log (EvLoss true) s1 in
          match loss_fn output label with
          | Raise x => (Raise x, s2)
          | Ok v =>
              let s3 := log EvBackward s2 in
              match autograd_backward p data label with
              | Raise x => (Raise x, s3)
              | Ok g =>
                  let s4 := log (EvStep (length data)) (set_grad (Some g) s3) in
                  match trainer_update p g (length data) with
                  | Raise x => (Raise x, s4)
                  | Ok p' =>
                      update_moving_loss (nd_mean v)
                        (set_nets (<[net := p']> (k_nets s4)) s4)
                  end
              end
          end
      end
  end.
Proof.
  cbv zeta. unfold train_batch. unfold bind at 1. rewrite record_block_run.
  destruct (parameters_of net _ s) as [p|] eqn:Hp; [|reflexivity].
  pose proof (with_parameters_nets _ _ _ _ Hp) as Hn.
  cbv zeta. destruct (net_forward p _) as [output|x]; [|reflexivity].
  destruct (loss_fn output _) as [v|x]; [|reflexivity].
  unfold bind at 1. rewrite backward_run. cbn [loss_tape].
  cbn [k_nets log set_trace]. rewrite Hn.
  destruct (autograd_backward p _ _) as [g|x]; [|reflexivity].
  unfold bind at 1. rewrite trainer_step_run.
  cbn [k_nets k_grad log set_trace set_grad]. rewrite Hn.
  now destruct (trainer_update p g _) as [p'|x].
Qed.

Lemma next_moving_loss_frame (s t : kernel I) curr_loss :
  k_i t = k_i s -> k_e t = k_e s -> k_moving_loss t = k_moving_loss s ->
  next_moving_loss t curr_loss = next_moving_loss s curr_loss.
Proof. intros Ei Ee Em. unfold next_moving_loss. now rewrite Ei, Ee, Em. Qed.

(** The state in which the moving-loss assignment of a batch is made reads
    [i], [e] and [moving_loss] as the state at the head of the body. *)
Lemma next_moving_loss_in_batch net data g nets (s : kernel I) curr_loss :
  next_moving_loss
    (set_nets nets
       (log (EvStep (length data)) (set_grad (Some g) (log EvBackward
          (log (EvLoss true) (log (EvForward net true (length data))
             (with_parameters net data s)))))))
    curr_loss
  = next_moving_loss s curr_loss.
Proof. apply next_moving_loss_frame; cbn; now apply with_parameters_frame. Qed.

(** The body of the batch loop makes the five operations in that order. *)
Lemma train_batch_in_order prepare net batch s :
  let run := train_batch prepare net batch tt s in
  (fst run, k_nets (snd run), k_grad (snd run), k_moving_loss (snd run))
  = operations_in_order prepare net batch s.
Proof.
  cbv zeta. rewrite train_batch_run. unfold operations_in_order. cbv zeta.
  set (data := prepare (b_data batch)).
  destruct (parameters_of net data s) as [p|] eqn:Hp.
  2:{ now destruct (parameters_of_unbound _ _ _ Hp) as (_ & _ & ->). }
  assert (Hg : k_grad (with_parameters net data s) = k_grad s)
    by now apply with_parameters_frame.
  assert (Hm : k_moving_loss (with_parameters net data s) = k_moving_loss s)
    by now apply with_parameters_frame.
  destruct (net_forward p data) as [output|x]; [|cbn; now rewrite Hg, Hm].
  destruct (loss_fn output _) as [v|x]; [|cbn; now rewrite Hg, Hm].
  destruct (autograd_backward p data _) as [g|x]; [|cbn; now rewrite Hg, Hm].
  destruct (trainer_update p g _) as [p'|x]; [|cbn; now rewrite Hm].
  rewrite update_moving_loss_next, next_moving_loss_in_batch.
  destruct (next_moving_loss s _) as [m|x]; cbn; [reflexivity|now rewrite Hm].
Qed.

(** Recording is back to what it was after the batch. *)
Lemma train_batch_recording prepare net batch s :
  k_recording (snd (train_batch prepare net batch tt s)) = k_recording s.
Proof.
  rewrite train_batch_run. cbv zeta.
  set (data := prepare (b_data batch)).
  assert (Hr : k_recording (with_parameters net data s) = k_recording s)
    by now apply with_parameters_frame.
  destruct (parameters_of net data s) as [p|]; [|reflexivity].
  destruct (net_forward p data) as [output|x]; [|exact Hr].
  destruct (loss_fn output _) as [v|x]; [|exact Hr].
  destruct (autograd_backward p data _) as [g|x]; [|exact Hr].
  destruct (trainer_update p g _) as [p'|x]; [|exact Hr].
  rewrite update_moving_loss_next.
  destruct (next_moving_loss _ _) as [m|x]; exact Hr.
Qed.

Ltac closes_with evs rest :=
  match goal with
  | E : _ = (_, _) |- _ =>
      inversion E; subst; exists evs; cbn; repeat rewrite <- app_assoc;
      split; [reflexivity|];
      split; [now exists rest | first [discriminate | reflexivity]]
  end.

Lemma train_batch_trace_initialised prepare net batch s p :
  k_nets s !! net = Some p ->
  let n := length (prepare (b_data batch)) in
  let run := train_batch prepare net batch tt s in
  exists evs,
    k_trace (snd run) = k_trace s ++ evs /\
    evs `prefix_of` batch_events net n /\
    (fst run = Ok tt -> evs = batch_events net n).
Proof.
  intros Hnet n run.
  destruct run as [r s'] eqn:E. subst run. cbn [fst snd].
  unfold train_batch in E. fold n in E.
  unfold bind at 1 in E. rewrite (record_block_initialised _ _ _ _ _ Hnet) in E.
  cbv zeta in E. fold n in E.
  destruct (net_forward p _) as [output|x].
  2:{ closes_with [EvForward net true n]
        [EvLoss true; EvBackward; EvStep n; EvMovingLoss]. }
  destruct (loss_fn output _) as [v|x].
  2:{ closes_with [EvForward net true n; EvLoss true]
        [EvBackward; EvStep n; EvMovingLoss]. }
  unfold bind at 1 in E. rewrite backward_run in E.
  cbn [loss_tape k_nets log set_trace] in E. rewrite Hnet in E.
  destruct (autograd_backward p _ _) as [g|x].
  2:{ closes_with [EvForward net true n; EvLoss true; EvBackward]
        [EvStep n; EvMovingLoss]. }
  unfold bind at 1 in E. rewrite trainer_step_run in E.
  cbn [k_nets k_grad set_grad log set_trace] in E. rewrite Hnet in E.
  destruct (trainer_update p g n) as [p'|x].
  2:{ closes_with [EvForward net true n; EvLoss true; EvBackward; EvStep n]
        [EvMovingLoss]. }
  rewrite update_moving_loss_run in E.
  cbn [k_i k_e k_moving_loss set_nets set_grad log set_trace] in E.
  destruct (k_i s) as [i|].
  2:{ closes_with [EvForward net true n; EvLoss true; EvBackward; EvStep n]
        [EvMovingLoss]. }
  destruct (Nat.eqb i 0); [destruct (k_e s) as [e|]; [destruct (Nat.eqb e 0)|]|];
    try destruct (k_moving_loss s) as [m|];
    first [ closes_with [EvForward net true n; EvLoss true; EvBackward; EvStep n]
              [EvMovingLoss]
          | closes_with (batch_events net n) (@nil event) ].
Qed.

Lemma train_batch_trace prepare net batch s :
  let n := length (prepare (b_data batch)) in
  let run := train_batch prepare net batch tt s in
  exists evs,
    k_trace (snd run) = k_trace s ++ evs /\
    evs `prefix_of` batch_events net n /\
    (fst run = Ok tt -> evs = batch_events net n).
Proof.
  intros n run. subst run.
  destruct (parameters_of net (prepare (b_data batch)) s) as [p|] eqn:Hp.
  - rewrite train_batch_with_parameters.
    rewrite <- (with_parameters_frame k_trace net (prepare (b_data batch)) s)
      by reflexivity.
    apply (train_batch_trace_initialised prepare net batch _ p).
    now apply with_parameters_nets.
  - rewrite (train_batch_unbound _ _ _ _ _ Hp). exists []. rewrite app_nil_r.
    split; [reflexivity|]. split; [apply prefix_nil|discriminate].
Qed.

Lemma enter_iteration_trace src enumerate i s :
  k_trace (enter_iteration src enumerate i s) = k_trace s.
Proof. unfold enter_iteration. now destruct enumerate, src. Qed.

Lemma map_source_trace src (f : I -> I) s : k_trace (map_source src f s) = k_trace s.
Proof. now destruct src. Qed.

(** Over a whole batch loop: every batch the loop got through contributes
    its five operations in order, and the batch on which the loop stopped,
    if any, a prefix of them. *)
Lemma iterate_train_trace prepare net enumerate pending : forall i s,
  let run := iterate train_data enumerate i pending
               (train_batch prepare net) tt s in
  exists (k : nat) (evs : list event),
    k_trace (snd run) =
      k_trace s
      ++ concat (map (batch_events net) (take k (batch_sizes prepare pending)))
      ++ evs /\
    (fst run = Ok tt -> k = length pending /\ evs = []) /\
    (forall x, fst run = Raise x ->
       exists n, batch_sizes prepare pending !! k = Some n /\
                 evs `prefix_of` batch_events net n).
Proof.
  induction pending as [|batch rest IH]; intros i s run.
  - exists 0, []. subst run. cbn. rewrite app_nil_r.
    split; [reflexivity|]. split; [auto|discriminate].
  - subst run. rewrite iterate_cons.
    set (s0 := enter_iteration train_data enumerate i s).
    destruct (train_batch_trace prepare net batch s0) as (evs & Ht & Hp & Hok).
    assert (Hs0 : k_trace s0 = k_trace s) by apply enter_iteration_trace.
    rewrite Hs0 in Ht. clear Hs0.
    unfold bind.
    destruct (train_batch prepare net batch tt s0) as [[[]|x] s1]; cbn [fst snd] in *.
    + specialize (IH (S i) s1). cbv zeta in IH.
      destruct IH as (k & evs' & Ht' & Hok' & Hraise').
      exists (S k), evs'. rewrite Ht', Ht, (Hok eq_refl).
      split; [|split].
      * cbn [batch_sizes map take concat]. now rewrite <- !app_assoc.
      * intros E. destruct (Hok' E) as [-> ->]. auto.
      * intros y E. apply (Hraise' y E).
    + exists 0, evs. split; [|split].
      * now rewrite Ht.
      * discriminate.
      * intros y _. exists (length (prepare (b_data batch))). auto.
Qed.


Lemma for_in_train_ordered prepare net enumerate s :
  ordered_batch_loop prepare net enumerate s.
Proof.
  unfold ordered_batch_loop. rewrite for_in_eq. cbn [the_source].
  destruct (iterate_train_trace prepare net enumerate
              (iter_pending (k_train_data s)) 0
              (map_source train_data iter_begin s))
    as (k & evs & Ht & Hok & Hraise).
  rewrite map_source_trace in Ht.
  exists k, evs. split; [exact Ht|]. split; [|exact Hraise].
  intros E. destruct (Hok E) as [-> ->].
  unfold batch_sizes. now rewrite length_map.
Qed.

End BatchOrder.

(** C6. On every mini-batch of every training loop the operations come in
    the order that the specification gives.  For the body of the batch
    loop, which the three cells share up to the name of the network and
    the preparation of the data, run from any state:
    - its outcome and what it leaves in the parameters, in the gradient
      buffers and in [moving_loss] are those of the five operations made
      one after another, each on what the ones before it left, the first
      that fails ending the batch: the forward pass and the loss, then
      backward at the parameters that made the forward pass, then one
      optimizer step from these parameters with this gradient and the size
      of the batch, then the moving-loss assignment with the mean of this
      loss;
    - [moving_loss] is written only once the optimizer step of the batch
      is taken: if it has changed, the gradient buffers hold the gradient
      of the batch and the network holds the stepped parameters;
    - the parameters are stepped only once backward is through, and the
      gradient is written only once the forward pass and the loss are;
    - recording is on for the forward pass and the loss only: it is back
      to what it was after the batch.
    For the batch loop of each of the three cells, the trace of framework
    calls is the concatenation of the five-operation blocks (forward pass
    and loss under recording, backward, step with the batch size,
    moving-loss assignment) of the batches it got through, followed, when
    the loop was stopped by an exception, by a prefix of the block of the
    batch it stopped on. *)
Theorem batch_operations_in_order `{Framework} :
  (forall I (DI : DataIter I) prepare net batch (s : kernel I),
     let run := train_batch prepare net batch tt s in
     (fst run, k_nets (snd run), k_grad (snd run), k_moving_loss (snd run))
     = operations_in_order prepare net batch s) /\
  (forall I (DI : DataIter I) prepare net batch (s : kernel I),
     let data := prepare (b_data batch) in
     let run := train_batch prepare net batch tt s in
     k_moving_loss (snd run) <> k_moving_loss s ->
     exists p g p',
       parameters_of net data s = Some p /\
       autograd_backward p data (b_label batch) = Ok g /\
       trainer_update p g (length data) = Ok p' /\
       k_grad (snd run) = Some g /\
       k_nets (snd run) !! net = Some p') /\
  (forall I (DI : DataIter I) prepare net batch (s : kernel I),
     let data := prepare (b_data batch) in
     let run := train_batch prepare net batch tt s in
     k_nets (snd run) <> k_nets (with_parameters net data s) ->
     exists p g,
       parameters_of net data s = Some p /\
       autograd_backward p data (b_label batch) = Ok g /\
       k_grad (snd run) = Some g) /\
  (forall I (DI : DataIter I) prepare net batch (s : kernel I),
     let data := prepare (b_data batch) in
     let run := train_batch prepare net batch tt s in
     k_grad (snd run) <> k_grad s ->
     exists p output v,
       parameters_of net data s = Some p /\
       net_forward p data = Ok output /\
       loss_fn output (b_label batch) = Ok v) /\
  (forall I (DI : DataIter I) prepare net batch (s : kernel I),
     k_recording (snd (train_batch prepare net batch tt s)) = k_recording s) /\
  (forall s : kernel NDArrayIter, ordered_batch_loop id "net" true s) /\
  (forall s : kernel NDArrayIter,
     ordered_batch_loop (map reshape784) "net" true s) /\
  (forall s : kernel DataLoader, ordered_batch_loop id "vgg_net" false s).
Proof.
  split; [|split; [|split; [|split; [|split]]]].
  - intros I DI prepare net batch s. apply train_batch_in_order.
  - intros I DI prepare net batch s data run Hm.
    pose proof (train_batch_in_order prepare net batch s) as E.
    cbv zeta in E. fold run in E. unfold operations_in_order in E.
    cbv zeta in E. fold data in E.
    destruct (parameters_of net data s) as [p|];
      [|injection E as _ _ _ E; contradiction].
    destruct (net_forward p data) as [output|x];
      [|injection E as _ _ _ E; contradiction].
    destruct (loss_fn output _) as [v|x];
      [|injection E as _ _ _ E; contradiction].
    destruct (autograd_backward p data _) as [g|x] eqn:Hb;
      [|injection E as _ _ _ E; contradiction].
    destruct (trainer_update p g _) as [p'|x] eqn:Hu;
      [|injection E as _ _ _ E; contradiction].
    destruct (next_moving_loss s _) as [m|x];
      [|injection E as _ _ _ E; contradiction].
    injection E as _ En Eg _. exists p, g, p'.
    split; [reflexivity|]. split; [exact Hb|]. split; [exact Hu|].
    split; [exact Eg|]. rewrite En. apply lookup_insert_eq.
  - intros I DI prepare net batch s data run Hn.
    pose proof (train_batch_in_order prepare net batch s) as E.
    cbv zeta in E. fold run in E. unfold operations_in_order in E.
    cbv zeta in E. fold data in E.
    destruct (parameters_of net data s) as [p|];
      [|injection E as _ E _ _; contradiction].
    destruct (net_forward p data) as [output|x];
      [|injection E as _ E _ _; contradiction].
    destruct (loss_fn output _) as [v|x];
      [|injection E as _ E _ _; contradiction].
    destruct (autograd_backward p data _) as [g|x] eqn:Hb;
      [|injection E as _ E _ _; contradiction].
    exists p, g. split; [reflexivity|]. split; [exact Hb|].
    destruct (trainer_update p g _) as [p'|x]; [|now injection E].
    destruct (next_moving_loss s _) as [m|x]; now injection E.
  - intros I DI prepare net batch s data run Hg.
    pose proof (train_batch_in_order prepare net batch s) as E.
    cbv zeta in E. fold run in E. unfold operations_in_order in E.
    cbv zeta in E. fold data in E.
    destruct (parameters_of net data s) as [p|];
      [|injection E as _ _ E _; contradiction].
    destruct (net_forward p data) as [output|x] eqn:Hf;
      [|injection E as _ _ E _; contradiction].
    destruct (loss_fn output _) as [v|x] eqn:Hl;
      [|injection E as _ _ E _; contradiction].
    now exists p, output, v.
  - intros I DI prepare net batch s. apply train_batch_recording.
  - repeat split; intros s; apply for_in_train_ordered.
Qed.

(** The first batch of the first epoch in the small framework: the moving
    loss is assigned, so the step has been taken, with the gradient of the
    batch at the parameters before it. *)
Lemma batch_operations_in_order_witness :
  let s := set_i (Some 0) (set_e (Some 0)
             (fresh_kernel (H:=Toy.framework) "net" 1%Z Toy.nd_train Toy.nd_test)) in
  let batch := Toy.batch [5; -3]%Z [1; 0] in
  let run := train_batch id "net" batch tt s in
  k_moving_loss (snd run) <> k_moving_loss s /\
  exists p g p',
    parameters_of (H:=Toy.framework) "net" [5; -3]%Z s = Some p /\
    Toy.gradient p [5; -3]%Z [1; 0] = Ok g /\
    Toy.update p g 2 = Ok p' /\
    k_grad (snd run) = Some g /\
    k_nets (snd run) !! "net" = Some p'.
Proof.
  intros s batch run.
  assert (Hm : k_moving_loss (snd run) <> k_moving_loss s)
    by (vm_compute; discriminate).
  split; [exact Hm|].
  exact (proj1 (proj2 (batch_operations_in_order (H:=Toy.framework)))
           NDArrayIter _ id "net" batch s Hm).
Defined.


(** ** What evaluate_accuracy does to the network *)

Section EvaluateFrame.
Context `{Framework} {I : Type} `{!DataIter I}.
Implicit Type s : kernel I.

Lemma evaluate_batch_run prepare net batch acc s :
  evaluate_batch prepare net batch acc s =
  let data := prepare (b_data batch) in
  match parameters_of net data s with
  | None => (Raise (NameError net), s)
  | Some p =>
      let s1 := log (EvForward net (k_recording s) (length data))
                    (with_parameters net data s) in
      match net_forward p data with
      | Raise x => (Raise x, s1)
      | Ok output => (Accuracy_update (nd_argmax output) (b_label batch) acc, s1)
      end
  end.
Proof.
  unfold evaluate_batch, bind. rewrite forward_run. cbv zeta.
  destruct (parameters_of net _ s) as [p|]; [|reflexivity].
  now destruct (net_forward p _).
Qed.

Lemma evaluate_batch_initialised prepare net batch acc s p :
  k_nets s !! net = Some p ->
  evaluate_batch prepare net batch acc s =
  let data := prepare (b_data batch) in
  let s1 := log (EvForward net (k_recording s) (length data)) s in
  match net_forward p data with
  | Raise x => (Raise x, s1)
  | Ok output => (Accuracy_update (nd_argmax output) (b_label batch) acc, s1)
  end.
Proof.
  intros Hp. rewrite evaluate_batch_run. cbv zeta.
  now rewrite (parameters_of_initialised _ _ _ _ Hp),
              (with_parameters_initialised _ _ _ _ Hp).
Qed.

Lemma enter_iteration_model_state src enumerate i s :
  model_state (enter_iteration src enumerate i s) = model_state s.
Proof. unfold enter_iteration. now destruct enumerate, src. Qed.

Lemma map_source_model_state src (f : I -> I) s :
  model_state (map_source src f s) = model_state s.
Proof. now destruct src. Qed.

Lemma enter_iteration_init src enumerate i s :
  k_init (enter_iteration src enumerate i s) = k_init s.
Proof. unfold enter_iteration. now destruct enumerate, src. Qed.

Lemma enter_iteration_moving_loss src enumerate i s :
  k_moving_loss (enter_iteration src enumerate i s) = k_moving_loss s.
Proof. unfold enter_iteration. now destruct enumerate, src. Qed.

(** Where the parameters come from depends on the two stores only. *)
Lemma with_parameters_congr net data (s1 s2 : kernel I) :
  k_nets s1 = k_nets s2 -> k_init s1 = k_init s2 ->
  parameters_of net data s1 = parameters_of net data s2 /\
  k_nets (with_parameters net data s1) = k_nets (with_parameters net data s2).
Proof.
  intros En Ei. unfold parameters_of, with_parameters. rewrite En, Ei.
  split; [reflexivity|].
  destruct (k_nets s2 !! net); [exact En|].
  destruct (k_init s2 !! net); [|exact En]. reflexivity.
Qed.

Lemma evaluation_only_refl net s :
  k_recording s = false -> evaluation_only net None s s.
Proof.
  intros Hrec. unfold evaluation_only. repeat (split; [reflexivity || exact Hrec|]).
  exists []. rewrite app_nil_r. split; [reflexivity|constructor].
Qed.

(** An evaluation that goes on after the first forward pass of [net]. *)
Lemma evaluation_only_step net data first s s1 s' :
  k_recording s = false ->
  parameters_of net data s <> None ->
  k_nets s1 = k_nets (with_parameters net data s) ->
  k_init s1 = k_init s -> k_grad s1 = k_grad s ->
  k_recording s1 = false -> k_moving_loss s1 = k_moving_loss s ->
  k_trace s1 = k_trace s ++ [EvForward net false (length data)] ->
  evaluation_only net first s1 s' ->
  evaluation_only net (Some data) s s'.
Proof.
  intros Hrec Hp En Ei Eg Er Em Et (Hn & Hi & Hg & Hr & Hm & evs & Ht & Hf).
  destruct (parameters_of net data s) as [p|] eqn:Ep; [|congruence].
  assert (Hp1 : k_nets s1 !! net = Some p)
    by (rewrite En; now apply with_parameters_nets).
  unfold evaluation_only.
  split.
  { rewrite Hn, <- En. destruct first as [d|]; [|reflexivity].
    now rewrite (with_parameters_initialised _ _ _ _ Hp1). }
  repeat (split; [congruence|]).
  exists (EvForward net false (length data) :: evs).
  rewrite Ht, Et, <- app_assoc. split; [reflexivity|].
  constructor; [now eexists|exact Hf].
Qed.

Lemma iterate_evaluate_effect prepare net src pending : forall i acc s,
  k_recording s = false ->
  evaluation_only net (first_data prepare pending) s
    (snd (iterate src false i pending (evaluate_batch prepare net) acc s)).
Proof.
  induction pending as [|batch rest IH]; intros i acc s Hrec.
  - cbn. now apply evaluation_only_refl.
  - rewrite iterate_cons. cbn [first_data].
    pose proof (enter_iteration_model_state src false i s) as Hm0.
    pose proof (enter_iteration_trace src false i s) as Ht0.
    pose proof (enter_iteration_init src false i s) as Hi0.
    pose proof (enter_iteration_moving_loss src false i s) as Hl0.
    remember (enter_iteration src false i s) as s0 eqn:Es0. clear Es0.
    unfold model_state in Hm0. injection Hm0 as Hn0 Hg0 Hr0.
    set (data := prepare (b_data batch)).
    destruct (with_parameters_congr net data s0 s Hn0 Hi0) as [Hp0 Hw0].
    unfold bind. rewrite evaluate_batch_run. cbv zeta. fold data.
    destruct (parameters_of net data s0) as [p|] eqn:Ep.
    2:{ cbn [fst snd].
        destruct (parameters_of_unbound _ _ _ Ep) as (_ & _ & Hw).
        rewrite Hw in Hw0. unfold evaluation_only.
        split; [exact Hw0|]. repeat (split; [congruence|]).
        exists []. rewrite app_nil_r. split; [exact Ht0|constructor]. }
    rewrite Hr0, Hrec.
    set (s1 := log (EvForward net false (length data))
                   (with_parameters net data s0)).
    assert (Hstep : forall s', evaluation_only net (first_data prepare rest) s1 s' ->
                               evaluation_only net (Some data) s s').
    { intros s' Hs'.
      apply (evaluation_only_step net data (first_data prepare rest) s s1 s');
        try assumption; try congruence; subst s1; cbn.
      - now rewrite (with_parameters_frame k_init) by reflexivity.
      - now rewrite (with_parameters_frame k_grad) by reflexivity.
      - rewrite (with_parameters_frame k_recording) by reflexivity. congruence.
      - now rewrite (with_parameters_frame k_moving_loss) by reflexivity.
      - rewrite (with_parameters_frame k_trace) by reflexivity. now rewrite Ht0. }
    assert (Hrec1 : k_recording s1 = false).
    { subst s1. cbn.
      rewrite (with_parameters_frame k_recording) by reflexivity. congruence. }
    assert (Hstop : evaluation_only net (Some data) s s1).
    { apply Hstep. destruct (first_data prepare rest) as [d|] eqn:Ed.
      - pose proof (evaluation_only_refl net s1 Hrec1) as Hrefl.
        unfold evaluation_only in *.
        assert (Hn1 : k_nets s1 !! net = Some p).
        { subst s1. cbn. now apply with_parameters_nets. }
        now rewrite (with_parameters_initialised _ _ _ _ Hn1).
      - now apply evaluation_only_refl. }
    destruct (net_forward p data) as [output|x]; [|exact Hstop].
    destruct (Accuracy_update _ _ acc) as [acc'|x]; [|exact Hstop].
    apply Hstep, IH, Hrec1.
Qed.

Lemma for_in_evaluate_effect prepare net src acc s :
  k_recording s = false ->
  evaluation_only net (first_data prepare (iter_pending (the_source src s))) s
    (snd (for_in src false (evaluate_batch prepare net) acc s)).
Proof.
  intros Hrec. rewrite for_in_eq.
  pose proof (map_source_model_state src iter_begin s) as Hm0.
  pose proof (map_source_trace src iter_begin s) as Ht0.
  set (s0 := map_source src iter_begin s) in *.
  unfold model_state in Hm0. injection Hm0 as Hn0 Hg0 Hr0.
  assert (Hi0 : k_init s0 = k_init s) by (subst s0; now destruct src).
  assert (Hl0 : k_moving_loss s0 = k_moving_loss s) by (subst s0; now destruct src).
  set (first := first_data prepare (iter_pending (the_source src s))).
  destruct (iterate_evaluate_effect prepare net src
              (iter_pending (the_source src s)) 0 acc s0)
    as (Hn & Hi & Hg & Hr & Hm & evs & Ht & Hf); [congruence|].
  fold first in Hn. unfold evaluation_only.
  split.
  { rewrite Hn. destruct first as [data|]; [|exact Hn0].
    now destruct (with_parameters_congr net data s0 s Hn0 Hi0). }
  repeat (split; [congruence|]).
  exists evs. split; [congruence|exact Hf].
Qed.

(** The parameter store of a network that has its parameters, without
    any assumption on the recording flag. *)
Lemma iterate_evaluate_nets prepare net src pending : forall i acc s p,
  k_nets s !! net = Some p ->
  k_nets (snd (iterate src false i pending (evaluate_batch prepare net) acc s))
  = k_nets s.
Proof.
  induction pending as [|batch rest IH]; intros i acc s p Hp; [reflexivity|].
  rewrite iterate_cons.
  assert (Hn0 : k_nets (enter_iteration src false i s) = k_nets s)
    by (unfold enter_iteration; now destruct src).
  assert (Hp0 : k_nets (enter_iteration src false i s) !! net = Some p)
    by now rewrite Hn0.
  unfold bind. rewrite (evaluate_batch_initialised _ _ _ _ _ _ Hp0). cbv zeta.
  destruct (net_forward p _) as [output|x]; [|exact Hn0].
  destruct (Accuracy_update _ _ acc) as [acc'|x]; [|exact Hn0].
  rewrite (IH _ _ _ p); [exact Hn0|exact Hp0].
Qed.

Lemma for_in_evaluate_nets prepare net src acc s p :
  k_nets s !! net = Some p ->
  k_nets (snd (for_in src false (evaluate_batch prepare net) acc s)) = k_nets s.
Proof.
  intros Hp. rewrite for_in_eq.
  assert (Hn0 : k_nets (map_source src iter_begin s) = k_nets s)
    by now destruct src.
  rewrite (iterate_evaluate_nets _ _ _ _ _ _ _ p); [exact Hn0|now rewrite Hn0].
Qed.

End EvaluateFrame.

Lemma mnist_evaluate_accuracy_nets `{Framework} prepare src net
    (s : kernel NDArrayIter) p :
  k_nets s !! net = Some p ->
  k_nets (snd (mnist_evaluate_accuracy prepare src net s)) = k_nets s.
Proof.
  intros Hp. unfold mnist_evaluate_accuracy.
  rewrite (bind_ok _ _ s tt (map_source src NDArrayIter_reset s) eq_refl).
  set (s0 := map_source src NDArrayIter_reset s).
  assert (Hn0 : k_nets s0 = k_nets s) by (subst s0; now destruct src).
  pose proof (for_in_evaluate_nets prepare net src Accuracy_new s0 p) as Hf.
  unfold bind, ret.
  destruct (for_in src false (evaluate_batch prepare net) Accuracy_new s0)
    as [[acc|x] s1]; cbn [fst snd] in *; (rewrite Hf; [exact Hn0|congruence]).
Qed.

Lemma vgg_evaluate_accuracy_nets `{Framework} src net (s : kernel DataLoader) p :
  k_nets s !! net = Some p ->
  k_nets (snd (VGG.evaluate_accuracy src net s)) = k_nets s.
Proof.
  intros Hp. unfold VGG.evaluate_accuracy.
  pose proof (for_in_evaluate_nets id net src Accuracy_new s p Hp) as Hf.
  unfold bind, ret.
  destruct (for_in src false (evaluate_batch id net) Accuracy_new s)
    as [[acc|x] s1]; cbn [fst snd] in *; exact Hf.
Qed.

Lemma mnist_evaluate_accuracy_effect `{Framework} prepare src net
    (s : kernel NDArrayIter) :
  k_recording s = false ->
  evaluation_only net
    (first_data prepare (iter_pending (NDArrayIter_reset (the_source src s))))
    s (snd (mnist_evaluate_accuracy prepare src net s)).
Proof.
  intros Hrec. unfold mnist_evaluate_accuracy.
  rewrite (bind_ok _ _ s tt (map_source src NDArrayIter_reset s) eq_refl).
  set (s0 := map_source src NDArrayIter_reset s).
  assert (Hsrc : the_source src s0 = NDArrayIter_reset (the_source src s))
    by (subst s0; now destruct src).
  assert (Hrec0 : k_recording s0 = false) by (subst s0; now destruct src).
  pose proof (for_in_evaluate_effect prepare net src Accuracy_new s0 Hrec0) as Hf.
  rewrite Hsrc in Hf.
  set (first := first_data prepare
                  (iter_pending (NDArrayIter_reset (the_source src s)))) in *.
  assert (Hrun : snd (bind (for_in src false (evaluate_batch prepare net) Accuracy_new)
                        (fun acc => ret (Accuracy_get acc)) s0) =
                 snd (for_in src false (evaluate_batch prepare net) Accuracy_new s0)).
  { unfold bind.
    now destruct (for_in src false (evaluate_batch prepare net) Accuracy_new s0)
      as [[acc|x] s1]. }
  rewrite Hrun.
  destruct Hf as (Hn & Hi & Hg & Hr & Hm & evs & Ht & Hev).
  unfold evaluation_only. split.
  { rewrite Hn. destruct first as [data|]; [|subst s0; now destruct src].
    apply with_parameters_congr; subst s0; now destruct src. }
  split; [rewrite Hi; subst s0; now destruct src|].
  split; [rewrite Hg; subst s0; now destruct src|].
  split; [exact Hr|].
  split; [rewrite Hm; subst s0; now destruct src|].
  exists evs. split; [|exact Hev]. rewrite Ht. subst s0. now destruct src.
Qed.

(** C9. A call to [evaluate_accuracy], made as the notebooks make it
    outside of any recording block, asks of the framework forward passes of
    the given network only, none of them recorded: no loss, no backward,
    no optimizer step.  It leaves the gradient buffers, the recording flag,
    the moving loss and the pending initialisations as they were, and it
    leaves the parameters of every network as they were but for one case:
    when the initialisation of the given network is still deferred, the
    forward pass on the first batch finishes it, so that after the call the
    network has the parameters that its initialiser makes of the data of
    that batch.  This holds for the function of each of the three
    notebooks, whatever the iterator yields and whether or not the call
    finishes; a network that has its parameters keeps them, and a network
    other than the given one is never written. *)
Theorem evaluate_accuracy_effect `{Framework} :
  (forall src net (s : kernel NDArrayIter),
     k_recording s = false ->
     evaluation_only net
       (first_data id (iter_pending (NDArrayIter_reset (the_source src s))))
       s (snd (CNN.evaluate_accuracy src net s))) /\
  (forall src net (s : kernel NDArrayIter),
     k_recording s = false ->
     evaluation_only net
       (first_data (map reshape784)
          (iter_pending (NDArrayIter_reset (the_source src s))))
       s (snd (Softmax.evaluate_accuracy src net s))) /\
  (forall src net (s : kernel DataLoader),
     k_recording s = false ->
     evaluation_only net
       (first_data id (iter_pending (the_source src s)))
       s (snd (VGG.evaluate_accuracy src net s))) /\
  (forall I net first (s s' : kernel I),
     evaluation_only net first s s' ->
     (forall p, k_nets s !! net = Some p -> k_nets s' = k_nets s) /\
     (forall other, other <> net -> k_nets s' !! other = k_nets s !! other) /\
     (forall data init,
        first = Some data ->
        k_nets s !! net = None -> k_init s !! net = Some init ->
        k_nets s' = <[net := init data]> (k_nets s)) /\
     (first = None -> k_nets s' = k_nets s)).
Proof.
  split; [|split; [|split]].
  - intros src net s Hrec. now apply mnist_evaluate_accuracy_effect.
  - intros src net s Hrec. now apply mnist_evaluate_accuracy_effect.
  - intros src net s Hrec. unfold VGG.evaluate_accuracy.
    pose proof (for_in_evaluate_effect id net src Accuracy_new s Hrec) as Hf.
    assert (Hrun : snd (bind (for_in src false (evaluate_batch id net) Accuracy_new)
                          (fun acc => ret (Accuracy_get acc)) s) =
                   snd (for_in src false (evaluate_batch id net) Accuracy_new s)).
    { unfold bind.
      now destruct (for_in src false (evaluate_batch id net) Accuracy_new s)
        as [[acc|x] s1]. }
    rewrite Hrun. exact Hf.
  - intros I net first s s' (Hn & _). repeat split.
    + intros p Hp. rewrite Hn. destruct first as [data|]; [|reflexivity].
      unfold with_parameters. now rewrite Hp.
    + intros other Hother. rewrite Hn. destruct first as [data|]; [|reflexivity].
      unfold with_parameters.
      destruct (k_nets s !! net); [reflexivity|].
      destruct (k_init s !! net); [|reflexivity].
      cbn. now rewrite lookup_insert_ne.
    + intros data init -> Hnone Hinit. rewrite Hn.
      unfold with_parameters. now rewrite Hnone, Hinit.
    + intros ->. exact Hn.
Qed.

Lemma evaluate_accuracy_effect_witness :
  let s := deferred_kernel (H:=Toy.framework) "net" (fun data => Z.of_nat (length data))
             Toy.nd_train Toy.nd_test in
  k_recording s = false /\
  evaluation_only (H:=Toy.framework) "net" (Some [4; -1]%Z) s
    (snd (Softmax.evaluate_accuracy test_data "net" s)).
Proof.
  intros s. split; [reflexivity|].
  apply (proj1 (proj2 (evaluate_accuracy_effect (H:=Toy.framework))) test_data "net" s).
  reflexivity.
Defined.

(** C9, as the specification words it, does not hold of every network: the network
    of the softmax cell is given its parameters by the first forward pass,
    and when that pass is the one of [evaluate_accuracy(test_data, net)],
    the call writes the parameters.  Before the call the parameters cannot
    be read; after it they can. *)
Theorem evaluate_accuracy_writes_deferred_parameters :
  let s := deferred_kernel (H:=Toy.framework) "net" (fun data => Z.of_nat (length data))
             Toy.nd_train Toy.nd_test in
  let run := Softmax.evaluate_accuracy test_data "net" s in
  k_recording s = false /\
  k_nets s !! "net" = None /\
  fst (initialised_parameters "net" s) =
    Raise (MXNetError "Parameter has not been initialized yet because initialization was deferred") /\
  fst run = Ok (ratio 1 2) /\
  k_nets (snd run) !! "net" = Some 2%Z /\
  fst (initialised_parameters "net" (snd run)) = Ok 2%Z /\
  k_nets (snd run) <> k_nets s.
Proof.
  intros s run.
  assert (Hn : k_nets (snd run) !! "net" = Some 2%Z) by (vm_compute; reflexivity).
  repeat (split; [vm_compute; reflexivity|]).
  intros E. rewrite E in Hn. discriminate Hn.
Qed.

(** ** What evaluate_accuracy returns *)

Section EvaluateValue.
Context `{Framework}.

Lemma count_hits_correct preds labels :
  count_hits preds labels = correct (zip preds labels).
Proof.
  unfold correct. revert labels.
  induction preds as [|p preds IH]; intros [|l labels]; cbn; try reflexivity.
  rewrite IH. now destruct (Nat.eqb p l).
Qed.

Lemma correct_app xs ys : correct (xs ++ ys) = correct xs + correct ys.
Proof. unfold correct. now rewrite List.filter_app, length_app. Qed.

Lemma Accuracy_update_ok preds labels acc :
  length preds = length labels ->
  Accuracy_update preds labels acc =
  Ok {| sum_metric := sum_metric acc + correct (zip preds labels);
        num_inst := num_inst acc + length (zip preds labels) |}.
Proof.
  intros Hlen. unfold Accuracy_update.
  rewrite Hlen, Nat.eqb_refl, count_hits_correct.
  rewrite length_zip_with. rewrite Hlen, Nat.min_id. now rewrite <- Hlen.
Qed.


Lemma iterate_evaluate_value {I} `{!DataIter I} prepare net src p pending outputs :
  answers p prepare pending outputs ->
  forall i acc (s : kernel I),
  k_nets s !! net = Some p ->
  fst (iterate src false i pending (evaluate_batch prepare net) acc s) =
  Ok {| sum_metric := sum_metric acc + correct (seen outputs pending);
        num_inst := num_inst acc + length (seen outputs pending) |}.
Proof.
  induction 1 as [|b output pending outputs [Hfw Hlen] _ IH]; intros i acc s Hp.
  - cbn. destruct acc; cbn. now rewrite !Nat.add_0_r.
  - rewrite iterate_cons.
    pose proof (enter_iteration_model_state src false i s) as Hm0.
    remember (enter_iteration src false i s) as s0 eqn:Es0. clear Es0.
    assert (Hp0 : k_nets s0 !! net = Some p)
      by (unfold model_state in Hm0; congruence).
    unfold bind. rewrite (evaluate_batch_initialised _ _ _ _ _ _ Hp0). cbv zeta.
    rewrite Hfw.
    rewrite Accuracy_update_ok by (unfold nd_argmax; now rewrite length_map).
    rewrite IH by exact Hp0.
    unfold seen. cbn [zip_with concat sum_metric num_inst].
    rewrite correct_app, length_app, !Nat.add_assoc. reflexivity.
Qed.

Lemma mnist_evaluate_accuracy_value prepare src net (s : kernel NDArrayIter)
    p outputs :
  let batches := nd_batches (the_source src s) in
  k_nets s !! net = Some p ->
  answers p prepare batches outputs ->
  fst (mnist_evaluate_accuracy prepare src net s) =
  Ok (fraction_correct (seen outputs batches)).
Proof.
  intros batches Hp Hans. unfold mnist_evaluate_accuracy.
  rewrite (bind_ok _ _ s tt (map_source src NDArrayIter_reset s) eq_refl).
  unfold bind at 1. rewrite for_in_eq.
  assert (Hpend : iter_pending (the_source src (map_source src NDArrayIter_reset s))
                  = batches) by now destruct src.
  rewrite Hpend.
  pose proof (iterate_evaluate_value prepare net src p batches outputs Hans 0
                Accuracy_new
                (map_source src iter_begin (map_source src NDArrayIter_reset s)))
    as Hrun.
  destruct (iterate src false 0 batches (evaluate_batch prepare net)
              Accuracy_new _) as [r s1].
  cbn [fst] in Hrun. rewrite Hrun by now destruct src.
  reflexivity.
Qed.

End EvaluateValue.



(** ** The moving loss is only displayed *)

Section MovingLossOnlyDisplayed.
Context `{Framework} {I : Type} `{!DataIter I}.
Implicit Type s : kernel I.

Ltac same :=
  unfold same_besides_moving_loss, besides_moving_loss in *;
  cbn in *;
  repeat match goal with
         | E : (_, _) = (_, _) |- _ => injection E as ?
         end;
  try congruence.

Lemma blind_ret {A} (a : A) : blind_to_moving_loss (I:=I) (ret a).
Proof. intros s1 s2 E. now split. Qed.

Lemma blind_raise {A} x : blind_to_moving_loss (I:=I) (@raise _ I A x).
Proof. intros s1 s2 E. now split. Qed.

Lemma blind_call {A} (r : outcome A) : blind_to_moving_loss (I:=I) (call r).
Proof. intros s1 s2 E. now split. Qed.

Lemma blind_modify g :
  (forall s1 s2, same_besides_moving_loss s1 s2 ->
                 same_besides_moving_loss (g s1) (g s2)) ->
  blind_to_moving_loss (I:=I) (modify g).
Proof. intros Hg s1 s2 E. split; [reflexivity|]. now apply Hg. Qed.

Lemma blind_bind {A B} (m : M I A) (f : A -> M I B) :
  blind_to_moving_loss m -> (forall a, blind_to_moving_loss (I:=I) (f a)) ->
  blind_to_moving_loss (I:=I) (bind m f).
Proof.
  intros Hm Hf s1 s2 E. unfold bind.
  destruct (Hm s1 s2 E) as [Hr Hs].
  destruct (m s1) as [[a1|x1] t1], (m s2) as [[a2|x2] t2]; cbn [fst snd] in *;
    try discriminate.
  - injection Hr as ->. now apply Hf.
  - injection Hr as ->. now split.
Qed.

Lemma blind_lookup {A} name (field : kernel I -> option A) :
  (forall s1 s2, same_besides_moving_loss s1 s2 -> field s1 = field s2) ->
  blind_to_moving_loss (I:=I) (lookup name field).
Proof.
  intros Hfield s1 s2 E. unfold lookup, bind, get.
  rewrite (Hfield s1 s2 E). now destruct (field s2).
Qed.

Lemma blind_update_source src (f : I -> I) :
  blind_to_moving_loss (I:=I) (update_source src f).
Proof. apply blind_modify. intros s1 s2 E. destruct src; same. Qed.

Lemma blind_forward net data : blind_to_moving_loss (I:=I) (forward net data).
Proof.
  intros s1 s2 E. rewrite !forward_run.
  assert (En : k_nets s1 = k_nets s2) by same.
  assert (Ei : k_init s1 = k_init s2) by same.
  assert (k_recording s1 = k_recording s2) as -> by same.
  destruct (with_parameters_congr net data s1 s2 En Ei) as [-> _].
  destruct (parameters_of net data s2); split; try reflexivity; try assumption.
  unfold with_parameters. rewrite En, Ei.
  destruct (k_nets s2 !! net); [same|].
  destruct (k_init s2 !! net); same.
Qed.

Lemma blind_softmax_cross_entropy output data label :
  blind_to_moving_loss (I:=I) (softmax_cross_entropy output data label).
Proof.
  intros s1 s2 E. rewrite !softmax_cross_entropy_run.
  assert (k_recording s1 = k_recording s2) as -> by same.
  destruct (loss_fn output label); split; try reflexivity; same.
Qed.

Lemma blind_with_autograd_record {A} (body : M I A) :
  blind_to_moving_loss body -> blind_to_moving_loss (I:=I) (with_autograd_record body).
Proof.
  intros Hb s1 s2 E. rewrite !with_autograd_record_run. cbn [fst snd].
  destruct (Hb (set_recording true s1) (set_recording true s2)) as [Hr Hs].
  { same. }
  split; [exact Hr|].
  assert (k_recording s1 = k_recording s2) as -> by same.
  same.
Qed.

Lemma blind_backward net loss : blind_to_moving_loss (I:=I) (backward net loss).
Proof.
  intros s1 s2 E. rewrite !backward_run.
  assert (k_nets s1 = k_nets s2) as -> by same.
  assert (Ex : not_initialised net s1 = not_initialised net s2)
    by (unfold not_initialised; now replace (k_init s1) with (k_init s2) by same).
  destruct (loss_tape loss) as [[data label]|]; [|split; [reflexivity|same]].
  destruct (k_nets s2 !! net); [|rewrite Ex; split; [reflexivity|same]].
  destruct (autograd_backward _ _ _); split; try reflexivity; same.
Qed.

Lemma blind_trainer_step net n : blind_to_moving_loss (I:=I) (trainer_step net n).
Proof.
  intros s1 s2 E. rewrite !trainer_step_run.
  assert (k_nets s1 = k_nets s2) as -> by same.
  assert (k_grad s1 = k_grad s2) as -> by same.
  assert (Ex : not_initialised net s1 = not_initialised net s2)
    by (unfold not_initialised; now replace (k_init s1) with (k_init s2) by same).
  destruct (k_nets s2 !! net); [|rewrite Ex; split; [reflexivity|same]].
  destruct (k_grad s2); [|split; [reflexivity|same]].
  destruct (trainer_update _ _ _); split; try reflexivity; same.
Qed.


Lemma blind_update_moving_loss curr_loss1 curr_loss2 s1 s2 :
  same_besides_moving_loss s1 s2 ->
  fst (update_moving_loss curr_loss1 s1) = fst (update_moving_loss curr_loss2 s2) /\
  same_besides_moving_loss (snd (update_moving_loss curr_loss1 s1))
                           (snd (update_moving_loss curr_loss2 s2)).
Proof.
  intros E. rewrite !update_moving_loss_run.
  assert (k_i s1 = k_i s2) as -> by same.
  assert (k_e s1 = k_e s2) as -> by same.
  assert (Hb : bound (k_moving_loss s1) = bound (k_moving_loss s2)) by same.
  destruct (k_i s2) as [i|]; [|now split].
  destruct (Nat.eqb i 0); [destruct (k_e s2) as [e|]; [destruct (Nat.eqb e 0)|]|];
    try (destruct (k_moving_loss s1), (k_moving_loss s2); try discriminate Hb);
    split; try reflexivity; try assumption; same.
Qed.

Lemma without_loss_eq e l train_accuracy test_accuracy :
  without_loss {| r_epoch := e; r_loss := l;
                  r_train_acc := train_accuracy;
                  r_test_acc := test_accuracy |}
  = (e, train_accuracy, test_accuracy).
Proof. reflexivity. Qed.

Lemma blind_print_report train_accuracy test_accuracy :
  blind_to_moving_loss (I:=I) (print_report train_accuracy test_accuracy).
Proof.
  intros s1 s2 E. unfold print_report, lookup, modify, bind, get, ret, raise.
  assert (k_e s1 = k_e s2) as -> by same.
  assert (Hb : bound (k_moving_loss s1) = bound (k_moving_loss s2)) by same.
  destruct (k_e s2) as [e|]; [|now split].
  destruct (k_moving_loss s1), (k_moving_loss s2); try discriminate Hb;
    split; try reflexivity; try assumption.
  same. rewrite !map_app. cbn [map]. rewrite !without_loss_eq. congruence.
Qed.

Lemma blind_iterate {L} src enumerate (body : DataBatch -> L -> M I L) pending :
  (forall batch acc, blind_to_moving_loss (I:=I) (body batch acc)) ->
  forall i acc, blind_to_moving_loss (I:=I) (iterate src enumerate i pending body acc).
Proof.
  intros Hbody. induction pending as [|batch rest IH]; intros i acc.
  - apply blind_ret.
  - cbn [iterate].
    apply blind_bind; [apply blind_update_source|intros _].
    apply blind_bind.
    { destruct enumerate; [|apply blind_ret].
      apply blind_modify. intros s1 s2 E. same. }
    intros _. apply blind_bind; [apply Hbody|]. intros acc'. apply IH.
Qed.

Lemma blind_for_in {L} src enumerate (body : DataBatch -> L -> M I L) acc :
  (forall batch acc, blind_to_moving_loss (I:=I) (body batch acc)) ->
  blind_to_moving_loss (I:=I) (for_in src enumerate body acc).
Proof.
  intros Hbody s1 s2 E. rewrite !for_in_eq.
  assert (the_source src s1 = the_source src s2) as -> by (destruct src; same).
  apply blind_iterate; [exact Hbody|].
  destruct src; same.
Qed.

Lemma blind_for_range (body : nat -> M I unit) n :
  (forall e, blind_to_moving_loss (I:=I) (body e)) ->
  forall lo, blind_to_moving_loss (I:=I) (for_range lo n body).
Proof.
  intros Hbody. induction n as [|n IH]; intros lo.
  - apply blind_ret.
  - cbn [for_range].
    apply blind_bind; [apply blind_modify; intros s1 s2 E; same|intros _].
    apply blind_bind; [apply Hbody|intros _]. apply IH.
Qed.

Lemma blind_lookup_net name : blind_to_moving_loss (I:=I) (lookup_net name).
Proof.
  unfold lookup_net. apply blind_bind; [|intros _; apply blind_ret].
  apply blind_lookup. intros s1 s2 E. unfold network.
  assert (k_nets s1 = k_nets s2) as -> by same.
  assert (k_init s1 = k_init s2) as -> by same. reflexivity.
Qed.

Lemma blind_evaluate_batch prepare net batch acc :
  blind_to_moving_loss (I:=I) (evaluate_batch prepare net batch acc).
Proof.
  unfold evaluate_batch. apply blind_bind; [apply blind_forward|].
  intros output. apply blind_call.
Qed.

Lemma blind_train_batch prepare net batch u :
  blind_to_moving_loss (I:=I) (train_batch prepare net batch u).
Proof.
  unfold train_batch.
  apply blind_bind.
  { apply blind_with_autograd_record.
    apply blind_bind; [apply blind_forward|].
    intros output. apply blind_softmax_cross_entropy. }
  intros loss. apply blind_bind; [apply blind_backward|intros _].
  apply blind_bind; [apply blind_trainer_step|intros _].
  intros s1 s2 E. now apply blind_update_moving_loss.
Qed.

(** *** The batch loop without the moving-loss assignment *)

Lemma train_batch_without_moving_loss_run prepare net batch u s :
  train_batch_without_moving_loss prepare net batch u s =
  let data := prepare (b_data batch) in
  let label := b_label batch in
  match parameters_of net data s with
  | None => (Raise (NameError net), s)
  | Some p =>
      let s1 := log (EvForward net true (length data))
                    (with_parameters net data s) in
      match net_forward p data with
      | Raise x => (Raise x, s1)
      | Ok output =>
          let s2 := log (EvLoss true) s1 in
          match loss_fn output label with
          | Raise x => (Raise x, s2)
          | Ok v =>
              let s3 := log EvBackward s2 in
              match autograd_backward p data label with
              | Raise x => (Raise x, s3)
              | Ok g =>
                  let s4 := log (EvStep (length data)) (set_grad (Some g) s3) in
                  match trainer_update p g (length data) with
                  | Raise x => (Raise x, s4)
                  | Ok p' => (Ok tt, set_nets (<[net := p']> (k_nets s4)) s4)
                  end
              end
          end
      end
  end.
Proof.
  cbv zeta. unfold train_batch_without_moving_loss. unfold bind at 1.
  rewrite record_block_run.
  destruct (parameters_of net _ s) as [p|] eqn:Hp; [|reflexivity].
  pose proof (with_parameters_nets _ _ _ _ Hp) as Hn.
  cbv zeta. destruct (net_forward p _) as [output|x]; [|reflexivity].
  destruct (loss_fn output _) as [v|x]; [|reflexivity].
  unfold bind at 1. rewrite backward_run. cbn [loss_tape].
  cbn [k_nets log set_trace]. rewrite Hn.
  destruct (autograd_backward p _ _) as [g|x]; [|reflexivity].
  rewrite trainer_step_run.
  cbn [k_nets k_grad log set_trace set_grad]. rewrite Hn.
  now destruct (trainer_update p g _) as [p'|x].
Qed.

Lemma update_moving_loss_writes curr_loss s :
  besides_loss_and_trace (snd (update_moving_loss curr_loss s))
  = besides_loss_and_trace s.
Proof.
  rewrite update_moving_loss_next.
  now destruct (next_moving_loss s curr_loss).
Qed.

(** Where [i] and [e] are bound, and [moving_loss] too unless this is the
    first batch of the first epoch, the assignment goes through. *)
Lemma next_moving_loss_ok s i e curr_loss :
  k_i s = Some i -> k_e s = Some e ->
  i = 0 /\ e = 0 \/ bound (k_moving_loss s) = true ->
  exists m, next_moving_loss s curr_loss = Ok m.
Proof.
  intros Hi He Hb. unfold next_moving_loss. rewrite Hi, He.
  destruct Hb as [[-> ->]|Hb]; [now eexists|].
  destruct (k_moving_loss s) as [m|]; [|discriminate].
  destruct (Nat.eqb i 0); [destruct (Nat.eqb e 0)|]; now eexists.
Qed.

(** The body and the body without the assignment, from the same state. *)
Lemma train_batch_erasure prepare net batch s :
  let run := train_batch prepare net batch tt s in
  let run' := train_batch_without_moving_loss prepare net batch tt s in
  besides_loss_and_trace (snd run) = besides_loss_and_trace (snd run') /\
  (forall x, fst run' = Raise x -> fst run = Raise x) /\
  (forall i e,
     k_i s = Some i -> k_e s = Some e ->
     i = 0 /\ e = 0 \/ bound (k_moving_loss s) = true ->
     fst run = fst run' /\
     (fst run = Ok tt -> bound (k_moving_loss (snd run)) = true)) /\
  (forall s', k_i s = None -> run' = (Ok tt, s') ->
              run = (Raise (NameError "i"), s')).
Proof.
  cbv zeta. rewrite train_batch_run, train_batch_without_moving_loss_run.
  cbv zeta. set (data := prepare (b_data batch)).
  destruct (parameters_of net data s) as [p|].
  2:{ repeat split; try easy. }
  destruct (net_forward p data) as [output|x].
  2:{ repeat split; try easy. }
  destruct (loss_fn output _) as [v|x].
  2:{ repeat split; try easy. }
  destruct (autograd_backward p data _) as [g|x].
  2:{ repeat split; try easy. }
  destruct (trainer_update p g _) as [p'|x].
  2:{ repeat split; try easy. }
  rewrite update_moving_loss_next, next_moving_loss_in_batch.
  split; [|split; [|split]].
  - now destruct (next_moving_loss s _).
  - discriminate.
  - intros i e Hi He Hb.
    destruct (next_moving_loss_ok s i e (nd_mean v) Hi He Hb) as [m ->].
    split; reflexivity.
  - intros s' Hi [= <-]. unfold next_moving_loss. now rewrite Hi.
Qed.

(** The body without the assignment reads neither [moving_loss] nor the
    trace. *)
Lemma train_batch_without_moving_loss_blind prepare net batch s s' :
  besides_loss_and_trace s = besides_loss_and_trace s' ->
  let run := train_batch_without_moving_loss prepare net batch tt s in
  let run' := train_batch_without_moving_loss prepare net batch tt s' in
  fst run = fst run' /\
  besides_loss_and_trace (snd run) = besides_loss_and_trace (snd run').
Proof.
  intros E. cbv zeta. rewrite !train_batch_without_moving_loss_run. cbv zeta.
  set (data := prepare (b_data batch)).
  assert (En : k_nets s = k_nets s')
    by (unfold besides_loss_and_trace in E; congruence).
  assert (Ei : k_init s = k_init s')
    by (unfold besides_loss_and_trace in E; congruence).
  destruct (with_parameters_congr net data s s' En Ei) as [-> Hw].
  assert (Et : besides_loss_and_trace (with_parameters net data s) =
               besides_loss_and_trace (with_parameters net data s')).
  { unfold with_parameters. rewrite En, Ei.
    destruct (k_nets s' !! net); [exact E|].
    destruct (k_init s' !! net); [|exact E].
    unfold besides_loss_and_trace in *. cbn. congruence. }
  revert Et. clear Hw.
  generalize (with_parameters net data s) (with_parameters net data s').
  intros t t' Et.
  assert (Hlog : forall ev (u u' : kernel I),
             besides_loss_and_trace u = besides_loss_and_trace u' ->
             besides_loss_and_trace (log ev u) = besides_loss_and_trace (log ev u')).
  { intros ev u u' Ex. unfold besides_loss_and_trace in *. cbn. congruence. }
  assert (Hgrad : forall g (u u' : kernel I),
             besides_loss_and_trace u = besides_loss_and_trace u' ->
             besides_loss_and_trace (set_grad g u) =
             besides_loss_and_trace (set_grad g u')).
  { intros g u u' Ex. unfold besides_loss_and_trace in *. cbn. congruence. }
  assert (Hnets : forall p' (u u' : kernel I),
             besides_loss_and_trace u = besides_loss_and_trace u' ->
             besides_loss_and_trace (set_nets (<[net := p']> (k_nets u)) u) =
             besides_loss_and_trace (set_nets (<[net := p']> (k_nets u')) u')).
  { intros p' u u' Ex. unfold besides_loss_and_trace in *. cbn. congruence. }
  destruct (parameters_of net data s') as [p|]; [|now split].
  destruct (net_forward p data) as [output|x]; [|split; [reflexivity|now apply Hlog]].
  destruct (loss_fn output _) as [v|x];
    [|split; [reflexivity|now apply Hlog, Hlog]].
  destruct (autograd_backward p data _) as [g|x];
    [|split; [reflexivity|now apply Hlog, Hlog, Hlog]].
  destruct (trainer_update p g _) as [p'|x].
  - split; [reflexivity|]. apply Hnets. now apply Hlog, Hgrad, Hlog, Hlog, Hlog.
  - split; [reflexivity|]. now apply Hlog, Hgrad, Hlog, Hlog, Hlog.
Qed.

Lemma train_batch_keeps_loop_variables prepare net batch s :
  k_i (snd (train_batch prepare net batch tt s)) = k_i s /\
  k_e (snd (train_batch prepare net batch tt s)) = k_e s.
Proof.
  rewrite train_batch_run. cbv zeta.
  set (data := prepare (b_data batch)).
  assert (Hi : k_i (with_parameters net data s) = k_i s)
    by now apply with_parameters_frame.
  assert (He : k_e (with_parameters net data s) = k_e s)
    by now apply with_parameters_frame.
  destruct (parameters_of net data s) as [p|]; [|now split].
  destruct (net_forward p data) as [output|x]; [|now split].
  destruct (loss_fn output _) as [v|x]; [|now split].
  destruct (autograd_backward p data _) as [g|x]; [|now split].
  destruct (trainer_update p g _) as [p'|x]; [|now split].
  rewrite update_moving_loss_next.
  destruct (next_moving_loss _ _) as [m|x]; now split.
Qed.

(** A batch loop that binds [i], in an epoch [e]: with and without the
    assignment, the loop has the same outcome and leaves the same state,
    [moving_loss] and the trace apart. *)
Lemma iterate_train_erasure prepare net src pending e :
  forall i s s',
  besides_loss_and_trace s = besides_loss_and_trace s' ->
  k_e s = Some e ->
  i = 0 /\ e = 0 \/ bound (k_moving_loss s) = true ->
  let run := iterate src true i pending (train_batch prepare net) tt s in
  let run' := iterate src true i pending
                (train_batch_without_moving_loss prepare net) tt s' in
  fst run = fst run' /\
  besides_loss_and_trace (snd run) = besides_loss_and_trace (snd run').
Proof.
  induction pending as [|batch rest IH]; intros i s s' E He Hb; cbv zeta.
  - now split.
  - rewrite !iterate_cons.
    set (t := enter_iteration src true i s).
    set (t' := enter_iteration src true i s').
    assert (Et : besides_loss_and_trace t = besides_loss_and_trace t').
    { subst t t'. unfold enter_iteration, besides_loss_and_trace in *.
      destruct src; cbn; congruence. }
    assert (Hit : k_i t = Some i) by (subst t; unfold enter_iteration; now destruct src).
    assert (Het : k_e t = Some e) by (subst t; unfold enter_iteration; now destruct src).
    assert (Hbt : i = 0 /\ e = 0 \/ bound (k_moving_loss t) = true).
    { destruct Hb as [Hb|Hb]; [now left|right].
      subst t. unfold enter_iteration. now destruct src. }
    destruct (train_batch_erasure prepare net batch t) as (E1 & _ & Hsame & _).
    destruct (Hsame i e Hit Het Hbt) as [Hfst Hbound].
    destruct (train_batch_without_moving_loss_blind prepare net batch t t' Et)
      as [Hfst' E2].
    destruct (train_batch_keeps_loop_variables prepare net batch t) as [_ He1].
    unfold bind.
    destruct (train_batch prepare net batch tt t) as [[[]|x] t1];
      destruct (train_batch_without_moving_loss prepare net batch tt t)
        as [[[]|y] u1];
      destruct (train_batch_without_moving_loss prepare net batch tt t')
        as [[[]|z] t1'];
      cbn [fst snd] in *; try discriminate.
    + apply IH.
      * congruence.
      * congruence.
      * right. now apply Hbound.
    + split; [congruence|congruence].
Qed.

End MovingLossOnlyDisplayed.


Lemma blind_mnist_evaluate_accuracy `{Framework} prepare src net :
  blind_to_moving_loss (mnist_evaluate_accuracy prepare src net).
Proof.
  unfold mnist_evaluate_accuracy.
  apply blind_bind; [apply blind_update_source|intros _].
  apply blind_bind; [|intros acc; apply blind_ret].
  apply blind_for_in. intros batch acc. apply blind_evaluate_batch.
Qed.

Lemma blind_mnist_epoch `{Framework} prepare e :
  blind_to_moving_loss (mnist_epoch prepare e).
Proof.
  unfold mnist_epoch.
  apply blind_bind; [apply blind_update_source|intros _].
  apply blind_bind; [apply blind_for_in; intros; apply blind_train_batch|intros _].
  apply blind_bind.
  { apply blind_bind; [apply blind_lookup_net|].
    intros net. apply blind_mnist_evaluate_accuracy. }
  intros test_accuracy. apply blind_bind.
  { apply blind_bind; [apply blind_lookup_net|].
    intros net. apply blind_mnist_evaluate_accuracy. }
  intros train_accuracy. apply blind_print_report.
Qed.

Lemma blind_vgg_evaluate_accuracy `{Framework} src net :
  blind_to_moving_loss (VGG.evaluate_accuracy src net).
Proof.
  unfold VGG.evaluate_accuracy.
  apply blind_bind; [|intros acc; apply blind_ret].
  apply blind_for_in. intros batch acc. apply blind_evaluate_batch.
Qed.

Lemma blind_vgg_epoch `{Framework} e : blind_to_moving_loss (VGG.epoch e).
Proof.
  unfold VGG.epoch.
  apply blind_bind; [apply blind_for_in; intros; apply blind_train_batch|intros _].
  apply blind_bind.
  { apply blind_bind; [apply blind_lookup_net|].
    intros net. apply blind_vgg_evaluate_accuracy. }
  intros test_accuracy. apply blind_bind.
  { apply blind_bind; [apply blind_lookup_net|].
    intros net. apply blind_vgg_evaluate_accuracy. }
  intros train_accuracy. apply blind_print_report.
Qed.



(** ** Exceptions leave the loops as they were raised *)

Section Propagation.
Context `{Framework} {I : Type} `{!DataIter I}.
Implicit Type s : kernel I.

Lemma iterate_app {L} src enumerate (body : DataBatch -> L -> M I L) done rest :
  forall i acc s,
  iterate src enumerate i (done ++ rest) body acc s =
  bind (iterate src enumerate i done body acc)
       (fun acc' => iterate src enumerate (i + length done) rest body acc') s.
Proof.
  induction done as [|batch done IH]; intros i acc s.
  - cbn. now rewrite Nat.add_0_r.
  - cbn [app]. unfold bind at 1. rewrite !iterate_cons. unfold bind at 1 2.
    destruct (body batch acc _) as [[acc'|x] s']; [|reflexivity].
    rewrite IH. cbn [length]. now rewrite Nat.add_succ_r.
Qed.

(** A loop over a data source whose body raises on some batch, after the
    batches before it went through: the loop raises the same exception and
    leaves the state the body left. *)
Lemma iterate_stops {L} src enumerate (body : DataBatch -> L -> M I L)
    done batch rest i acc s acc1 s1 x s2 :
  iterate src enumerate i done body acc s = (Ok acc1, s1) ->
  body batch acc1 (enter_iteration src enumerate (i + length done) s1)
    = (Raise x, s2) ->
  iterate src enumerate i (done ++ batch :: rest) body acc s = (Raise x, s2).
Proof.
  intros Hdone Hbody. rewrite iterate_app, (bind_ok _ _ _ _ _ Hdone).
  rewrite iterate_cons. now apply bind_raise.
Qed.

Lemma for_range_app (body : nat -> M I unit) k n : forall lo s,
  for_range lo (k + n) body s =
  bind (for_range lo k body) (fun _ => for_range (lo + k) n body) s.
Proof.
  induction k as [|k IH]; intros lo s.
  - cbn. now rewrite Nat.add_0_r.
  - cbn [Nat.add]. unfold bind at 1. rewrite !for_range_S. unfold bind at 1 2.
    destruct (body lo _) as [[[]|x] s']; [|reflexivity].
    rewrite IH. now rewrite Nat.add_succ_r.
Qed.

(** The same for [for e in range(n)]. *)
Lemma for_range_stops (body : nat -> M I unit) k n s s1 x s2 :
  k < n ->
  for_range 0 k body s = (Ok tt, s1) ->
  body k (set_e (Some k) s1) = (Raise x, s2) ->
  for_range 0 n body s = (Raise x, s2).
Proof.
  intros Hk Hdone Hbody.
  replace n with (k + S (n - S k)) by lia.
  rewrite for_range_app, (bind_ok _ _ _ _ _ Hdone).
  cbn [Nat.add]. rewrite for_range_S. now apply bind_raise.
Qed.

End Propagation.

Section PropagationInCells.
Context `{Framework}.

Lemma mnist_epoch_batch_raises prepare e (s : kernel NDArrayIter)
    done batch rest sj x s2 :
  nd_batches (k_train_data s) = done ++ batch :: rest ->
  iterate train_data true 0 done (train_batch prepare "net") tt
    (map_source train_data iter_begin
       (map_source train_data NDArrayIter_reset s)) = (Ok tt, sj) ->
  train_batch prepare "net" batch tt
    (enter_iteration train_data true (length done) sj) = (Raise x, s2) ->
  mnist_epoch prepare e s = (Raise x, s2).
Proof.
  intros Hpending Hdone Hbody. unfold mnist_epoch.
  rewrite (bind_ok _ _ s tt (map_source train_data NDArrayIter_reset s) eq_refl).
  apply bind_raise. rewrite for_in_eq.
  change (iter_pending (the_source train_data
            (map_source train_data NDArrayIter_reset s)))
    with (nd_batches (k_train_data s)).
  rewrite Hpending. now apply (iterate_stops _ _ _ done batch rest 0 tt _ tt sj).
Qed.

Lemma vgg_epoch_batch_raises e (s : kernel DataLoader) done batch rest sj x s2 :
  iter_pending (k_train_data s) = done ++ batch :: rest ->
  iterate train_data false 0 done (train_batch id "vgg_net") tt
    (map_source train_data iter_begin s) = (Ok tt, sj) ->
  train_batch id "vgg_net" batch tt
    (enter_iteration train_data false (length done) sj) = (Raise x, s2) ->
  VGG.epoch e s = (Raise x, s2).
Proof.
  intros Hpending Hdone Hbody. unfold VGG.epoch.
  apply bind_raise. rewrite for_in_eq. cbn [the_source].
  rewrite Hpending. now apply (iterate_stops _ _ _ done batch rest 0 tt _ tt sj).
Qed.

Lemma mnist_evaluate_accuracy_batch_raises prepare src net
    (s : kernel NDArrayIter) done batch rest acc sj x s2 :
  nd_batches (the_source src s) = done ++ batch :: rest ->
  iterate src false 0 done (evaluate_batch prepare net) Accuracy_new
    (map_source src iter_begin (map_source src NDArrayIter_reset s))
    = (Ok acc, sj) ->
  evaluate_batch prepare net batch acc
    (enter_iteration src false (length done) sj) = (Raise x, s2) ->
  mnist_evaluate_accuracy prepare src net s = (Raise x, s2).
Proof.
  intros Hpending Hdone Hbody. unfold mnist_evaluate_accuracy.
  rewrite (bind_ok _ _ s tt (map_source src NDArrayIter_reset s) eq_refl).
  apply bind_raise. rewrite for_in_eq.
  replace (iter_pending (the_source src (map_source src NDArrayIter_reset s)))
    with (nd_batches (the_source src s)) by now destruct src.
  rewrite Hpending.
  now apply (iterate_stops _ _ _ done batch rest 0 Accuracy_new _ acc sj).
Qed.

Lemma vgg_evaluate_accuracy_batch_raises src net (s : kernel DataLoader)
    done batch rest acc sj x s2 :
  iter_pending (the_source src s) = done ++ batch :: rest ->
  iterate src false 0 done (evaluate_batch id net) Accuracy_new
    (map_source src iter_begin s) = (Ok acc, sj) ->
  evaluate_batch id net batch acc
    (enter_iteration src false (length done) sj) = (Raise x, s2) ->
  VGG.evaluate_accuracy src net s = (Raise x, s2).
Proof.
  intros Hpending Hdone Hbody. unfold VGG.evaluate_accuracy.
  apply bind_raise. rewrite for_in_eq, Hpending.
  now apply (iterate_stops _ _ _ done batch rest 0 Accuracy_new _ acc sj).
Qed.

Lemma lookup_net_bound {I} name (s : kernel I) p :
  k_nets s !! name = Some p -> lookup_net name s = (Ok name, s).
Proof.
  intros Hp. unfold lookup_net, lookup, bind, get, ret, network. now rewrite Hp.
Qed.

Lemma mnist_epoch_test_accuracy_raises prepare e (s : kernel NDArrayIter)
    st p x s2 :
  for_in train_data true (train_batch prepare "net") tt
    (map_source train_data NDArrayIter_reset s) = (Ok tt, st) ->
  k_nets st !! "net" = Some p ->
  mnist_evaluate_accuracy prepare test_data "net" st = (Raise x, s2) ->
  mnist_epoch prepare e s = (Raise x, s2).
Proof.
  intros Htrain Hnet Heval. unfold mnist_epoch.
  rewrite (bind_ok _ _ s tt (map_source train_data NDArrayIter_reset s) eq_refl).
  rewrite (bind_ok _ _ _ _ _ Htrain).
  apply bind_raise. rewrite (bind_ok _ _ _ _ _ (lookup_net_bound "net" st p Hnet)).
  exact Heval.
Qed.

Lemma mnist_epoch_train_accuracy_raises prepare e (s : kernel NDArrayIter)
    st test_accuracy st' p x s2 :
  for_in train_data true (train_batch prepare "net") tt
    (map_source train_data NDArrayIter_reset s) = (Ok tt, st) ->
  k_nets st !! "net" = Some p ->
  mnist_evaluate_accuracy prepare test_data "net" st = (Ok test_accuracy, st') ->
  k_nets st' !! "net" = Some p ->
  mnist_evaluate_accuracy prepare train_data "net" st' = (Raise x, s2) ->
  mnist_epoch prepare e s = (Raise x, s2).
Proof.
  intros Htrain Hnet Htest Hnet' Heval. unfold mnist_epoch.
  rewrite (bind_ok _ _ s tt (map_source train_data NDArrayIter_reset s) eq_refl).
  rewrite (bind_ok _ _ _ _ _ Htrain).
  rewrite (bind_ok _ _ st test_accuracy st').
  2:{ now rewrite (bind_ok _ _ _ _ _ (lookup_net_bound "net" st p Hnet)). }
  apply bind_raise.
  now rewrite (bind_ok _ _ _ _ _ (lookup_net_bound "net" st' p Hnet')).
Qed.

End PropagationInCells.

(** A statement that raises inside the body of the batch loop: the body
    raises the same exception, and leaves the state in which the statement
    was reached (with the call logged, and recording switched back). *)
Lemma train_batch_call_raises `{Framework} {I} `{!DataIter I}
    prepare net batch (s : kernel I) p x :
  let data := prepare (b_data batch) in
  let label := b_label batch in
  let s1 := log (EvForward net true (length data)) (with_parameters net data s) in
  let s2 := log (EvLoss true) s1 in
  let s3 := log EvBackward s2 in
  parameters_of net data s = Some p ->
  (net_forward p data = Raise x ->
   train_batch prepare net batch tt s = (Raise x, s1)) /\
  (forall output,
     net_forward p data = Ok output ->
     loss_fn output label = Raise x ->
     train_batch prepare net batch tt s = (Raise x, s2)) /\
  (forall output v,
     net_forward p data = Ok output ->
     loss_fn output label = Ok v ->
     autograd_backward p data label = Raise x ->
     train_batch prepare net batch tt s = (Raise x, s3)) /\
  (forall output v g,
     net_forward p data = Ok output ->
     loss_fn output label = Ok v ->
     autograd_backward p data label = Ok g ->
     trainer_update p g (length data) = Raise x ->
     train_batch prepare net batch tt s =
     (Raise x, log (EvStep (length data)) (set_grad (Some g) s3))) /\
  (forall output v g p',
     net_forward p data = Ok output ->
     loss_fn output label = Ok v ->
     autograd_backward p data label = Ok g ->
     trainer_update p g (length data) = Ok p' ->
     next_moving_loss s (nd_mean v) = Raise x ->
     train_batch prepare net batch tt s =
     (Raise x, set_nets (<[net := p']> (k_nets s1))
                 (log (EvStep (length data)) (set_grad (Some g) s3)))).
Proof.
  intros data label s1 s2 s3 Hp.
  split; [|split; [|split; [|split]]].
  - intros Hf. rewrite train_batch_run. cbv zeta. fold data.
    now rewrite Hp, Hf.
  - intros output Hf Hl. rewrite train_batch_run. cbv zeta. fold data label.
    now rewrite Hp, Hf, Hl.
  - intros output v Hf Hl Hb. rewrite train_batch_run. cbv zeta. fold data label.
    now rewrite Hp, Hf, Hl, Hb.
  - intros output v g Hf Hl Hb Hu. rewrite train_batch_run. cbv zeta.
    fold data label. now rewrite Hp, Hf, Hl, Hb, Hu.
  - intros output v g p' Hf Hl Hb Hu Hm. rewrite train_batch_run. cbv zeta.
    fold data label. rewrite Hp, Hf, Hl, Hb, Hu, update_moving_loss_next.
    pose proof (next_moving_loss_in_batch net data
                  g (<[net := p']> (k_nets s1)) s (nd_mean v)) as Hn.
    change (k_nets (log (EvStep (length data)) (set_grad (Some g) (log EvBackward
              (log (EvLoss true) (log (EvForward net true (length data))
                 (with_parameters net data s)))))))
      with (k_nets s1).
    fold s1 s2 s3 in Hn |- *. now rewrite Hn, Hm.
Qed.

(** The same for the body of the loop of [evaluate_accuracy]. *)
Lemma evaluate_batch_call_raises `{Framework} {I} `{!DataIter I}
    prepare net batch acc (s : kernel I) x :
  let data := prepare (b_data batch) in
  let s1 := log (EvForward net (k_recording s) (length data))
                (with_parameters net data s) in
  (parameters_of net data s = None ->
   evaluate_batch prepare net batch acc s = (Raise (NameError net), s)) /\
  (forall p,
     parameters_of net data s = Some p ->
     net_forward p data = Raise x ->
     evaluate_batch prepare net batch acc s = (Raise x, s1)) /\
  (forall p output,
     parameters_of net data s = Some p ->
     net_forward p data = Ok output ->
     Accuracy_update (nd_argmax output) (b_label batch) acc = Raise x ->
     evaluate_batch prepare net batch acc s = (Raise x, s1)).
Proof.
  intros data s1. split; [|split].
  - intros Hp. rewrite evaluate_batch_run. cbv zeta. fold data. now rewrite Hp.
  - intros p Hp Hf. rewrite evaluate_batch_run. cbv zeta. fold data.
    now rewrite Hp, Hf.
  - intros p output Hp Hf Ha. rewrite evaluate_batch_run. cbv zeta. fold data.
    now rewrite Hp, Hf, Ha.
Qed.

(** C8. No statement of the notebooks handles an exception.  An exception
    raised in any iteration of a loop of a training cell or of
    [evaluate_accuracy] leaves that loop, the function and the cell as it
    was raised, and the state is the one the raising statement left:
    - out of the epoch loop of each of the three training cells, when an
      epoch raises after the epochs before it went through;
    - out of an epoch, when the body of its batch loop raises on some
      batch after the batches before it went through;
    - out of [evaluate_accuracy], when the body of its loop raises on some
      batch, and out of the epoch that called it;
    - out of the body of the batch loop, whichever of its statements
      raises: the name of the network when it is not bound, the forward
      pass, the loss, [backward], the optimizer step, or the moving-loss
      assignment when it reads a name that is not bound.  The exception of
      the body is the one of that statement, and the state is the one in
      which the statement was reached, with what the statements before it
      wrote: the gradient once [backward] is through, the new parameters
      once the step is taken.  All that [with autograd.record()] does on
      the way out is to switch recording back to what it was;
    - out of the body of the loop of [evaluate_accuracy], whichever of its
      statements raises: the name of the network, the forward pass, or the
      update of the metric. *)
Theorem exceptions_propagate_unchanged `{Framework} :
  (forall k (s s1 s2 : kernel NDArrayIter) x,
     k < CNN.epochs ->
     for_range 0 k (mnist_epoch id) s = (Ok tt, s1) ->
     mnist_epoch id k (set_e (Some k) s1) = (Raise x, s2) ->
     CNN.training_loop s = (Raise x, s2)) /\
  (forall k (s s1 s2 : kernel NDArrayIter) x,
     k < Softmax.epochs ->
     for_range 0 k (mnist_epoch (map reshape784))
       (set_moving_loss (Some (float_lit 0)) s) = (Ok tt, s1) ->
     mnist_epoch (map reshape784) k (set_e (Some k) s1) = (Raise x, s2) ->
     Softmax.training_loop s = (Raise x, s2)) /\
  (forall k (s s1 s2 : kernel DataLoader) x,
     k < VGG.epochs ->
     for_range 0 k VGG.epoch s = (Ok tt, s1) ->
     VGG.epoch k (set_e (Some k) s1) = (Raise x, s2) ->
     VGG.training_loop s = (Raise x, s2)) /\
  (forall prepare e (s sj s2 : kernel NDArrayIter) done batch rest x,
     nd_batches (k_train_data s) = done ++ batch :: rest ->
     iterate train_data true 0 done (train_batch prepare "net") tt
       (map_source train_data iter_begin
          (map_source train_data NDArrayIter_reset s)) = (Ok tt, sj) ->
     train_batch prepare "net" batch tt
       (enter_iteration train_data true (length done) sj) = (Raise x, s2) ->
     mnist_epoch prepare e s = (Raise x, s2)) /\
  (forall e (s sj s2 : kernel DataLoader) done batch rest x,
     iter_pending (k_train_data s) = done ++ batch :: rest ->
     iterate train_data false 0 done (train_batch id "vgg_net") tt
       (map_source train_data iter_begin s) = (Ok tt, sj) ->
     train_batch id "vgg_net" batch tt
       (enter_iteration train_data false (length done) sj) = (Raise x, s2) ->
     VGG.epoch e s = (Raise x, s2)) /\
  (forall prepare src net (s sj s2 : kernel NDArrayIter) done batch rest acc x,
     nd_batches (the_source src s) = done ++ batch :: rest ->
     iterate src false 0 done (evaluate_batch prepare net) Accuracy_new
       (map_source src iter_begin (map_source src NDArrayIter_reset s))
       = (Ok acc, sj) ->
     evaluate_batch prepare net batch acc
       (enter_iteration src false (length done) sj) = (Raise x, s2) ->
     mnist_evaluate_accuracy prepare src net s = (Raise x, s2)) /\
  (forall src net (s sj s2 : kernel DataLoader) done batch rest acc x,
     iter_pending (the_source src s) = done ++ batch :: rest ->
     iterate src false 0 done (evaluate_batch id net) Accuracy_new
       (map_source src iter_begin s) = (Ok acc, sj) ->
     evaluate_batch id net batch acc
       (enter_iteration src false (length done) sj) = (Raise x, s2) ->
     VGG.evaluate_accuracy src net s = (Raise x, s2)) /\
  (forall prepare e (s st s2 : kernel NDArrayIter) p x,
     for_in train_data true (train_batch prepare "net") tt
       (map_source train_data NDArrayIter_reset s) = (Ok tt, st) ->
     k_nets st !! "net" = Some p ->
     mnist_evaluate_accuracy prepare test_data "net" st = (Raise x, s2) ->
     mnist_epoch prepare e s = (Raise x, s2)) /\
  (forall prepare e (s st st' s2 : kernel NDArrayIter) test_accuracy p x,
     for_in train_data true (train_batch prepare "net") tt
       (map_source train_data NDArrayIter_reset s) = (Ok tt, st) ->
     k_nets st !! "net" = Some p ->
     mnist_evaluate_accuracy prepare test_data "net" st
       = (Ok test_accuracy, st') ->
     k_nets st' !! "net" = Some p ->
     mnist_evaluate_accuracy prepare train_data "net" st' = (Raise x, s2) ->
     mnist_epoch prepare e s = (Raise x, s2)) /\
  (forall I (DI : DataIter I) prepare net batch (s : kernel I),
     parameters_of net (prepare (b_data batch)) s = None ->
     train_batch prepare net batch tt s = (Raise (NameError net), s)) /\
  (forall I (DI : DataIter I) prepare net batch (s : kernel I) p x,
     let data := prepare (b_data batch) in
     let label := b_label batch in
     let s1 := log (EvForward net true (length data))
                   (with_parameters net data s) in
     let s2 := log (EvLoss true) s1 in
     let s3 := log EvBackward s2 in
     parameters_of net data s = Some p ->
     (net_forward p data = Raise x ->
      train_batch prepare net batch tt s = (Raise x, s1)) /\
     (forall output,
        net_forward p data = Ok output ->
        loss_fn output label = Raise x ->
        train_batch prepare net batch tt s = (Raise x, s2)) /\
     (forall output v,
        net_forward p data = Ok output ->
        loss_fn output label = Ok v ->
        autograd_backward p data label = Raise x ->
        train_batch prepare net batch tt s = (Raise x, s3)) /\
     (forall output v g,
        net_forward p data = Ok output ->
        loss_fn output label = Ok v ->
        autograd_backward p data label = Ok g ->
        trainer_update p g (length data) = Raise x ->
        train_batch prepare net batch tt s =
        (Raise x, log (EvStep (length data)) (set_grad (Some g) s3))) /\
     (forall output v g p',
        net_forward p data = Ok output ->
        loss_fn output label = Ok v ->
        autograd_backward p data label = Ok g ->
        trainer_update p g (length data) = Ok p' ->
        next_moving_loss s (nd_mean v) = Raise x ->
        train_batch prepare net batch tt s =
        (Raise x, set_nets (<[net := p']> (k_nets s1))
                    (log (EvStep (length data)) (set_grad (Some g) s3))))) /\
  (forall I (s : kernel I) curr_loss x,
     next_moving_loss s curr_loss = Raise x ->
     x = NameError "i" /\ k_i s = None \/
     x = NameError "e" /\ k_e s = None \/
     x = NameError "moving_loss" /\ k_moving_loss s = None) /\
  (forall I (DI : DataIter I) prepare net batch acc (s : kernel I) x,
     let data := prepare (b_data batch) in
     let s1 := log (EvForward net (k_recording s) (length data))
                   (with_parameters net data s) in
     (parameters_of net data s = None ->
      evaluate_batch prepare net batch acc s = (Raise (NameError net), s)) /\
     (forall p,
        parameters_of net data s = Some p ->
        net_forward p data = Raise x ->
        evaluate_batch prepare net batch acc s = (Raise x, s1)) /\
     (forall p output,
        parameters_of net data s = Some p ->
        net_forward p data = Ok output ->
        Accuracy_update (nd_argmax output) (b_label batch) acc = Raise x ->
        evaluate_batch prepare net batch acc s = (Raise x, s1))).
Proof.
  repeat apply conj.
  - intros k s s1 s2 x Hk Hdone Hbody.
    now apply (for_range_stops (mnist_epoch id) k CNN.epochs s s1).
  - intros k s s1 s2 x Hk Hdone Hbody. unfold Softmax.training_loop.
    rewrite (bind_ok _ _ s tt (set_moving_loss (Some (float_lit 0)) s) eq_refl).
    now apply (for_range_stops (mnist_epoch (map reshape784)) k Softmax.epochs _ s1).
  - intros k s s1 s2 x Hk Hdone Hbody.
    now apply (for_range_stops VGG.epoch k VGG.epochs s s1).
  - intros. now apply (mnist_epoch_batch_raises prepare e s done batch rest sj).
  - intros. now apply (vgg_epoch_batch_raises e s done batch rest sj).
  - intros. now apply (mnist_evaluate_accuracy_batch_raises
                         prepare src net s done batch rest acc sj).
  - intros. now apply (vgg_evaluate_accuracy_batch_raises
                         src net s done batch rest acc sj).
  - intros. now apply (mnist_epoch_test_accuracy_raises prepare e s st p).
  - intros. now apply (mnist_epoch_train_accuracy_raises
                         prepare e s st test_accuracy st' p).
  - intros I DI prepare net batch s Hp. now apply train_batch_unbound.
  - intros I DI prepare net batch s p x.
    apply (train_batch_call_raises prepare net batch s p x).
  - intros I s curr_loss x. unfold next_moving_loss.
    destruct (k_i s) as [i|]; [|intros [= <-]; now left].
    destruct (Nat.eqb i 0).
    + destruct (k_e s) as [e|]; [|intros [= <-]; right; now left].
      destruct (Nat.eqb e 0); [discriminate|].
      destruct (k_moving_loss s); [discriminate|].
      intros [= <-]. right. now right.
    + destruct (k_moving_loss s); [discriminate|].
      intros [= <-]. right. now right.
  - intros I DI prepare net batch acc s x.
    apply (evaluate_batch_call_raises prepare net batch acc s x).
Qed.

(** The CNN cell on a training set whose second batch is empty, which the
    small framework refuses: the first batch goes through, the second
    raises, and that is how the cell ends. *)
Lemma exceptions_propagate_unchanged_witness :
  let train := {| nd_batches := [Toy.batch [5; -3]%Z [1; 0]; Toy.batch [] []];
                  nd_cursor := 0 |} in
  let s := fresh_kernel (H:=Toy.framework) "net" 1%Z train Toy.nd_test in
  let s2 := snd (mnist_epoch id 0 (set_e (Some 0) s)) in
  0 < CNN.epochs /\
  CNN.training_loop s = (Raise (MXNetError "empty batch"), s2) /\
  k_train_data s2 = {| nd_batches := nd_batches train; nd_cursor := 2 |} /\
  k_i s2 = Some 1 /\
  k_stdout s2 = [].
Proof.
  intros train s s2.
  split; [unfold CNN.epochs; lia|].
  split; [|repeat split].
  apply (proj1 (exceptions_propagate_unchanged (H:=Toy.framework)) 0 s s).
  - unfold CNN.epochs. lia.
  - reflexivity.
  - apply (run_with_outcome (mnist_epoch id 0) (set_e (Some 0) s)).
    vm_compute. reflexivity.
Defined.

(** ** The moving-loss assignment where [i] is bound *)

Section MovingLossRecurrence.
Context `{Framework} {I : Type} `{!DataIter I}.
Implicit Type s : kernel I.

(** On the first batch of the first epoch the moving loss becomes the
    current loss. *)
Lemma update_moving_loss_first curr_loss s :
  k_i s = Some 0 -> k_e s = Some 0 ->
  update_moving_loss curr_loss s =
  (Ok tt, log EvMovingLoss (set_moving_loss (Some curr_loss) s)).
Proof.
  intros Hi He. rewrite update_moving_loss_run, Hi, He. reflexivity.
Qed.

(** On any other batch it becomes
    [(1 - smoothing_constant) * moving_loss + smoothing_constant * curr_loss]. *)
Lemma update_moving_loss_later curr_loss s i e m :
  k_i s = Some i -> k_e s = Some e -> i <> 0 \/ e <> 0 ->
  k_moving_loss s = Some m ->
  update_moving_loss curr_loss s =
  (Ok tt, log EvMovingLoss (set_moving_loss (Some (smooth m curr_loss)) s)).
Proof.
  intros Hi He Hne Hm. rewrite update_moving_loss_run, Hi, He, Hm.
  destruct (Nat.eqb_spec i 0) as [->|_]; [|reflexivity].
  destruct (Nat.eqb_spec e 0) as [->|_]; [|reflexivity].
  destruct Hne; congruence.
Qed.

End MovingLossRecurrence.

(** ** The three claims that the VGG training cell breaks *)

(** C1 (not met by the VGG cell).  Whatever the framework, the network
    and the data, the VGG training cell run from a fresh kernel ends
    without [moving_loss] ever having been assigned: its batch loop binds
    no [i], and the assignment reads [i] first.  On the small framework
    the cell gets through the forward pass, the loss, backward and the
    optimizer step of its first batch and then raises NameError on [i]. *)
Theorem vgg_moving_loss_never_assigned :
  (forall (F : Framework) (p : params) (train test : DataLoader),
     k_moving_loss
       (snd (VGG.training_loop (fresh_kernel "vgg_net" p train test))) = None) /\
  (let run := VGG.training_loop
                (fresh_kernel (H:=Toy.framework) "vgg_net" 1%Z
                   Toy.dl_train Toy.dl_test) in
   fst run = Raise (NameError "i") /\
   k_moving_loss (snd run) = None /\
   k_trace (snd run) =
     [EvForward "vgg_net" true 2; EvLoss true; EvBackward; EvStep 2]).
Proof.
  split.
  - intros F p train test.
    destruct (vgg_training_loop_raises
                (fresh_kernel "vgg_net" p train test) eq_refl eq_refl eq_refl)
      as (x & s' & E & _ & Hm & _).
    now rewrite E.
  - vm_compute. repeat split.
Qed.

(** C2 (not met by the VGG cell).  Whatever the framework, the network
    and the data, the VGG training cell run from a fresh kernel raises an
    exception and prints no report at all.  Even over an empty training
    pass, where the batch loop has nothing to stumble on, the cell stops at
    the first evaluation, which asks for the accuracy of [alex_net], a name
    that the notebook never binds, instead of the network being trained. *)
Theorem vgg_never_reports :
  (forall (F : Framework) (p : params) (train test : DataLoader),
     let run := VGG.training_loop (fresh_kernel "vgg_net" p train test) in
     (exists x, fst run = Raise x) /\ k_stdout (snd run) = []) /\
  (let empty := {| dl_pass := fun _ => []; dl_started := 0 |} in
   let run := VGG.training_loop
                (fresh_kernel (H:=Toy.framework) "vgg_net" 1%Z
                   empty Toy.dl_test) in
   fst run = Raise (NameError "alex_net") /\
   k_stdout (snd run) = [] /\
   k_trace (snd run) = []).
Proof.
  split.
  - intros F p train test run. subst run.
    destruct (vgg_training_loop_raises
                (fresh_kernel "vgg_net" p train test) eq_refl eq_refl eq_refl)
      as (x & s' & E & _ & _ & Hout).
    rewrite E. split; [now exists x|exact Hout].
  - vm_compute. repeat split.
Qed.

(** C5 (not met by the VGG cell).  Whatever the framework, the network
    and the data, the epoch loop of the VGG training cell run from a fresh
    kernel does not complete a single one of its [epochs = 10] iterations:
    the cell raises an exception while [e] is still 0. *)
Theorem vgg_stops_in_first_epoch :
  VGG.epochs = 10 /\
  forall (F : Framework) (p : params) (train test : DataLoader),
    let run := VGG.training_loop (fresh_kernel "vgg_net" p train test) in
    (exists x, fst run = Raise x) /\ k_e (snd run) = Some 0.
Proof.
  split; [reflexivity|].
  intros F p train test run. subst run.
  destruct (vgg_training_loop_raises
              (fresh_kernel "vgg_net" p train test) eq_refl eq_refl eq_refl)
    as (x & s' & E & He & _ & _).
  rewrite E. split; [now exists x|exact He].
Qed.



(** ** The samples of one pass over a data source *)

Section BatchingFacts.
Context {A : Type}.
Implicit Type xs : list A.

Lemma nd_pass_from_done fuel xs batch_size cursor :
  length xs <= cursor -> nd_pass_from fuel xs batch_size cursor = [].
Proof.
  intros Hc. destruct fuel as [|fuel]; [reflexivity|]. cbn [nd_pass_from].
  destruct (Nat.ltb_spec cursor (length xs)); [lia|reflexivity].
Qed.

Lemma nd_pad_full batch_size : nd_pad batch_size batch_size = 0.
Proof.
  unfold nd_pad. destruct batch_size as [|b]; [reflexivity|].
  rewrite Nat.Div0.mod_same, Nat.sub_0_r. apply Nat.Div0.mod_same.
Qed.

Lemma nd_pad_small n batch_size :
  0 < n < batch_size -> nd_pad n batch_size = batch_size - n.
Proof.
  intros Hn. unfold nd_pad.
  rewrite (Nat.mod_small n) by lia. apply Nat.mod_small. lia.
Qed.

Lemma nd_pad_step n batch_size :
  nd_pad (n + batch_size) batch_size = nd_pad n batch_size.
Proof.
  unfold nd_pad. replace (n + batch_size) with (n + 1 * batch_size) by lia.
  now rewrite Nat.Div0.mod_add.
Qed.

Lemma nd_pad_divides n batch_size :
  n mod batch_size = 0 -> nd_pad n batch_size = 0.
Proof.
  intros Hn. unfold nd_pad. rewrite Hn, Nat.sub_0_r.
  destruct batch_size; [reflexivity|apply Nat.Div0.mod_same].
Qed.

(** From any cursor: what is left of the data, then the padding. *)
Lemma nd_pass_from_concat xs batch_size : 0 < batch_size ->
  forall fuel cursor,
  length xs - cursor <= fuel -> cursor < length xs ->
  concat (nd_pass_from fuel xs batch_size cursor) =
  drop cursor xs ++ take (nd_pad (length xs - cursor) batch_size) xs.
Proof.
  intros Hb. induction fuel as [|fuel IH]; intros cursor Hfuel Hc; [lia|].
  cbn [nd_pass_from]. destruct (Nat.ltb_spec cursor (length xs)); [|lia].
  cbn [concat]. unfold nd_getdata.
  destruct (Nat.leb_spec (cursor + batch_size) (length xs)) as [Hle|Hgt].
  - destruct (Nat.eq_dec (cursor + batch_size) (length xs)) as [Heq|Hne].
    + rewrite nd_pass_from_done by lia.
      replace (length xs - cursor) with batch_size by lia.
      rewrite nd_pad_full, take_0, !app_nil_r.
      apply take_ge. rewrite length_drop. lia.
    + rewrite IH by lia.
      replace (length xs - cursor)
        with (length xs - (cursor + batch_size) + batch_size) by lia.
      rewrite nd_pad_step, app_assoc. f_equal.
      rewrite <- (take_drop batch_size (drop cursor xs)) at 2.
      now rewrite drop_drop.
  - rewrite nd_pass_from_done by lia. rewrite app_nil_r.
    rewrite nd_pad_small by lia. do 2 f_equal. lia.
Qed.

(** One pass of an NDArrayIter: the data, then the first [nd_pad] samples
    once more. *)
Lemma nd_pass_concat xs batch_size :
  0 < batch_size ->
  concat (nd_pass xs batch_size) =
  xs ++ take (nd_pad (length xs) batch_size) xs.
Proof.
  intros Hb. unfold nd_pass.
  destruct xs as [|x xs]; [cbn; now rewrite take_nil|].
  rewrite nd_pass_from_concat by (cbn; lia).
  now rewrite Nat.sub_0_r.
Qed.

Lemma batch_sampler_from_spec batch_size : 0 < batch_size ->
  forall sampler batch : list A, length batch < batch_size ->
  batch ++ sampler =
    concat (fst (batch_sampler_from batch_size batch sampler))
    ++ snd (batch_sampler_from batch_size batch sampler) /\
  length (snd (batch_sampler_from batch_size batch sampler)) < batch_size /\
  Forall (fun b => length b = batch_size)
         (fst (batch_sampler_from batch_size batch sampler)).
Proof.
  intros Hb. induction sampler as [|i rest IH]; intros batch Hlen.
  - cbn. rewrite app_nil_r. auto.
  - cbn [batch_sampler_from].
    destruct (Nat.eqb_spec (length (batch ++ [i])) batch_size) as [Heq|Hne].
    + destruct (IH [] Hb) as (Hcat & Hlast & Hall).
      destruct (batch_sampler_from batch_size [] rest) as [out last].
      cbn [fst snd concat] in *. repeat split.
      * rewrite <- app_assoc, <- Hcat. now rewrite <- app_assoc.
      * exact Hlast.
      * now constructor.
    + rewrite length_app in Hne. cbn in Hne.
      destruct (IH (batch ++ [i])) as (Hcat & Hlast & Hall).
      { rewrite length_app. cbn. lia. }
      repeat split; try assumption.
      now rewrite <- Hcat, <- app_assoc.
Qed.

Lemma length_concat_uniform (bs : list (list A)) n :
  Forall (fun b => length b = n) bs -> length (concat bs) = n * length bs.
Proof.
  induction 1 as [|b bs Hb _ IH]; cbn; [lia|].
  rewrite length_app, IH, Hb. lia.
Qed.

(** One pass of a loader that discards the last, incomplete batch: the
    first [batch_size * (n / batch_size)] samples of the order drawn. *)
Lemma BatchSampler_discard_concat xs batch_size :
  0 < batch_size ->
  concat (BatchSampler xs batch_size discard) =
  take (batch_size * (length xs / batch_size)) xs.
Proof.
  intros Hb. unfold BatchSampler.
  destruct (batch_sampler_from_spec batch_size Hb xs []) as (Hcat & Hlast & Hall);
    [cbn; lia|].
  destruct (batch_sampler_from batch_size [] xs) as [out last].
  cbn [fst snd app] in *.
  pose proof (length_concat_uniform out batch_size Hall) as Hlen.
  assert (Hn : length xs = batch_size * length out + length last).
  { rewrite Hcat at 1. rewrite length_app. lia. }
  assert (Hdiv : length xs / batch_size = length out).
  { symmetry. apply (Nat.div_unique _ _ _ (length last)); lia. }
  rewrite Hdiv, <- Hlen.
  assert (Htake : take (length (concat out)) xs = concat out).
  { rewrite Hcat at 1. now rewrite take_app_length. }
  destruct last; exact (eq_sym Htake).
Qed.

End BatchingFacts.

Section PassFacts.
Context `{Framework}.

Lemma zip_fst_snd (l : list sample) : zip (map fst l) (map snd l) = l.
Proof. induction l as [|[d y] l IH]; cbn; [reflexivity|now rewrite IH]. Qed.

Lemma samples_of_to_batch (bss : list (list sample)) :
  samples_of (map to_batch bss) = concat bss.
Proof.
  unfold samples_of. induction bss as [|b bss IH]; [reflexivity|].
  cbn [map concat]. rewrite IH. cbn [to_batch b_data b_label].
  now rewrite zip_fst_snd.
Qed.

End PassFacts.

(** ** In-place writes keep the object, rebinding makes a new one *)

Section NDArrayFacts.
Context `{Framework}.
Import NDArrayCells.

Lemma value_of_inv v st a :
  value_of v st = Ok a ->
  exists l, names st !! v = Some l /\ store st !! l = Some a.
Proof.
  unfold value_of. destruct (names st !! v) as [l|] eqn:Hn; [|discriminate].
  destruct (store st !! l) as [a'|] eqn:Hs; [|discriminate].
  intros [= <-]. exists l. now split.
Qed.

Lemma value_of_intro v st l a :
  names st !! v = Some l -> store st !! l = Some a -> value_of v st = Ok a.
Proof. intros Hn Hs. unfold value_of. now rewrite Hn, Hs. Qed.

Lemma fresh_not_stored (st : state) l a :
  store st !! l = Some a -> fresh (dom (store st)) <> l.
Proof.
  intros Hs Heq. apply (is_fresh (dom (store st))).
  rewrite Heq. apply elem_of_dom. now exists a.
Qed.

Lemma elementwise_add_same_shape a b :
  shape a = shape b ->
  elementwise_add a b =
  Ok {| shape := shape a; values := zip_with fadd (values a) (values b) |}.
Proof.
  intros Hs. unfold elementwise_add.
  destruct (decide (shape a = shape b)); [reflexivity|contradiction].
Qed.

End NDArrayFacts.

(** C10. Let [x], [y] and [z] be bound to NDArrays of one shape.
    - After [z[:] = x + y], [id(z)] is what it was, and the object holds
      the elementwise sum of [x] and [y].
    - After [x += y], [id(x)] is what it was, and the object holds the
      elementwise sum of [x] and [y].
    - After [y = y + x], [id(y)] is not what it was: [y] is bound to a
      newly allocated array that holds the elementwise sum, and the object
      it was bound to before is still in the store, unchanged. *)
Theorem in_place_writes_keep_identity `{Framework}
    (st : NDArrayCells.state) (x y z : string) (a b c : NDArrayCells.NDArray) :
  NDArrayCells.equal_shapes st x y z a b c ->
  let sum u v :=
    {| NDArrayCells.shape := NDArrayCells.shape u;
       NDArrayCells.values :=
         zip_with fadd (NDArrayCells.values u) (NDArrayCells.values v) |} in
  (exists st',
     NDArrayCells.slice_assign_add z x y st = Ok st' /\
     NDArrayCells.id_of z st' = NDArrayCells.id_of z st /\
     NDArrayCells.value_of z st' = Ok (sum a b)) /\
  (exists st',
     NDArrayCells.iadd x y st = Ok st' /\
     NDArrayCells.id_of x st' = NDArrayCells.id_of x st /\
     NDArrayCells.value_of x st' = Ok (sum a b)) /\
  (exists st' l l',
     NDArrayCells.assign_add y y x st = Ok st' /\
     NDArrayCells.id_of y st = Ok l /\
     NDArrayCells.id_of y st' = Ok l' /\
     l' <> l /\
     NDArrayCells.store st !! l' = None /\
     NDArrayCells.value_of y st' = Ok (sum b a) /\
     NDArrayCells.store st' !! l = Some b).
Proof.
  intros (Hx & Hy & Hz & Hab & Hca) sum.
  destruct (value_of_inv x st a Hx) as (lx & Hnx & Hsx).
  destruct (value_of_inv y st b Hy) as (ly & Hny & Hsy).
  destruct (value_of_inv z st c Hz) as (lz & Hnz & Hsz).
  set (l := fresh (dom (NDArrayCells.store st))).
  assert (Hlz : l <> lz) by now apply (fresh_not_stored st lz c).
  assert (Hly : l <> ly) by now apply (fresh_not_stored st ly b).
  assert (Hl : NDArrayCells.store st !! l = None).
  { apply not_elem_of_dom. apply is_fresh. }
  split; [|split].
  - unfold NDArrayCells.slice_assign_add, NDArrayCells.add_expr.
    rewrite Hx, Hy, (elementwise_add_same_shape a b Hab).
    unfold NDArrayCells.allocate. fold l. cbn [NDArrayCells.names NDArrayCells.store].
    rewrite Hnz, lookup_insert_ne by exact Hlz.
    rewrite Hsz, lookup_insert_eq. cbn [NDArrayCells.shape NDArrayCells.values].
    destruct (decide (NDArrayCells.shape c = NDArrayCells.shape a));
      [|contradiction].
    eexists. split; [reflexivity|]. split.
    + unfold NDArrayCells.id_of. cbn. reflexivity.
    + apply (value_of_intro z _ lz); cbn; [exact Hnz|].
      rewrite lookup_insert_eq. subst sum. cbn. now rewrite Hca.
  - unfold NDArrayCells.iadd.
    rewrite Hnx, Hx, Hy, (elementwise_add_same_shape a b Hab).
    eexists. split; [reflexivity|]. split.
    + unfold NDArrayCells.id_of. cbn. now rewrite lookup_insert_eq, Hnx.
    + apply (value_of_intro x _ lx); cbn; now rewrite lookup_insert_eq.
  - unfold NDArrayCells.assign_add, NDArrayCells.add_expr.
    rewrite Hy, Hx, (elementwise_add_same_shape b a (eq_sym Hab)).
    unfold NDArrayCells.allocate. fold l.
    eexists _, ly, l. split; [reflexivity|].
    unfold NDArrayCells.id_of. cbn. rewrite Hny, lookup_insert_eq.
    repeat split; try assumption.
    + apply (value_of_intro y _ l); cbn; now rewrite lookup_insert_eq.
    + rewrite lookup_insert_ne by exact Hly. exact Hsy.
Qed.

(** The cells of the notebook on a store of three arrays of shape [(2,)],
    with [z] made by [nd.zeros_like(x)]. *)
Lemma in_place_writes_keep_identity_witness :
  let array (v : list Q) : NDArrayCells.NDArray (H:=Toy.framework) :=
    NDArrayCells.Build_NDArray (H:=Toy.framework) [2] v in
  let a := array [1; 2]%Q in
  let b := array [10; 20]%Q in
  let c := array [0; 0]%Q in
  let st := {| NDArrayCells.names := <["x" := 0]> (<["y" := 1]> (<["z" := 2]> ∅));
               NDArrayCells.store := <[0 := a]> (<[1 := b]> (<[2 := c]> ∅)) |} in
  NDArrayCells.equal_shapes st "x" "y" "z" a b c /\
  exists st',
    NDArrayCells.iadd "x" "y" st = Ok st' /\
    NDArrayCells.id_of "x" st' = NDArrayCells.id_of "x" st /\
    NDArrayCells.value_of "x" st' = Ok (array [11; 22]%Q).
Proof.
  intros array a b c st.
  assert (Hshapes : NDArrayCells.equal_shapes st "x" "y" "z" a b c)
    by (repeat split; reflexivity).
  split; [exact Hshapes|].
  exact (proj1 (proj2 (in_place_writes_keep_identity (H:=Toy.framework)
                         st "x" "y" "z" a b c Hshapes))).
Defined.

(** ** The CNN and softmax cells report once per epoch *)

(** Proves that a statement leaves an observation alone, by the structure
    of the statement. *)
Ltac frame :=
  repeat first
    [ apply unchanged_bind
    | apply unchanged_lookup
    | apply unchanged_get
    | apply unchanged_call
    | apply unchanged_ret
    | apply unchanged_raise
    | apply unchanged_with_autograd_record; [reflexivity|]
    | apply unchanged_modify; intros []; reflexivity
    | match goal with
      | |- unchanged _ (match ?x with _ => _ end) => destruct x
      | |- unchanged _ (if ?x then _ else _) => destruct x
      end
    | intro ].

Section ReportsEveryEpoch.
Context `{Framework}.

Lemma bind_inv_ok {I A B} (m : M I A) (f : A -> M I B) s b s'' :
  bind m f s = (Ok b, s'') ->
  exists a s', m s = (Ok a, s') /\ f a s' = (Ok b, s'').
Proof.
  unfold bind. destruct (m s) as [[a|x] s'] eqn:E; intros E'.
  - now exists a, s'.
  - discriminate.
Qed.

Lemma train_batch_printed {I} `{!DataIter I} prepare net batch u :
  unchanged (I:=I) printed (train_batch prepare net batch u).
Proof.
  unfold train_batch, forward, softmax_cross_entropy, backward, trainer_step,
    update_moving_loss, emit.
  frame.
Qed.

Lemma evaluate_batch_printed {I} `{!DataIter I} prepare net batch acc :
  unchanged (I:=I) printed (evaluate_batch prepare net batch acc).
Proof. unfold evaluate_batch, forward, emit. frame. Qed.

Lemma iterate_printed {I L} `{!DataIter I} src enumerate
    (body : DataBatch -> L -> M I L) pending :
  (forall batch acc, unchanged printed (body batch acc)) ->
  forall i acc, unchanged printed (iterate src enumerate i pending body acc).
Proof.
  intros Hbody. induction pending as [|batch rest IH]; intros i acc.
  - apply unchanged_ret.
  - cbn [iterate]. apply unchanged_bind.
    { apply unchanged_modify. intros s. now destruct src. }
    intros _. apply unchanged_bind.
    { destruct enumerate; [apply unchanged_modify; reflexivity|apply unchanged_ret]. }
    intros _. apply unchanged_bind; [apply Hbody|]. intros acc'. apply IH.
Qed.

Lemma for_in_printed {I L} `{!DataIter I} src enumerate
    (body : DataBatch -> L -> M I L) acc :
  (forall batch acc, unchanged printed (body batch acc)) ->
  unchanged printed (for_in src enumerate body acc).
Proof.
  intros Hbody. unfold for_in.
  apply unchanged_bind; [apply unchanged_get|]. intros s0.
  apply unchanged_bind.
  { apply unchanged_modify. intros s. now destruct src. }
  intros _. now apply iterate_printed.
Qed.

Lemma mnist_evaluate_accuracy_printed prepare src net :
  unchanged printed (mnist_evaluate_accuracy prepare src net).
Proof.
  unfold mnist_evaluate_accuracy.
  apply unchanged_bind.
  { apply unchanged_modify. intros s. now destruct src. }
  intros _. apply unchanged_bind; [|intros acc; apply unchanged_ret].
  apply for_in_printed. intros batch acc. apply evaluate_batch_printed.
Qed.

Lemma unchanged_ok {I X A} (f : kernel I -> X) (m : M I A) s r s' :
  unchanged f m -> m s = (r, s') -> f s' = f s.
Proof. intros Hm E. specialize (Hm s). now rewrite E in Hm. Qed.

(** An epoch that finishes has gone through its batch loop, has asked
    [evaluate_accuracy] of the network being trained on the test data and
    then on the training data, and has printed one line with these two
    accuracies and its own number. *)
Lemma mnist_epoch_reports prepare e0 (s s' : kernel NDArrayIter) e :
  k_e s = Some e ->
  mnist_epoch prepare e0 s = (Ok tt, s') ->
  exists s1 s2 s3 test_accuracy train_accuracy moving_loss,
    for_in train_data true (train_batch prepare "net") tt
      (map_source train_data NDArrayIter_reset s) = (Ok tt, s1) /\
    mnist_evaluate_accuracy prepare test_data "net" s1
      = (Ok test_accuracy, s2) /\
    mnist_evaluate_accuracy prepare train_data "net" s2
      = (Ok train_accuracy, s3) /\
    k_e s' = Some e /\
    k_stdout s' = k_stdout s ++
      [{| r_epoch := e; r_loss := moving_loss;
          r_train_acc := train_accuracy; r_test_acc := test_accuracy |}].
Proof.
  intros He Hrun. unfold mnist_epoch in Hrun.
  rewrite (bind_ok _ _ s tt (map_source train_data NDArrayIter_reset s) eq_refl)
    in Hrun.
  apply bind_inv_ok in Hrun as ([] & s1 & Htrain & Hrun).
  apply bind_inv_ok in Hrun as (test_accuracy & s2 & Htest & Hrun).
  apply bind_inv_ok in Hrun as (train_accuracy & s3 & Htrainacc & Hrun).
  apply bind_inv_ok in Htest as (net1 & s1' & Hnet1 & Htest).
  apply bind_inv_ok in Htrainacc as (net2 & s2' & Hnet2 & Htrainacc).
  assert (Hl : forall (t t' : kernel NDArrayIter) n,
             lookup_net "net" t = (Ok n, t') -> n = "net" /\ t' = t).
  { intros t t' n. unfold lookup_net, lookup, bind, get, ret, raise, network.
    destruct (k_nets t !! "net"), (k_init t !! "net"); now intros [= <- <-]. }
  apply Hl in Hnet1 as [-> ->]. apply Hl in Hnet2 as [-> ->].
  assert (Hp1 : printed s1 = printed s).
  { rewrite (unchanged_ok printed _ _ _ _
               (for_in_printed train_data true _ tt
                  (train_batch_printed prepare "net")) Htrain).
    reflexivity. }
  pose proof (unchanged_ok printed _ _ _ _
                (mnist_evaluate_accuracy_printed prepare test_data "net")
                Htest) as Hp2.
  pose proof (unchanged_ok printed _ _ _ _
                (mnist_evaluate_accuracy_printed prepare train_data "net")
                Htrainacc) as Hp3.
  assert (Hp : printed s3 = printed s) by congruence.
  unfold printed in Hp. injection Hp as He3 Hout3.
  unfold print_report, lookup, modify, bind, get, ret, raise in Hrun.
  rewrite He3, He in Hrun.
  destruct (k_moving_loss s3) as [moving_loss|]; [|discriminate].
  injection Hrun as <-.
  exists s1, s2, s3, test_accuracy, train_accuracy, moving_loss.
  repeat split; try assumption.
  - cbn. congruence.
  - cbn. now rewrite Hout3.
Qed.

(** An epoch loop that finishes has printed one line per epoch, numbered
    in order. *)
Lemma mnist_epochs_report prepare n : forall lo (s s' : kernel NDArrayIter),
  for_range lo n (mnist_epoch prepare) s = (Ok tt, s') ->
  exists lines,
    k_stdout s' = k_stdout s ++ lines /\ map r_epoch lines = seq lo n.
Proof.
  induction n as [|n IH]; intros lo s s' Hrun.
  - injection Hrun as <-. exists []. now rewrite app_nil_r.
  - rewrite for_range_S in Hrun.
    apply bind_inv_ok in Hrun as ([] & s1 & Hepoch & Hrest).
    destruct (mnist_epoch_reports prepare lo (set_e (Some lo) s) s1 lo
                eq_refl Hepoch)
      as (_ & _ & _ & ta & tr & ml & _ & _ & _ & _ & Hout).
    destruct (IH (S lo) s1 s' Hrest) as (lines & Hout' & Hnum).
    eexists (_ :: lines). split.
    + rewrite Hout', Hout. cbn [k_stdout set_e]. now rewrite <- app_assoc.
    + cbn. now rewrite Hnum.
Qed.

(** The CNN and softmax cells do what the VGG cell does not: when they
    finish they have gone through [epochs = 10] iterations and printed the
    ten reports, for the epochs 0 to 9. *)
Lemma mnist_cells_report_every_epoch :
  (forall s s' : kernel NDArrayIter,
     CNN.training_loop s = (Ok tt, s') ->
     exists lines, k_stdout s' = k_stdout s ++ lines /\
                   map r_epoch lines = seq 0 10) /\
  (forall s s' : kernel NDArrayIter,
     Softmax.training_loop s = (Ok tt, s') ->
     exists lines, k_stdout s' = k_stdout s ++ lines /\
                   map r_epoch lines = seq 0 10).
Proof.
  split; intros s s' Hrun.
  - now apply (mnist_epochs_report id 10 0).
  - unfold Softmax.training_loop in Hrun.
    rewrite (bind_ok _ _ s tt (set_moving_loss (Some (float_lit 0)) s) eq_refl)
      in Hrun.
    now apply (mnist_epochs_report (map reshape784) 10 0) in Hrun.
Qed.

End ReportsEveryEpoch.

(** On the small framework both cells finish. *)
Example mnist_cells_finish :
  fst (CNN.training_loop
         (fresh_kernel (H:=Toy.framework) "net" 1%Z Toy.nd_train Toy.nd_test))
    = Ok tt /\
  fst (Softmax.training_loop
         (fresh_kernel (H:=Toy.framework) "net" 1%Z Toy.nd_train Toy.nd_test))
    = Ok tt.
Proof. split; vm_compute; reflexivity. Qed.

(** ** The recurrence of the moving loss in the CNN and softmax cells *)

(** In a batch loop that binds [i], as those of the CNN and softmax cells
    do, a pass through the body that finishes leaves in [moving_loss] the
    mean loss of the batch if this is the first batch of the first epoch,
    and otherwise [(1 - smoothing_constant) * moving_loss +
    smoothing_constant * (mean loss of the batch)], with
    [smoothing_constant = .01]. *)
Lemma train_batch_moving_loss `{Framework} {I} `{!DataIter I}
    prepare net batch (s s' : kernel I) i e :
  k_i s = Some i -> k_e s = Some e ->
  train_batch prepare net batch tt s = (Ok tt, s') ->
  exists p output v,
    parameters_of net (prepare (b_data batch)) s = Some p /\
    net_forward p (prepare (b_data batch)) = Ok output /\
    loss_fn output (b_label batch) = Ok v /\
    (i = 0 /\ e = 0 -> k_moving_loss s' = Some (nd_mean v)) /\
    (i <> 0 \/ e <> 0 ->
     exists m, k_moving_loss s = Some m /\
               k_moving_loss s' = Some (smooth m (nd_mean v))) /\
    smoothing_constant = float_lit (1 # 100).
Proof.
  intros Hi He E. rewrite train_batch_run in E. cbv zeta in E.
  destruct (parameters_of net _ s) as [p|] eqn:Hnet; [|discriminate].
  destruct (net_forward p _) as [output|x] eqn:Hf; [|discriminate].
  destruct (loss_fn output _) as [v|x] eqn:Hl; [|discriminate].
  destruct (autograd_backward p _ _) as [g|x]; [|discriminate].
  destruct (trainer_update p g _) as [p'|x]; [|discriminate].
  rewrite update_moving_loss_next, next_moving_loss_in_batch in E.
  unfold next_moving_loss in E. rewrite Hi, He in E.
  exists p, output, v.
  do 3 (split; [first [reflexivity|assumption]|]).
  split; [|split; [|reflexivity]].
  - intros [-> ->]. cbn in E. injection E as <-. reflexivity.
  - intros Hne.
    destruct (Nat.eqb_spec i 0) as [->|Hi0];
      [destruct (Nat.eqb_spec e 0) as [->|He0]; [destruct Hne; congruence|]|];
      (destruct (k_moving_loss s) as [m|]; [|discriminate]);
      injection E as <-; now exists m.
Qed.

(** The cells of the notebook in their order, on arrays of shape [(2,)]:
    [y = y + x], then [z = nd.zeros_like(x)] and [z[:] = x + y], then
    [x += y].  [id(y)] changes, [id(z)] and [id(x)] do not. *)
Example ndarray_cells_run :
  let array (v : list Q) : NDArrayCells.NDArray (H:=Toy.framework) :=
    NDArrayCells.Build_NDArray (H:=Toy.framework) [2] v in
  let st0 : NDArrayCells.state (H:=Toy.framework) :=
    {| NDArrayCells.names := <["x" := 0]> (<["y" := 1]> ∅);
       NDArrayCells.store :=
         <[0 := array [1; 2]%Q]> (<[1 := array [10; 20]%Q]> ∅) |} in
  let then_ {A} (r : outcome NDArrayCells.state)
      (f : NDArrayCells.state -> outcome A) : outcome A :=
    match r with Ok st => f st | Raise x => Raise x end in
  let st1 := NDArrayCells.assign_add "y" "y" "x" st0 in
  let st2 := then_ st1 (NDArrayCells.zeros_like "z" "x") in
  let st3 := then_ st2 (NDArrayCells.slice_assign_add "z" "x" "y") in
  let st4 := then_ st3 (NDArrayCells.iadd "x" "y") in
  NDArrayCells.id_of "y" st0 = Ok 1 /\
  then_ st1 (NDArrayCells.id_of "y") = Ok 2 /\
  then_ st2 (NDArrayCells.id_of "z") = Ok 3 /\
  then_ st3 (NDArrayCells.id_of "z") = Ok 3 /\
  then_ st3 (NDArrayCells.id_of "x") = Ok 0 /\
  then_ st4 (NDArrayCells.id_of "x") = Ok 0 /\
  then_ st4 (NDArrayCells.value_of "y") = Ok (array [11; 22]%Q) /\
  then_ st4 (NDArrayCells.value_of "z") = Ok (array [12; 24]%Q) /\
  then_ st4 (NDArrayCells.value_of "x") = Ok (array [12; 24]%Q).
Proof.
  intros array st0 then_ st1 st2 st3 st4.
  repeat apply conj; vm_compute; reflexivity.
Qed.

(** ** The networks the notebooks define *)

Section ArchitectureFacts.
Import Architecture.

Lemma through_app ls1 ls2 sh :
  output_shape (Sequential (ls1 ++ ls2)) sh =
  match output_shape (Sequential ls1) sh with
  | Some sh' => output_shape (Sequential ls2) sh'
  | None => None
  end.
Proof.
  revert sh. induction ls1 as [|l ls1 IH]; intros sh; [reflexivity|].
  cbn. destruct (output_shape l sh) as [sh'|]; [|reflexivity].
  apply (IH sh').
Qed.

Lemma fold_add {A} (f : A -> layer) (xs : list A) (out : list layer) :
  fold_left (fun out x => add out (f x)) xs out = out ++ map f xs.
Proof.
  revert out. induction xs as [|x xs IH]; intros out; cbn.
  - now rewrite app_nil_r.
  - rewrite IH. unfold add. now rewrite <- app_assoc.
Qed.

Lemma vgg_block_layers convs channels :
  vgg_block convs channels =
  Sequential (repeat (Conv2D channels 3 (Some "relu")) convs ++ [MaxPool2D 2 2]).
Proof.
  unfold vgg_block.
  rewrite (fold_add (fun _ => Conv2D channels 3 (Some "relu"))). cbn [app].
  unfold add. do 2 f_equal.
  assert (H : forall k, map (fun _ : nat => Conv2D channels 3 (Some "relu")) (seq k convs)
                        = repeat (Conv2D channels 3 (Some "relu")) convs).
  { induction convs as [|n IH]; intros k; cbn [seq map repeat]; [reflexivity|].
    f_equal. apply IH. }
  apply H.
Qed.

Lemma vgg_stack_layers arch :
  vgg_stack arch = Sequential (map (fun '(convs, channels) => vgg_block convs channels) arch).
Proof.
  unfold vgg_stack. f_equal.
  change (map (fun '(convs, channels) => vgg_block convs channels) arch)
    with ([] ++ map (fun '(convs, channels) => vgg_block convs channels) arch).
  generalize (@nil layer).
  induction arch as [|[convs channels] arch IH]; intros out; cbn [fold_left map].
  - now rewrite app_nil_r.
  - rewrite IH. unfold add. now rewrite <- app_assoc.
Qed.

Lemma count_layers_app p ls1 ls2 :
  count_layers p (Sequential (ls1 ++ ls2)) =
  count_layers p (Sequential ls1) + count_layers p (Sequential ls2).
Proof.
  induction ls1 as [|l ls1 IH]; [reflexivity|].
  cbn in *. rewrite IH. lia.
Qed.

Lemma count_layers_repeat p l n :
  count_layers p (Sequential (repeat l n)) = n * count_layers p l.
Proof.
  induction n as [|n IH]; [reflexivity|].
  cbn in *. now rewrite IH.
Qed.

Lemma through_cons l ls sh :
  output_shape (Sequential (l :: ls)) sh =
  match output_shape l sh with
  | Some sh' => output_shape (Sequential ls) sh'
  | None => None
  end.
Proof. reflexivity. Qed.

Lemma through_nil sh : output_shape (Sequential []) sh = Some sh.
Proof. reflexivity. Qed.

Lemma Conv2D_shape channels k a c h w :
  output_shape (Conv2D channels (S k) a) [c; h; w] =
  if (S k <=? h)%nat && (S k <=? w)%nat
  then Some [channels; h - S k + 1; w - S k + 1] else None.
Proof. reflexivity. Qed.

Lemma MaxPool2D_shape pool strides c h w :
  output_shape (MaxPool2D (S pool) (S strides)) [c; h; w] =
  if (S pool <=? h)%nat && (S pool <=? w)%nat
  then Some [c; (h - S pool) / S strides + 1; (w - S pool) / S strides + 1]
  else None.
Proof. reflexivity. Qed.

Ltac leb_cases :=
  repeat match goal with
         | |- context [(?a <=? ?b)%nat] => destruct (Nat.leb_spec a b)
         end;
  cbn [andb].

Lemma convolutions_through channels n c h w :
  output_shape (Sequential (repeat (Conv2D channels 3 (Some "relu")) n)) [c; h; w] =
  if (n =? 0)%nat then Some [c; h; w]
  else if (2 * n + 1 <=? h)%nat && (2 * n + 1 <=? w)%nat
       then Some [channels; h - 2 * n; w - 2 * n]
       else None.
Proof.
  revert c h w. induction n as [|n IH]; intros c h w; [reflexivity|].
  cbn [repeat Nat.eqb]. rewrite through_cons, Conv2D_shape.
  destruct (Nat.leb_spec 3 h), (Nat.leb_spec 3 w); cbn [andb].
  - rewrite IH. destruct n as [|n]; cbn [Nat.eqb]; leb_cases;
      try lia; try reflexivity; repeat (f_equal; try lia).
  - leb_cases; try lia; reflexivity.
  - leb_cases; try lia; reflexivity.
  - leb_cases; try lia; reflexivity.
Qed.

Lemma halve_window h : 2 <= h -> (h - 2) / 2 + 1 = h / 2.
Proof.
  intros Hh. replace h with ((h - 2) + 1 * 2) at 2 by lia.
  now rewrite Nat.div_add by lia.
Qed.

Lemma vgg_block_shape_eq convs channels c h w :
  output_shape (vgg_block convs channels) [c; h; w] =
  if (2 * convs + 2 <=? h)%nat && (2 * convs + 2 <=? w)%nat
  then Some [if (convs =? 0)%nat then c else channels;
             (h - 2 * convs) / 2; (w - 2 * convs) / 2]
  else None.
Proof.
  rewrite vgg_block_layers, through_app, convolutions_through.
  destruct convs as [|n]; cbn [Nat.eqb].
  - rewrite through_cons, MaxPool2D_shape, !Nat.sub_0_r.
    change (2 * 0 + 2) with 2.
    destruct (Nat.leb_spec 2 h), (Nat.leb_spec 2 w); cbn [andb]; try reflexivity.
    now rewrite through_nil, !halve_window.
  - destruct (Nat.leb_spec (2 * S n + 1) h), (Nat.leb_spec (2 * S n + 1) w); cbn [andb];
      try (leb_cases; try lia; reflexivity).
    rewrite through_cons, MaxPool2D_shape.
    leb_cases; try lia; try reflexivity.
    now rewrite through_nil, !halve_window by lia.
Qed.

Ltac div_lia := zify; Z.to_euclidean_division_equations; lia.

(** X1.  A VGG block of [convs] convolutions takes a
    [c x h x w] sample exactly when both sides are at least [2 * convs + 2]:
    every 3x3 convolution (no padding) takes 2 off each side, and the
    pooling halves what is left.  The result has [channels] channels
    ([c] if there is no convolution). *)
Theorem vgg_block_shape convs channels c h w :
  output_shape (vgg_block convs channels) [c; h; w] =
  if (2 * convs + 2 <=? h)%nat && (2 * convs + 2 <=? w)%nat
  then Some [if (convs =? 0)%nat then c else channels;
             (h - 2 * convs) / 2; (w - 2 * convs) / 2]
  else None.
Proof. apply vgg_block_shape_eq. Qed.

(** X2.  [vgg_stack architecture] holds one block per entry of the
    architecture, in its order; it has as many convolutions as the
    architecture's [convs] add up to and one pooling layer per entry. *)
Theorem vgg_stack_blocks arch :
  vgg_stack arch = Sequential (map (fun '(convs, channels) => vgg_block convs channels) arch)
  /\ count_layers is_conv (vgg_stack arch) = list_sum (map fst arch)
  /\ count_layers is_pool (vgg_stack arch) = length arch.
Proof.
  split; [apply vgg_stack_layers|].
  rewrite vgg_stack_layers.
  split; induction arch as [|[convs channels] arch IH]; try reflexivity.
  - change (list_sum (map fst ((convs, channels) :: arch)))
      with (convs + list_sum (map fst arch)).
    cbn [map]. rewrite <- IH. clear IH.
    change (count_layers is_conv (Sequential (?b :: ?bs)))
      with (count_layers is_conv b + count_layers is_conv (Sequential bs)).
    f_equal. rewrite vgg_block_layers, count_layers_app, count_layers_repeat.
    cbn. lia.
  - cbn [map length]. rewrite <- IH. clear IH.
    change (count_layers is_pool (Sequential (?b :: ?bs)))
      with (count_layers is_pool b + count_layers is_pool (Sequential bs)).
    change (S ?n) with (1 + n). f_equal.
    rewrite vgg_block_layers, count_layers_app, count_layers_repeat.
    cbn. lia.
Qed.

Lemma stack_side_failed arch :
  fold_left (fun side '((convs, _) : nat * nat) =>
               match side with
               | Some side => block_side convs side
               | None => None
               end) arch None = None.
Proof. induction arch as [|[convs channels] arch IH]; [reflexivity|apply IH]. Qed.

Lemma vgg_stack_shape_eq arch c h w :
  output_shape (vgg_stack arch) [c; h; w] =
  match stack_side arch h, stack_side arch w with
  | Some h', Some w' => Some [stack_channels arch c; h'; w']
  | _, _ => None
  end.
Proof.
  rewrite vgg_stack_layers. unfold stack_side, stack_channels.
  revert c h w. induction arch as [|[convs channels] arch IH]; intros c h w;
    [reflexivity|].
  cbn [map fold_left]. rewrite through_cons, vgg_block_shape_eq.
  unfold block_side at 2 4.
  destruct (Nat.leb_spec (2 * convs + 2) h), (Nat.leb_spec (2 * convs + 2) w);
    cbn [andb]; rewrite ?stack_side_failed; try reflexivity.
  - apply IH.
  - now destruct (fold_left _ arch (Some _)).
Qed.


(** X3.  [vgg_stack] treats height and width of a sample independently of
    each other: it takes a [c x h x w] sample exactly when every block in
    turn finds both sides large enough, and the result has the channels of
    the last block that has a convolution. *)
Theorem vgg_stack_shape arch c h w :
  output_shape (vgg_stack arch) [c; h; w] =
  match stack_side arch h, stack_side arch w with
  | Some h', Some w' => Some [stack_channels arch c; h'; w']
  | _, _ => None
  end.
Proof. apply vgg_stack_shape_eq. Qed.

Lemma vgg_side h :
  stack_side architecture h =
  if (212 <=? h)%nat
  then Some ((((((h - 4) / 2 - 4) / 2 - 6) / 2 - 6) / 2 - 6) / 2)
  else None.
Proof.
  unfold stack_side, architecture, block_side. cbn [fold_left].
  change (2 * 2 + 2) with 6. change (2 * 3 + 2) with 8.
  change (2 * 2) with 4. change (2 * 3) with 6.
  destruct (Nat.leb_spec 212 h).
  - repeat (match goal with
            | |- context [(?a <=? ?b)%nat] =>
                destruct (Nat.leb_spec a b); [|exfalso; div_lia]
            end).
    reflexivity.
  - repeat (match goal with
            | |- context [(?a <=? ?b)%nat] =>
                destruct (Nat.leb_spec a b); [|reflexivity]
            end).
    exfalso; div_lia.
Qed.

Lemma vgg_net_shape_eq c h w :
  output_shape vgg_net [c; h; w] =
  if (212 <=? h)%nat && (212 <=? w)%nat then Some [num_classes] else None.
Proof.
  unfold vgg_net. rewrite through_cons, vgg_stack_shape_eq, !vgg_side.
  destruct (212 <=? h)%nat, (212 <=? w)%nat; reflexivity.
Qed.

(** X4.  The VGG network of the notebook, whose convolutions have no
    padding, takes a sample exactly when its height and width are at least
    212, and then gives [num_classes] scores. *)
Theorem vgg_net_input_size c h w :
  output_shape vgg_net [c; h; w] =
  if (212 <=? h)%nat && (212 <=? w)%nat then Some [num_classes] else None.
Proof. apply vgg_net_shape_eq. Qed.

(** X5.  The network of the CNN notebook takes a sample exactly when its
    height and width are at least 16, and then gives [num_outputs]
    scores. *)
Theorem cnn_net_input_size c h w :
  output_shape cnn_net [c; h; w] =
  if (16 <=? h)%nat && (16 <=? w)%nat then Some [num_outputs] else None.
Proof.
  unfold cnn_net.
  rewrite through_cons, Conv2D_shape.
  destruct (Nat.leb_spec 16 h), (Nat.leb_spec 16 w); cbn [andb];
    repeat (leb_cases; try div_lia; try reflexivity;
            rewrite through_cons, ?Conv2D_shape, ?MaxPool2D_shape).
Qed.

(** X6.  Whatever [transformer] returns for an image fits the VGG
    network: the data has shape [c x 224 x 224] and element type float32
    whatever the size and type of the image were, the network makes
    [num_classes] scores of it, and the label is the one passed in. *)
Theorem transformer_feeds_vgg_net {L} (data data' : image) (label label' : L) :
  transformer data label = Some (data', label') ->
  label' = label
  /\ im_dtype data' = float32
  /\ (exists h w c, im_shape data = [h; w; c] /\ im_shape data' = [c; 224; 224])
  /\ output_shape vgg_net (im_shape data') = Some [num_classes].
Proof.
  unfold transformer, imresize. intros H.
  destruct (im_shape data) as [|h [|w [|c [|? ?]]]] eqn:Hs; try discriminate.
  assert (Hp : transpose {| im_shape := [224; 224; c]; im_dtype := im_dtype data |} [2; 0; 1]
               = Some {| im_shape := [c; 224; 224]; im_dtype := im_dtype data |}).
  { unfold transpose. cbn [im_shape im_dtype length seq map nth].
    rewrite bool_decide_eq_true_2; [reflexivity|].
    change [2; 0; 1] with ([2] ++ [0; 1]). rewrite Permutation_app_comm. reflexivity. }
  rewrite Hp in H. injection H as <- <-. cbn [astype im_shape im_dtype].
  split; [reflexivity|]. split; [reflexivity|]. split.
  - exists h, w, c. split; reflexivity.
  - apply vgg_net_shape_eq.
Qed.

Lemma transformer_feeds_vgg_net_witness :
  let cifar := {| im_shape := [32; 32; 3]; im_dtype := uint8 |} in
  let data' := {| im_shape := [3; 224; 224]; im_dtype := float32 |} in
  transformer cifar 6 = Some (data', 6)
  /\ output_shape vgg_net (im_shape data') = Some [num_classes]
  /\ output_shape vgg_net [3; 32; 32] = None.
Proof.
  intros cifar data'.
  assert (H : transformer cifar 6 = Some (data', 6)).
  { vm_compute. reflexivity. }
  split; [exact H|]. split.
  - apply (transformer_feeds_vgg_net cifar data' 6 6 H).
  - apply vgg_net_shape_eq.
Defined.

End ArchitectureFacts.

(** ** What the statements of the loops leave alone, in general *)

Section LoopFrames.
Context `{Framework} {I : Type} `{!DataIter I}.

Lemma iterate_unchanged {X L} (f : kernel I -> X) src enumerate
    (body : DataBatch -> L -> M I L) pending :
  (forall s, f (map_source src iter_step s) = f s) ->
  (forall v s, f (set_i v s) = f s) ->
  (forall batch acc, unchanged f (body batch acc)) ->
  forall i acc, unchanged f (iterate src enumerate i pending body acc).
Proof.
  intros Hstep Hi Hbody. induction pending as [|batch rest IH]; intros i acc.
  - apply unchanged_ret.
  - cbn [iterate]. apply unchanged_bind.
    { apply unchanged_modify. exact Hstep. }
    intros _. apply unchanged_bind.
    { destruct enumerate; [apply unchanged_modify; apply Hi|apply unchanged_ret]. }
    intros _. apply unchanged_bind; [apply Hbody|]. intros acc'. apply IH.
Qed.

Lemma for_in_unchanged {X L} (f : kernel I -> X) src enumerate
    (body : DataBatch -> L -> M I L) acc :
  (forall s, f (map_source src iter_begin s) = f s) ->
  (forall s, f (map_source src iter_step s) = f s) ->
  (forall v s, f (set_i v s) = f s) ->
  (forall batch acc, unchanged f (body batch acc)) ->
  unchanged f (for_in src enumerate body acc).
Proof.
  intros Hbegin Hstep Hi Hbody. unfold for_in.
  apply unchanged_bind; [apply unchanged_get|]. intros s0.
  apply unchanged_bind; [apply unchanged_modify; exact Hbegin|].
  intros _. now apply iterate_unchanged.
Qed.

Lemma train_batch_unchanged {X} (f : kernel I -> X) prepare net batch u :
  (forall v s, f (set_trace v s) = f s) ->
  (forall v s, f (set_recording v s) = f s) ->
  (forall v s, f (set_grad v s) = f s) ->
  (forall v s, f (set_nets v s) = f s) ->
  (forall v s, f (set_moving_loss v s) = f s) ->
  unchanged f (train_batch prepare net batch u).
Proof.
  intros Ht Hr Hg Hn Hm.
  unfold train_batch, forward, softmax_cross_entropy, backward, trainer_step,
    update_moving_loss, emit.
  repeat first
    [ apply unchanged_bind
    | apply unchanged_lookup
    | apply unchanged_get
    | apply unchanged_call
    | apply unchanged_ret
    | apply unchanged_raise
    | apply unchanged_with_autograd_record; [exact Hr|]
    | apply unchanged_modify; intros ?;
      first [apply Ht | apply Hg | apply Hn | apply Hm]
    | match goal with
      | |- unchanged _ (match ?x with _ => _ end) => destruct x
      | |- unchanged _ (if ?x then _ else _) => destruct x
      end
    | intro ].
Qed.

Lemma evaluate_batch_unchanged {X} (f : kernel I -> X) prepare net batch acc :
  (forall v s, f (set_trace v s) = f s) ->
  (forall v s, f (set_nets v s) = f s) ->
  unchanged f (evaluate_batch prepare net batch acc).
Proof.
  intros Ht Hn. unfold evaluate_batch, forward, emit.
  repeat first
    [ apply unchanged_parameters; exact Hn
    | apply unchanged_bind
    | apply unchanged_lookup
    | apply unchanged_get
    | apply unchanged_call
    | apply unchanged_modify; intros ?; apply Ht
    | intro ].
Qed.

End LoopFrames.

(** ** What a training run does to the parameters *)

Section GradientDescent.
Context `{Framework}.

Lemma train_batch_sgd {I} `{!DataIter I} prepare net batch (s s' : kernel I) p :
  k_nets s !! net = Some p ->
  train_batch prepare net batch tt s = (Ok tt, s') ->
  exists p', sgd_step prepare p batch = Some p' /\
             k_nets s' = <[net := p']> (k_nets s).
Proof.
  intros Hnet E. rewrite train_batch_run in E. cbv zeta in E.
  rewrite (parameters_of_initialised _ _ _ _ Hnet),
          (with_parameters_initialised _ _ _ _ Hnet) in E.
  destruct (net_forward p _) as [output|x]; [|discriminate].
  destruct (loss_fn output _) as [v|x]; [|discriminate].
  unfold sgd_step.
  destruct (autograd_backward p _ _) as [g|x]; [|discriminate].
  destruct (trainer_update p g _) as [p'|x]; [|discriminate].
  exists p'. split; [reflexivity|].
  rewrite update_moving_loss_next in E.
  destruct (next_moving_loss _ _) as [m|x]; [|discriminate].
  injection E as <-. reflexivity.
Qed.

Lemma enter_iteration_nets {I} `{!DataIter I} src enumerate i (s : kernel I) :
  k_nets (enter_iteration src enumerate i s) = k_nets s.
Proof. unfold enter_iteration. now destruct enumerate, src. Qed.

Lemma sgd_pass_cons prepare b batches p :
  sgd_pass prepare (b :: batches) p =
  match sgd_step prepare p b with
  | Some p' => sgd_pass prepare batches p'
  | None => None
  end.
Proof.
  unfold sgd_pass. cbn [fold_left].
  destruct (sgd_step prepare p b); [reflexivity|].
  induction batches; [reflexivity|assumption].
Qed.

Lemma iterate_train_sgd {I} `{!DataIter I} prepare net src enumerate pending :
  forall i (s s' : kernel I) p,
  k_nets s !! net = Some p ->
  iterate src enumerate i pending (train_batch prepare net) tt s = (Ok tt, s') ->
  exists p', sgd_pass prepare pending p = Some p' /\
             k_nets s' = <[net := p']> (k_nets s).
Proof.
  induction pending as [|batch rest IH]; intros i s s' p Hnet E.
  - injection E as <-. exists p. split; [reflexivity|].
    now rewrite insert_id.
  - rewrite iterate_cons in E.
    apply bind_inv_ok in E as ([] & s1 & Hbatch & Hrest).
    pose proof (enter_iteration_nets src enumerate i s) as Hn0.
    apply (train_batch_sgd prepare net batch _ s1 p) in Hbatch as (p1 & Hstep & Hn1);
      [|now rewrite Hn0].
    apply (IH (S i) s1 s' p1) in Hrest as (p' & Hpass & Hn');
      [|rewrite Hn1; apply lookup_insert_eq].
    exists p'. rewrite sgd_pass_cons, Hstep. split; [exact Hpass|].
    now rewrite Hn', Hn1, Hn0, insert_insert_eq.
Qed.

Lemma mnist_evaluate_accuracy_unchanged {X} (f : kernel NDArrayIter -> X)
    prepare src net :
  (forall s, f (map_source src NDArrayIter_reset s) = f s) ->
  (forall s, f (map_source src iter_step s) = f s) ->
  (forall v s, f (set_i v s) = f s) ->
  (forall v s, f (set_trace v s) = f s) ->
  (forall v s, f (set_nets v s) = f s) ->
  unchanged f (mnist_evaluate_accuracy prepare src net).
Proof.
  intros Hreset Hstep Hi Ht Hn. unfold mnist_evaluate_accuracy.
  apply unchanged_bind; [apply unchanged_modify; apply Hreset|].
  intros _. apply unchanged_bind; [|intros acc; apply unchanged_ret].
  apply for_in_unchanged; try assumption.
  - intros s. now destruct src, s.
  - intros batch acc. now apply evaluate_batch_unchanged.
Qed.

Lemma lookup_net_ok {I} name (s s' : kernel I) n :
  lookup_net name s = (Ok n, s') -> n = name /\ s' = s.
Proof.
  unfold lookup_net, lookup, bind, get, ret, raise, network.
  destruct (k_nets s !! name), (k_init s !! name); now intros [= <- <-].
Qed.

Lemma print_report_unchanged {I X} (f : kernel I -> X) train_accuracy test_accuracy :
  (forall v s, f (set_stdout v s) = f s) ->
  unchanged f (print_report train_accuracy test_accuracy).
Proof.
  intros Hout. unfold print_report.
  apply unchanged_bind; [apply unchanged_lookup|intros e].
  apply unchanged_bind; [apply unchanged_lookup|intros moving_loss].
  apply unchanged_modify. intros s. apply Hout.
Qed.

(** What is left of an epoch after its batch loop leaves alone whatever
    the evaluations and [print] do not write. *)
Lemma mnist_epoch_sgd prepare e (s s' : kernel NDArrayIter) p :
  k_nets s !! "net" = Some p ->
  mnist_epoch prepare e s = (Ok tt, s') ->
  exists p',
    sgd_pass prepare (nd_batches (k_train_data s)) p = Some p' /\
    k_nets s' = <["net" := p']> (k_nets s) /\
    nd_batches (k_train_data s') = nd_batches (k_train_data s).
Proof.
  intros Hnet Hrun.
  assert (Hb : unchanged (fun s : kernel NDArrayIter => nd_batches (k_train_data s))
                 (mnist_epoch prepare e)).
  { unfold mnist_epoch.
    apply unchanged_bind; [apply unchanged_modify; reflexivity|intros _].
    apply unchanged_bind.
    { apply for_in_unchanged; try reflexivity.
      intros batch u. apply train_batch_unchanged; reflexivity. }
    intros _. apply unchanged_bind.
    { apply unchanged_bind; [apply unchanged_bind; [apply unchanged_lookup|intro; apply unchanged_ret]|].
      intros net. apply mnist_evaluate_accuracy_unchanged; reflexivity. }
    intros test_accuracy. apply unchanged_bind.
    { apply unchanged_bind; [apply unchanged_bind; [apply unchanged_lookup|intro; apply unchanged_ret]|].
      intros net. apply mnist_evaluate_accuracy_unchanged; reflexivity. }
    intros train_accuracy. apply print_report_unchanged. reflexivity. }
  pose proof (unchanged_ok _ _ _ _ _ Hb Hrun) as Hbatches. cbn beta in Hbatches.
  unfold mnist_epoch in Hrun.
  rewrite (bind_ok _ _ s tt (map_source train_data NDArrayIter_reset s) eq_refl)
    in Hrun.
  apply bind_inv_ok in Hrun as ([] & s1 & Htrain & Hrun).
  apply bind_inv_ok in Hrun as (test_accuracy & s2 & Htest & Hrun).
  apply bind_inv_ok in Hrun as (train_accuracy & s3 & Htrainacc & Hrun).
  apply bind_inv_ok in Htest as (net1 & s1' & Hnet1 & Htest).
  apply bind_inv_ok in Htrainacc as (net2 & s2' & Hnet2 & Htrainacc).
  apply lookup_net_ok in Hnet1 as [-> ->]. apply lookup_net_ok in Hnet2 as [-> ->].
  rewrite for_in_eq in Htrain.
  apply (iterate_train_sgd prepare "net" train_data true _ 0 _ s1 p)
    in Htrain as (p' & Hpass & Hn1); [|exact Hnet].
  exists p'. split; [exact Hpass|]. split; [|exact Hbatches].
  rewrite (unchanged_ok k_nets _ _ _ _
             (print_report_unchanged k_nets _ _ (fun _ _ => eq_refl)) Hrun).
  assert (Hp1 : k_nets s1 !! "net" = Some p')
    by (rewrite Hn1; apply lookup_insert_eq).
  pose proof (mnist_evaluate_accuracy_nets prepare test_data "net" s1 p' Hp1) as Hn2.
  rewrite Htest in Hn2. cbn [snd] in Hn2.
  assert (Hp2 : k_nets s2 !! "net" = Some p') by now rewrite Hn2.
  pose proof (mnist_evaluate_accuracy_nets prepare train_data "net" s2 p' Hp2) as Hn3.
  rewrite Htrainacc in Hn3. cbn [snd] in Hn3.
  now rewrite Hn3, Hn2.
Qed.

Lemma mnist_epochs_sgd prepare n : forall lo (s s' : kernel NDArrayIter) p,
  k_nets s !! "net" = Some p ->
  for_range lo n (mnist_epoch prepare) s = (Ok tt, s') ->
  exists p',
    sgd_epochs prepare (nd_batches (k_train_data s)) n p = Some p' /\
    k_nets s' = <["net" := p']> (k_nets s).
Proof.
  induction n as [|n IH]; intros lo s s' p Hnet Hrun.
  - injection Hrun as <-. exists p. split; [reflexivity|]. now rewrite insert_id.
  - rewrite for_range_S in Hrun.
    apply bind_inv_ok in Hrun as ([] & s1 & Hepoch & Hrest).
    apply (mnist_epoch_sgd prepare lo _ s1 p) in Hepoch as (p1 & Hpass & Hn1 & Hb1);
      [|exact Hnet].
    apply (IH (S lo) s1 s' p1) in Hrest as (p' & Hpasses & Hn');
      [|rewrite Hn1; apply lookup_insert_eq].
    exists p'. cbn [sgd_epochs]. cbn [set_e k_train_data] in Hpass, Hb1.
    rewrite Hpass. rewrite Hb1 in Hpasses. split; [exact Hpasses|].
    rewrite Hn', Hn1. cbn [set_e k_nets]. now rewrite insert_insert_eq.
Qed.

End GradientDescent.



(** ** The range of an accuracy *)

Section AccuracyRange.
Context `{Framework}.

Lemma count_hits_le preds labels : count_hits preds labels <= length preds.
Proof.
  revert labels. induction preds as [|p preds IH]; intros [|l labels]; cbn; try lia.
  specialize (IH labels). destruct (Nat.eqb p l); lia.
Qed.

Lemma Accuracy_update_counts preds labels acc acc' :
  Accuracy_update preds labels acc = Ok acc' ->
  sum_metric acc <= num_inst acc ->
  sum_metric acc' <= num_inst acc' /\
  num_inst acc' = num_inst acc + length labels.
Proof.
  unfold Accuracy_update.
  destruct (Nat.eqb_spec (length labels) (length preds)) as [Hlen|]; [|discriminate].
  intros [= <-] Hle. cbn [sum_metric num_inst].
  pose proof (count_hits_le preds labels). lia.
Qed.

Lemma iterate_evaluate_counts {I} `{!DataIter I} prepare net src pending :
  forall i acc (s : kernel I) acc' s',
  iterate src false i pending (evaluate_batch prepare net) acc s = (Ok acc', s') ->
  sum_metric acc <= num_inst acc ->
  sum_metric acc' <= num_inst acc' /\
  num_inst acc' = num_inst acc + length (labels_of pending).
Proof.
  induction pending as [|batch rest IH]; intros i acc s acc' s' E Hle.
  - injection E as <- <-. cbn. lia.
  - rewrite iterate_cons in E.
    apply bind_inv_ok in E as (acc1 & s1 & Hbatch & Hrest).
    rewrite evaluate_batch_run in Hbatch. cbv zeta in Hbatch.
    destruct (parameters_of net _ _) as [p|]; [|discriminate].
    destruct (net_forward p _) as [output|x]; [|discriminate].
    injection Hbatch as Hup _.
    apply Accuracy_update_counts in Hup as [Hle1 Hn1]; [|exact Hle].
    apply IH in Hrest as [Hle' Hn']; [|exact Hle1].
    split; [exact Hle'|].
    unfold labels_of in *. cbn [map concat]. rewrite length_app. lia.
Qed.

Lemma ratio_range c n :
  c <= n ->
  (n = 0 -> ratio c n = acc_nan) /\
  (0 < n -> exists q, ratio c n = acc_ratio q /\ (0 <= q)%Q /\ (q <= 1)%Q).
Proof.
  intros Hle. split.
  - now intros ->.
  - intros Hn. destruct n as [|n]; [lia|].
    eexists. split; [reflexivity|].
    unfold Qle. cbn [Qnum Qden]. split; [lia|].
    rewrite Z.mul_1_r, Z.mul_1_l.
    rewrite <- Pos.of_nat_succ, Zpos_P_of_succ_nat. lia.
Qed.

Lemma for_in_evaluate_range {I} `{!DataIter I} prepare net src (s : kernel I) acc s' :
  for_in src false (evaluate_batch prepare net) Accuracy_new s = (Ok acc, s') ->
  let n := length (labels_of (iter_pending (the_source src s))) in
  (n = 0 -> Accuracy_get acc = acc_nan) /\
  (0 < n -> exists q, Accuracy_get acc = acc_ratio q /\ (0 <= q)%Q /\ (q <= 1)%Q).
Proof.
  intros E n. rewrite for_in_eq in E.
  apply iterate_evaluate_counts in E as [Hle Hn]; [|cbn; lia].
  cbn [Accuracy_new num_inst Nat.add] in Hn. fold n in Hn.
  unfold Accuracy_get. rewrite Hn in *. now apply ratio_range.
Qed.

Lemma mnist_evaluate_accuracy_range prepare src net (s : kernel NDArrayIter) v s' :
  mnist_evaluate_accuracy prepare src net s = (Ok v, s') ->
  let n := length (labels_of (nd_batches (the_source src s))) in
  (n = 0 -> v = acc_nan) /\
  (0 < n -> exists q, v = acc_ratio q /\ (0 <= q)%Q /\ (q <= 1)%Q).
Proof.
  intros E. unfold mnist_evaluate_accuracy in E.
  rewrite (bind_ok _ _ s tt (map_source src NDArrayIter_reset s) eq_refl) in E.
  apply bind_inv_ok in E as (acc & s1 & Hloop & Hret).
  injection Hret as <- _.
  apply for_in_evaluate_range in Hloop.
  now destruct src.
Qed.

End AccuracyRange.

(** X9.  The value that [evaluate_accuracy] returns is NaN when the pass it
    made has no sample, and otherwise a number between 0 and 1; this for
    the function of each of the three notebooks, whatever the network
    answers. *)
Theorem evaluate_accuracy_range `{Framework} :
  (forall src net (s : kernel NDArrayIter) v s',
     CNN.evaluate_accuracy src net s = (Ok v, s') ->
     let n := length (labels_of (nd_batches (the_source src s))) in
     (n = 0 -> v = acc_nan) /\
     (0 < n -> exists q, v = acc_ratio q /\ (0 <= q)%Q /\ (q <= 1)%Q)) /\
  (forall src net (s : kernel NDArrayIter) v s',
     Softmax.evaluate_accuracy src net s = (Ok v, s') ->
     let n := length (labels_of (nd_batches (the_source src s))) in
     (n = 0 -> v = acc_nan) /\
     (0 < n -> exists q, v = acc_ratio q /\ (0 <= q)%Q /\ (q <= 1)%Q)) /\
  (forall src net (s : kernel DataLoader) v s',
     VGG.evaluate_accuracy src net s = (Ok v, s') ->
     let n := length (labels_of (iter_pending (the_source src s))) in
     (n = 0 -> v = acc_nan) /\
     (0 < n -> exists q, v = acc_ratio q /\ (0 <= q)%Q /\ (q <= 1)%Q)).
Proof.
  split; [|split].
  - intros src net s v s' E. now apply (mnist_evaluate_accuracy_range id src net s v s').
  - intros src net s v s' E.
    now apply (mnist_evaluate_accuracy_range (map reshape784) src net s v s').
  - intros src net s v s' E. unfold VGG.evaluate_accuracy in E.
    apply bind_inv_ok in E as (acc & s1 & Hloop & Hret).
    injection Hret as <- _.
    now apply for_in_evaluate_range in Hloop.
Qed.

Lemma evaluate_accuracy_range_witness :
  let s := fresh_kernel (H:=Toy.framework) "vgg_net" 1%Z Toy.dl_train Toy.dl_test in
  fst (VGG.evaluate_accuracy train_data "vgg_net" s) = Ok (acc_ratio (3 # 4)) /\
  (0 < length (labels_of (H:=Toy.framework) Toy.train_batches) ->
   exists q, acc_ratio (3 # 4) = acc_ratio q /\ (0 <= q)%Q /\ (q <= 1)%Q).
Proof.
  intros s.
  assert (Hrun : fst (VGG.evaluate_accuracy train_data "vgg_net" s)
                 = Ok (acc_ratio (3 # 4))) by (vm_compute; reflexivity).
  split; [exact Hrun|].
  exact (proj2 (proj2 (proj2 (evaluate_accuracy_range (H:=Toy.framework)))
                  train_data "vgg_net" s _ _ (run_with_outcome _ s _ Hrun))).
Defined.

(** ** The iterator after an evaluation *)

Section Exhaustion.
Context `{Framework}.

(** An NDArrayIter whose cursor has moved on by [k] batches. *)
Lemma iterate_cursor {L} src enumerate (body : DataBatch -> L -> M NDArrayIter L)
    pending :
  (forall batch acc, unchanged (the_source src) (body batch acc)) ->
  forall i acc s acc' s',
  iterate src enumerate i pending body acc s = (Ok acc', s') ->
  nd_batches (the_source src s') = nd_batches (the_source src s) /\
  nd_cursor (the_source src s') = nd_cursor (the_source src s) + length pending.
Proof.
  intros Hbody. induction pending as [|batch rest IH]; intros i acc s acc' s' E.
  - injection E as _ <-. split; [reflexivity|cbn; lia].
  - rewrite iterate_cons in E.
    apply bind_inv_ok in E as (acc1 & s1 & Hbatch & Hrest).
    apply (unchanged_ok _ _ _ _ _ (Hbody batch acc)) in Hbatch.
    apply IH in Hrest as [Hb Hc]. rewrite Hb, Hc, Hbatch.
    unfold enter_iteration.
    destruct enumerate, src; (split; [reflexivity|cbn; lia]).
Qed.

Lemma the_other_source src src' (g : NDArrayIter -> NDArrayIter)
    (s : kernel NDArrayIter) :
  src' <> src -> the_source src' (map_source src g s) = the_source src' s.
Proof. destruct src, src'; intros Hne; try reflexivity; contradiction. Qed.

Lemma for_in_exhausted {L} src enumerate (body : DataBatch -> L -> M NDArrayIter L)
    acc (s : kernel NDArrayIter) :
  iter_pending (the_source src s) = [] ->
  for_in src enumerate body acc s = (Ok acc, s).
Proof.
  intros Hp. rewrite for_in_eq, Hp. cbn. now destruct src, s.
Qed.

Lemma mnist_evaluate_accuracy_exhausts prepare src net (s : kernel NDArrayIter) v s' :
  mnist_evaluate_accuracy prepare src net s = (Ok v, s') ->
  the_source src s' =
    {| nd_batches := nd_batches (the_source src s);
       nd_cursor := length (nd_batches (the_source src s)) |} /\
  (forall src', src' <> src -> the_source src' s' = the_source src' s).
Proof.
  intros E. split.
  - unfold mnist_evaluate_accuracy in E.
    rewrite (bind_ok _ _ s tt (map_source src NDArrayIter_reset s) eq_refl) in E.
    apply bind_inv_ok in E as (acc & s1 & Hloop & Hret).
    injection Hret as _ <-.
    rewrite for_in_eq in Hloop.
    apply iterate_cursor in Hloop as [Hb Hc].
    2:{ intros batch a. apply evaluate_batch_unchanged; intros ? t; now destruct src. }
    destruct (the_source src s1) as [bs c]. cbn [nd_batches nd_cursor] in *.
    rewrite Hb, Hc. clear. destruct src; cbn; now rewrite length_drop, Nat.sub_0_r.
  - intros src' Hne.
    apply (unchanged_ok (the_source src') _ _ _ _
             (mnist_evaluate_accuracy_unchanged (the_source src') prepare src net
                (fun t => the_other_source src src' _ t Hne)
                (fun t => the_other_source src src' _ t Hne)
                (fun i t => ltac:(now destruct src'))
                (fun ev t => ltac:(now destruct src'))
                (fun v t => ltac:(now destruct src'))) E).
Qed.

Lemma pending_at_end bs :
  iter_pending (I:=NDArrayIter) {| nd_batches := bs; nd_cursor := length bs |} = [].
Proof. cbn. apply drop_all. Qed.

(** The outcome of an evaluation loop is a function of the batches, the
    accumulator, the parameter store and the initialisations still to be
    made. *)
Lemma iterate_evaluate_determined {I} `{!DataIter I} prepare net src pending :
  forall i1 i2 acc (s1 s2 : kernel I),
  k_nets s1 = k_nets s2 -> k_init s1 = k_init s2 ->
  fst (iterate src false i1 pending (evaluate_batch prepare net) acc s1) =
  fst (iterate src false i2 pending (evaluate_batch prepare net) acc s2).
Proof.
  induction pending as [|batch rest IH]; intros i1 i2 acc s1 s2 Hn Hi;
    [reflexivity|].
  rewrite !iterate_cons. unfold bind. rewrite !evaluate_batch_run. cbv zeta.
  set (data := prepare (b_data batch)).
  set (t1 := enter_iteration src false i1 s1).
  set (t2 := enter_iteration src false i2 s2).
  assert (Hn' : k_nets t1 = k_nets t2)
    by (subst t1 t2; now rewrite !(enter_iteration_nets (I:=I))).
  assert (Hi' : k_init t1 = k_init t2)
    by (subst t1 t2; now rewrite !(enter_iteration_init (I:=I))).
  destruct (with_parameters_congr net data t1 t2 Hn' Hi') as [-> Hw].
  destruct (parameters_of net data t2) as [p|]; [|reflexivity].
  destruct (net_forward p data) as [output|x]; [|reflexivity].
  destruct (Accuracy_update _ _ acc) as [acc'|x]; [|reflexivity].
  apply IH.
  - exact Hw.
  - cbn. now rewrite !(with_parameters_frame k_init) by reflexivity.
Qed.

(** The two stores after an evaluation loop, whatever its outcome. *)
Lemma iterate_evaluate_stores {I} `{!DataIter I} prepare net src pending i acc
    (s : kernel I) :
  let s' := snd (iterate src false i pending (evaluate_batch prepare net) acc s) in
  k_nets s' = k_nets (match first_data prepare pending with
                      | Some data => with_parameters net data s
                      | None => s
                      end) /\
  k_init s' = k_init s.
Proof.
  cbv zeta. split.
  2:{ apply (iterate_unchanged k_init); try (intros; now destruct src).
      intros batch a. now apply evaluate_batch_unchanged. }
  destruct pending as [|batch rest]; [reflexivity|].
  rewrite iterate_cons. cbn [first_data].
  set (data := prepare (b_data batch)).
  set (t := enter_iteration src false i s).
  assert (Hn : k_nets t = k_nets s) by apply enter_iteration_nets.
  assert (Hi : k_init t = k_init s) by apply enter_iteration_init.
  destruct (with_parameters_congr net data t s Hn Hi) as [Hp Hw].
  unfold bind. rewrite evaluate_batch_run. cbv zeta. fold data.
  destruct (parameters_of net data t) as [p|] eqn:Ep.
  2:{ destruct (parameters_of_unbound _ _ _ Ep) as (_ & _ & Ew).
      cbn [snd]. now rewrite <- Hw, Ew. }
  set (t1 := log (EvForward net (k_recording t) (length data))
                 (with_parameters net data t)).
  assert (Hn1 : k_nets t1 = k_nets (with_parameters net data s)) by exact Hw.
  assert (Hp1 : k_nets t1 !! net = Some p)
    by (subst t1; cbn; now apply with_parameters_nets).
  destruct (net_forward p data) as [output|x]; [|exact Hn1].
  destruct (Accuracy_update _ _ acc) as [acc'|x]; [|exact Hn1].
  now rewrite (iterate_evaluate_nets _ _ _ _ _ _ _ p Hp1).
Qed.

(** An evaluation loop has the outcome that it has once the first batch
    has finished the initialisation of the network. *)
Lemma iterate_evaluate_started {I} `{!DataIter I} prepare net src pending i1 i2 acc
    (s1 s2 : kernel I) :
  k_nets s2 = k_nets (match first_data prepare pending with
                      | Some data => with_parameters net data s1
                      | None => s1
                      end) ->
  k_init s2 = k_init s1 ->
  fst (iterate src false i1 pending (evaluate_batch prepare net) acc s1) =
  fst (iterate src false i2 pending (evaluate_batch prepare net) acc s2).
Proof.
  intros Hn Hi. destruct pending as [|batch rest]; [reflexivity|].
  cbn [first_data] in Hn. rewrite !iterate_cons.
  set (data := prepare (b_data batch)) in *.
  set (t1 := enter_iteration src false i1 s1).
  set (t2 := enter_iteration src false i2 s2).
  assert (Hn1 : k_nets t1 = k_nets s1) by apply enter_iteration_nets.
  assert (Hi1 : k_init t1 = k_init s1) by apply enter_iteration_init.
  assert (Hn2 : k_nets t2 = k_nets (with_parameters net data s1))
    by (subst t2; now rewrite (enter_iteration_nets (I:=I))).
  assert (Hi2 : k_init t2 = k_init (with_parameters net data s1)).
  { subst t2. rewrite (enter_iteration_init (I:=I)), Hi.
    symmetry. now apply with_parameters_frame. }
  destruct (with_parameters_congr net data t1 s1 Hn1 Hi1) as [Hp1 Hw1].
  destruct (with_parameters_congr net data t2 _ Hn2 Hi2) as [Hp2 Hw2].
  destruct (with_parameters_idem net data s1) as [Hp Hw].
  rewrite Hp in Hp2. rewrite Hw in Hw2.
  unfold bind. rewrite !evaluate_batch_run. cbv zeta. fold data.
  rewrite Hp1, Hp2.
  destruct (parameters_of net data s1) as [p|]; [|reflexivity].
  destruct (net_forward p data) as [output|x]; [|reflexivity].
  destruct (Accuracy_update _ _ acc) as [acc'|x]; [|reflexivity].
  apply iterate_evaluate_determined.
  - change (k_nets (with_parameters net data t1) =
            k_nets (with_parameters net data t2)). congruence.
  - change (k_init (with_parameters net data t1) =
            k_init (with_parameters net data t2)).
    rewrite !(with_parameters_frame k_init) by reflexivity.
    rewrite Hi2. rewrite (with_parameters_frame k_init) by reflexivity.
    exact Hi1.
Qed.

Lemma mnist_evaluate_accuracy_again prepare src net (s : kernel NDArrayIter) :
  fst (mnist_evaluate_accuracy prepare src net
         (snd (mnist_evaluate_accuracy prepare src net s))) =
  fst (mnist_evaluate_accuracy prepare src net s).
Proof.
  set (s' := snd (mnist_evaluate_accuracy prepare src net s)).
  assert (Hb : nd_batches (the_source src s') = nd_batches (the_source src s)).
  { apply (mnist_evaluate_accuracy_unchanged
             (fun s => nd_batches (the_source src s)));
      intros; now destruct src. }
  set (pending := nd_batches (the_source src s)) in *.
  set (t := map_source src iter_begin (map_source src NDArrayIter_reset s)).
  set (t' := map_source src iter_begin (map_source src NDArrayIter_reset s')).
  assert (Hrun : forall u : kernel NDArrayIter,
             mnist_evaluate_accuracy prepare src net u =
             bind (iterate src false 0 (nd_batches (the_source src u))
                     (evaluate_batch prepare net) Accuracy_new)
                  (fun acc => ret (Accuracy_get acc))
                  (map_source src iter_begin (map_source src NDArrayIter_reset u))).
  { intros u. unfold mnist_evaluate_accuracy.
    rewrite (bind_ok _ _ u tt (map_source src NDArrayIter_reset u) eq_refl).
    unfold bind. rewrite for_in_eq.
    now replace (iter_pending (the_source src (map_source src NDArrayIter_reset u)))
      with (nd_batches (the_source src u)) by now destruct src. }
  assert (Hs' : k_nets s' = k_nets (match first_data prepare pending with
                                    | Some data => with_parameters net data t
                                    | None => t
                                    end) /\
                k_init s' = k_init t).
  { subst s'. rewrite Hrun. fold pending t.
    destruct (iterate_evaluate_stores prepare net src pending 0 Accuracy_new t)
      as [Hn Hi].
    unfold bind.
    destruct (iterate src false 0 pending (evaluate_batch prepare net) Accuracy_new t)
      as [[acc|x] u]; cbn [fst snd] in *; now split. }
  destruct Hs' as [Hn Hi].
  rewrite !Hrun. fold s'. rewrite Hb. fold pending t t'.
  assert (Hfst : fst (iterate src false 0 pending (evaluate_batch prepare net)
                        Accuracy_new t) =
                 fst (iterate src false 0 pending (evaluate_batch prepare net)
                        Accuracy_new t')).
  { apply iterate_evaluate_started.
    - subst t'. transitivity (k_nets s'); [now destruct src|exact Hn].
    - subst t'. transitivity (k_init s'); [now destruct src|exact Hi]. }
  unfold bind.
  destruct (iterate src false 0 pending (evaluate_batch prepare net) Accuracy_new t)
    as [r u];
    destruct (iterate src false 0 pending (evaluate_batch prepare net) Accuracy_new t')
    as [r' u'].
  cbn [fst] in Hfst. subst r'. now destruct r.
Qed.

End Exhaustion.

(** X10.  A call of [evaluate_accuracy] of the CNN or softmax notebook
    that returns leaves the iterator it went over at its end, with the
    batches it had: a [for] over that iterator then finds no batch and
    leaves everything as it is, until [reset()] is called.  The other
    iterator is not touched. *)
Theorem evaluate_accuracy_exhausts_iterator `{Framework} :
  forall prepare src net (s : kernel NDArrayIter) v s',
    mnist_evaluate_accuracy prepare src net s = (Ok v, s') ->
    nd_batches (the_source src s') = nd_batches (the_source src s) /\
    iter_pending (the_source src s') = [] /\
    (forall L enumerate (body : DataBatch -> L -> M NDArrayIter L) acc,
       for_in src enumerate body acc s' = (Ok acc, s')) /\
    iter_pending (the_source src (map_source src NDArrayIter_reset s'))
      = nd_batches (the_source src s) /\
    (forall src', src' <> src -> the_source src' s' = the_source src' s).
Proof.
  intros prepare src net s v s' E.
  apply mnist_evaluate_accuracy_exhausts in E as [Hsrc Hother].
  assert (Hp : iter_pending (the_source src s') = [])
    by (rewrite Hsrc; apply pending_at_end).
  split; [now rewrite Hsrc|]. split; [exact Hp|].
  split; [intros; now apply for_in_exhausted|].
  split; [|exact Hother].
  destruct src; cbn in *; now rewrite Hsrc.
Qed.

Lemma evaluate_accuracy_exhausts_iterator_witness :
  let s := fresh_kernel (H:=Toy.framework) "net" 1%Z Toy.nd_train Toy.nd_test in
  let s' := snd (CNN.evaluate_accuracy test_data "net" s) in
  fst (CNN.evaluate_accuracy test_data "net" s) = Ok (acc_ratio (1 # 2)) /\
  iter_pending (H:=Toy.framework) (the_source test_data s') = [] /\
  the_source train_data s' = the_source train_data s.
Proof.
  intros s s'.
  assert (Hrun : fst (CNN.evaluate_accuracy test_data "net" s)
                 = Ok (acc_ratio (1 # 2))) by (vm_compute; reflexivity).
  split; [exact Hrun|].
  destruct (evaluate_accuracy_exhausts_iterator (H:=Toy.framework)
              id test_data "net" s _ _ (run_with_outcome _ s _ Hrun))
    as (_ & Hp & _ & _ & Hother).
  split; [exact Hp|]. apply Hother. discriminate.
Defined.

(** X11.  [evaluate_accuracy] of the CNN and softmax notebooks can be
    asked again: called a second time right after the first, on the same
    iterator and network, it has the same outcome, the same accuracy or
    the same exception. *)
Theorem evaluate_accuracy_repeatable `{Framework} :
  (forall src net (s : kernel NDArrayIter),
     fst (CNN.evaluate_accuracy src net (snd (CNN.evaluate_accuracy src net s)))
     = fst (CNN.evaluate_accuracy src net s)) /\
  (forall src net (s : kernel NDArrayIter),
     fst (Softmax.evaluate_accuracy src net
            (snd (Softmax.evaluate_accuracy src net s)))
     = fst (Softmax.evaluate_accuracy src net s)).
Proof.
  split; intros src net s; apply mnist_evaluate_accuracy_again.
Qed.

(** ** The batches that the batch loop of an epoch goes over *)

Section EpochPass.
Context `{Framework}.

Lemma iterate_notes {I} `{!DataIter I} src enumerate pending :
  forall i seen (s : kernel I),
  fst (iterate src enumerate i pending
         (fun batch seen => ret (seen ++ [batch])) seen s)
  = Ok (seen ++ pending).
Proof.
  induction pending as [|batch rest IH]; intros i seen s.
  - cbn. now rewrite app_nil_r.
  - rewrite iterate_cons. unfold bind, ret. cbn [fst snd].
    rewrite IH. now rewrite <- app_assoc.
Qed.

(** A [for] over a data source hands to its body the batches that are
    pending in the source, each once, in their order. *)
Lemma batches_met_pending {I} `{!DataIter I} src enumerate (s : kernel I) :
  batches_met src enumerate s = iter_pending (the_source src s).
Proof.
  unfold batches_met. rewrite for_in_eq. now rewrite iterate_notes.
Qed.

(** The batch loop of the CNN and softmax cells leaves the iterator at its
    end. *)
Lemma for_in_train_exhausts prepare net (s s1 : kernel NDArrayIter) :
  nd_cursor (k_train_data s) = 0 ->
  for_in train_data true (train_batch prepare net) tt s = (Ok tt, s1) ->
  iter_pending (k_train_data s1) = [].
Proof.
  intros Hc E. rewrite for_in_eq in E.
  apply (iterate_cursor train_data) in E as [Hb Hn].
  2:{ intros batch u. apply train_batch_unchanged; reflexivity. }
  cbn [the_source map_source set_train_data k_train_data iter_begin
       NDArrayIter_iter iter_pending] in *.
  rewrite Hc, drop_0 in Hn. destruct (k_train_data s1) as [bs c].
  cbn [nd_batches nd_cursor] in *. subst bs c. cbn. apply drop_all.
Qed.

(** The batch loop of the VGG cell leaves the loader ready for its next
    pass. *)
Lemma vgg_for_in_train_data {L} (body : DataBatch -> L -> M DataLoader L) acc
    (s s1 : kernel DataLoader) r :
  (forall batch acc, unchanged (k_train_data (I:=DataLoader)) (body batch acc)) ->
  for_in train_data false body acc s = (r, s1) ->
  k_train_data s1 =
    {| dl_pass := dl_pass (k_train_data s);
       dl_started := S (dl_started (k_train_data s)) |}.
Proof.
  intros Hbody E. rewrite for_in_eq in E.
  assert (Hu : unchanged (k_train_data (I:=DataLoader))
                 (iterate train_data false 0 (iter_pending (the_source train_data s))
                    body acc)).
  { apply iterate_unchanged; [reflexivity|reflexivity|exact Hbody]. }
  rewrite (unchanged_ok _ _ _ _ _ Hu E). reflexivity.
Qed.

(** Where [i] is not bound, the batch loop of the VGG cell does not get
    through a batch. *)
Lemma vgg_for_in_stops (s : kernel DataLoader) :
  k_i s = None -> iter_pending (k_train_data s) <> [] ->
  fst (for_in train_data false (train_batch id "vgg_net") tt s) <> Ok tt.
Proof.
  intros Hi Hne. rewrite for_in_eq. cbn [the_source].
  destruct (iter_pending (k_train_data s)) as [|batch rest]; [contradiction|].
  rewrite iterate_cons.
  destruct (train_batch_needs_i id "vgg_net" batch
              (enter_iteration train_data false 0
                 (map_source train_data iter_begin s)) Hi)
    as (x & s' & E & _).
  unfold bind. now rewrite E.
Qed.

End EpochPass.




(** ** The training cells on an empty training set *)

Section EmptyTrainingSet.
Context `{Framework}.

Lemma mnist_evaluate_accuracy_besides_cursors prepare src net
    (s : kernel NDArrayIter) p r s' :
  k_nets s !! net = Some p ->
  mnist_evaluate_accuracy prepare src net s = (r, s') ->
  besides_cursors s' = besides_cursors s.
Proof.
  intros Hp E.
  pose proof (mnist_evaluate_accuracy_nets prepare src net s p Hp) as Hn.
  pose proof (mnist_evaluate_accuracy_unchanged
                (fun s : kernel NDArrayIter =>
                   (k_grad s, k_recording s, k_e s, k_moving_loss s, k_stdout s,
                    nd_batches (k_train_data s), nd_batches (k_test_data s)))
                prepare src net
                ltac:(intros; now destruct src) ltac:(intros; now destruct src)
                ltac:(intros; now destruct src) ltac:(intros; now destruct src)
                ltac:(intros; now destruct src) s) as Hr.
  rewrite E in Hn, Hr. cbn [snd] in Hn, Hr. cbn beta in Hr.
  unfold besides_cursors. rewrite Hn. injection Hr as -> -> -> -> -> -> ->.
  reflexivity.
Qed.

Lemma lookup_net_run {I} name (s : kernel I) p :
  k_nets s !! name = Some p -> lookup_net name s = (Ok name, s).
Proof.
  intros Hp. unfold lookup_net, lookup, bind, get, ret, network. now rewrite Hp.
Qed.

Lemma print_report_run {I} train_accuracy test_accuracy (s : kernel I) :
  print_report train_accuracy test_accuracy s =
  match k_e s with
  | None => (Raise (NameError "e"), s)
  | Some e =>
      match k_moving_loss s with
      | None => (Raise (NameError "moving_loss"), s)
      | Some moving_loss =>
          (Ok tt,
           set_stdout (k_stdout s ++
                         [{| r_epoch := e; r_loss := moving_loss;
                             r_train_acc := train_accuracy;
                             r_test_acc := test_accuracy |}]) s)
      end
  end.
Proof.
  unfold print_report, lookup, modify, bind, get, ret, raise.
  destruct (k_e s); [|reflexivity]. now destruct (k_moving_loss s).
Qed.

(** An epoch over no training batch: the two evaluations, then [print]. *)
Lemma mnist_epoch_idle prepare e0 (s : kernel NDArrayIter) p outputs :
  nd_batches (k_train_data s) = [] ->
  k_nets s !! "net" = Some p ->
  answers p prepare (nd_batches (k_test_data s)) outputs ->
  exists s3,
    besides_cursors s3 = besides_cursors s /\
    mnist_epoch prepare e0 s =
    print_report acc_nan (fraction_correct (seen outputs (nd_batches (k_test_data s)))) s3.
Proof.
  intros Hempty Hnet Hans. unfold mnist_epoch.
  rewrite (bind_ok _ _ s tt (map_source train_data NDArrayIter_reset s) eq_refl).
  set (s0 := map_source train_data NDArrayIter_reset s).
  assert (Hloop : for_in train_data true (train_batch prepare "net") tt s0 = (Ok tt, s0)).
  { apply for_in_exhausted. subst s0. cbn. now rewrite Hempty. }
  rewrite (bind_ok _ _ _ _ _ Hloop).
  assert (H0 : besides_cursors s0 = besides_cursors s) by reflexivity.
  assert (Hnet0 : k_nets s0 !! "net" = Some p) by exact Hnet.
  (* the test accuracy *)
  set (test_accuracy := fraction_correct (seen outputs (nd_batches (k_test_data s)))).
  pose proof (mnist_evaluate_accuracy_value prepare test_data "net" s0 p outputs
                Hnet0 Hans) as Htest.
  apply run_with_outcome in Htest.
  pose proof (mnist_evaluate_accuracy_besides_cursors prepare test_data "net"
                _ p _ _ Hnet0 Htest) as H1.
  remember (snd (mnist_evaluate_accuracy prepare test_data "net" s0)) as s1 eqn:Es1.
  clear Es1.
  rewrite (bind_ok _ _ s0 test_accuracy s1).
  2:{ now rewrite (bind_ok _ _ _ _ _ (lookup_net_run "net" s0 p Hnet0)). }
  (* the train accuracy *)
  assert (Hnet1 : k_nets s1 !! "net" = Some p).
  { unfold besides_cursors in H1, H0. congruence. }
  assert (Hempty1 : nd_batches (the_source train_data s1) = []).
  { unfold besides_cursors in H1, H0. cbn [the_source]. congruence. }
  pose proof (mnist_evaluate_accuracy_value prepare train_data "net" s1 p []
                Hnet1) as Htrain.
  cbv zeta in Htrain. rewrite Hempty1 in Htrain.
  specialize (Htrain (List.Forall2_nil _)).
  apply run_with_outcome in Htrain.
  pose proof (mnist_evaluate_accuracy_besides_cursors prepare train_data "net"
                _ p _ _ Hnet1 Htrain) as H2.
  remember (snd (mnist_evaluate_accuracy prepare train_data "net" s1)) as s2 eqn:Es2.
  clear Es2.
  rewrite (bind_ok _ _ s1 (fraction_correct (seen [] [])) s2).
  2:{ now rewrite (bind_ok _ _ _ _ _ (lookup_net_run "net" s1 p Hnet1)). }
  exists s2. split; [congruence|reflexivity].
Qed.

Lemma softmax_epochs_idle prepare m outputs p n :
  forall lo (s : kernel NDArrayIter),
  nd_batches (k_train_data s) = [] ->
  k_moving_loss s = Some m ->
  k_nets s !! "net" = Some p ->
  answers p prepare (nd_batches (k_test_data s)) outputs ->
  let test_accuracy :=
    fraction_correct (seen outputs (nd_batches (k_test_data s))) in
  exists s',
    for_range lo n (mnist_epoch prepare) s = (Ok tt, s') /\
    k_stdout s' = k_stdout s ++ map (idle_report m test_accuracy) (seq lo n) /\
    k_nets s' = k_nets s.
Proof.
  induction n as [|n IH]; intros lo s Hempty Hm Hnet Hans test_accuracy.
  - exists s. cbn. now rewrite app_nil_r.
  - rewrite for_range_S.
    destruct (mnist_epoch_idle prepare lo (set_e (Some lo) s) p outputs
                Hempty Hnet Hans) as (s3 & H3 & Hrun).
    rewrite print_report_run in Hrun.
    unfold besides_cursors in H3. cbn [set_e k_nets k_grad k_recording k_e
      k_moving_loss k_stdout k_train_data k_test_data] in H3.
    injection H3 as Hn3 Hg3 Hr3 He3 Hm3 Ho3 Htr3 Hte3.
    rewrite He3, Hm3, Hm in Hrun.
    rewrite (bind_ok _ _ _ _ _ Hrun).
    cbn [set_e k_test_data] in Hrun |- *.
    fold test_accuracy.
    set (s4 := set_stdout _ s3) in *.
    destruct (IH (S lo) s4) as (s' & Hrest & Hout & Hn).
    + cbn. congruence.
    + cbn. congruence.
    + cbn. congruence.
    + cbn [s4 set_stdout k_test_data]. now rewrite Hte3.
    + exists s'. split; [exact Hrest|]. split.
      * rewrite Hout. cbn [s4 set_stdout k_stdout k_test_data].
        rewrite Ho3, Hte3, <- app_assoc. reflexivity.
      * rewrite Hn. cbn. exact Hn3.
Qed.

End EmptyTrainingSet.





(** ** The sizes of the batches *)

Section BatchRows.
Context {A : Type}.
Implicit Type xs : list A.

Lemma nd_getdata_length xs batch_size cursor :
  batch_size <= length xs -> cursor < length xs ->
  length (nd_getdata xs batch_size cursor) = batch_size.
Proof.
  intros Hb Hc. unfold nd_getdata.
  destruct (Nat.leb_spec (cursor + batch_size) (length xs)).
  - rewrite length_take, length_drop. lia.
  - rewrite length_app, length_take, length_drop. lia.
Qed.

Lemma nd_pass_from_rows xs batch_size :
  batch_size <= length xs ->
  forall fuel cursor,
  Forall (fun b => length b = batch_size) (nd_pass_from fuel xs batch_size cursor).
Proof.
  intros Hb. induction fuel as [|fuel IH]; intros cursor; [constructor|].
  cbn [nd_pass_from]. destruct (Nat.ltb_spec cursor (length xs)); [|constructor].
  constructor; [now apply nd_getdata_length|apply IH].
Qed.

Lemma nd_pass_from_count xs batch_size :
  0 < batch_size ->
  forall fuel cursor,
  length xs - cursor <= fuel ->
  length (nd_pass_from fuel xs batch_size cursor) =
  (length xs - cursor + batch_size - 1) / batch_size.
Proof.
  intros Hb. induction fuel as [|fuel IH]; intros cursor Hfuel.
  - cbn. symmetry. apply Nat.div_small. lia.
  - cbn [nd_pass_from]. destruct (Nat.ltb_spec cursor (length xs)).
    + cbn [length]. rewrite IH by lia.
      destruct (Nat.le_gt_cases (cursor + batch_size) (length xs)).
      * replace (length xs - cursor + batch_size - 1)
          with (length xs - (cursor + batch_size) + batch_size - 1 + 1 * batch_size)
          by lia.
        rewrite Nat.div_add by lia. lia.
      * replace (length xs - (cursor + batch_size) + batch_size - 1)
          with (batch_size - 1) by lia.
        rewrite (Nat.div_small (batch_size - 1)) by lia.
        apply (Nat.div_unique _ _ _ (length xs - cursor - 1)); lia.
    + cbn. symmetry. apply Nat.div_small. lia.
Qed.

Lemma BatchSampler_discard_rows xs batch_size :
  0 < batch_size ->
  Forall (fun b => length b = batch_size) (BatchSampler xs batch_size discard) /\
  length (BatchSampler xs batch_size discard) = length xs / batch_size.
Proof.
  intros Hb. unfold BatchSampler.
  destruct (batch_sampler_from_spec batch_size Hb xs []) as (Hcat & Hlast & Hall);
    [cbn; lia|].
  destruct (batch_sampler_from batch_size [] xs) as [out last].
  cbn [fst snd app] in *.
  pose proof (length_concat_uniform out batch_size Hall) as Hlen.
  assert (Hn : length xs = batch_size * length out + length last).
  { rewrite Hcat at 1. rewrite length_app. lia. }
  assert (Hdiv : length xs / batch_size = length out).
  { symmetry. apply (Nat.div_unique _ _ _ (length last)); lia. }
  rewrite Hdiv. destruct last; auto.
Qed.

End BatchRows.

Section BatchRowsOfSources.
Context `{Framework}.

Lemma to_batch_rows (bss : list (list sample)) n :
  Forall (fun b => length b = n) bss -> Forall (rows n) (map to_batch bss).
Proof.
  induction 1 as [|b bss Hb _ IH]; cbn [map]; constructor; [|exact IH].
  unfold rows, to_batch. cbn. now rewrite !length_map.
Qed.

Lemma batch_sizes_rows prepare (batches : list DataBatch) n :
  (forall data, length (prepare data) = length data) ->
  Forall (rows n) batches ->
  batch_sizes prepare batches = repeat n (length batches).
Proof.
  intros Hp. induction 1 as [|b batches [Hb _] _ IH]; [reflexivity|].
  cbn. now rewrite Hp, Hb, <- IH.
Qed.

Lemma concat_batch_events net n k :
  concat (map (batch_events net) (repeat n k)) =
  concat (repeat (batch_events net n) k).
Proof. induction k as [|k IH]; [reflexivity|]. cbn [repeat map concat]. now rewrite IH. Qed.

End BatchRowsOfSources.

Lemma full_batches `{Framework}
    (samples : list sample) (order : nat -> list sample) (batch_size : nat) :
  0 < batch_size <= length samples ->
  let nd := NDArrayIter_new samples batch_size in
  let dl := DataLoader_new order batch_size discard in
  Forall (rows batch_size) (nd_batches nd) /\
  length (nd_batches nd) = (length samples + batch_size - 1) / batch_size /\
  forall k, Forall (rows batch_size) (dl_pass dl k) /\
            length (dl_pass dl k) = length (order k) / batch_size.
Proof.
  intros [Hb Hn] nd dl. subst nd dl. cbn [NDArrayIter_new DataLoader_new nd_batches dl_pass].
  split; [|split].
  - apply to_batch_rows. now apply nd_pass_from_rows.
  - rewrite length_map. unfold nd_pass.
    rewrite nd_pass_from_count by lia. now rewrite Nat.sub_0_r.
  - intros k. destruct (BatchSampler_discard_rows (order k) batch_size Hb) as [Hall Hlen].
    split; [now apply to_batch_rows|now rewrite length_map].
Qed.

(** X14.  Every batch that the data sources of the notebooks hand out has
    exactly [batch_size] rows of data and as many labels, for a training
    set of at least [batch_size] samples: the NDArrayIter of the CNN and
    softmax notebooks makes the number of samples divided by [batch_size],
    rounded up, batches per pass, the last one filled up; the DataLoader
    of the VGG notebook, with [last_batch='discard'], makes that number
    rounded down. *)
Theorem batches_are_full `{Framework}
    (samples : list sample) (order : nat -> list sample) (batch_size : nat) :
  0 < batch_size <= length samples ->
  let nd := NDArrayIter_new samples batch_size in
  let dl := DataLoader_new order batch_size discard in
  Forall (rows batch_size) (nd_batches nd) /\
  length (nd_batches nd) = (length samples + batch_size - 1) / batch_size /\
  forall k, Forall (rows batch_size) (dl_pass dl k) /\
            length (dl_pass dl k) = length (order k) / batch_size.
Proof. apply full_batches. Qed.

Lemma batches_are_full_witness :
  let samples : list (sample (H:=Toy.framework)) :=
    [(10%Z, 0); (20%Z, 1); (30%Z, 0)] in
  let nd := NDArrayIter_new samples 2 in
  let dl := DataLoader_new (fun _ => samples) 2 discard in
  Forall (rows 2) (nd_batches nd) /\
  length (nd_batches nd) = 2 /\
  forall k, Forall (rows 2) (dl_pass dl k) /\ length (dl_pass dl k) = 1.
Proof.
  intros samples nd dl.
  apply (batches_are_full (H:=Toy.framework) samples (fun _ => samples) 2).
  cbn. lia.
Defined.

Lemma sgd_pass_sized_rows `{Framework} prepare n (batches : list DataBatch) :
  (forall data, length (prepare data) = length data) ->
  Forall (rows n) batches ->
  forall p, sgd_pass prepare batches p = sgd_pass_sized n prepare batches p.
Proof.
  intros Hp. induction 1 as [|b batches [Hb _] _ IH]; intros p; [reflexivity|].
  rewrite sgd_pass_cons. unfold sgd_pass_sized. cbn [fold_left].
  assert (Hstep : sgd_step prepare p b = sgd_step_sized n prepare p b).
  { unfold sgd_step, sgd_step_sized. now rewrite Hp, Hb. }
  rewrite <- Hstep. destruct (sgd_step prepare p b) as [p'|].
  - apply IH.
  - clear. induction batches; [reflexivity|assumption].
Qed.



(** ** What an epoch reports *)

Section ReportedAccuracy.
Context `{Framework}.

Lemma for_in_train_sources prepare net (s s' : kernel NDArrayIter) r :
  for_in train_data true (train_batch prepare net) tt s = (r, s') ->
  nd_batches (k_train_data s') = nd_batches (k_train_data s) /\
  k_test_data s' = k_test_data s.
Proof.
  intros E. split.
  - refine (unchanged_ok (fun s : kernel NDArrayIter => nd_batches (k_train_data s))
              _ _ _ _ _ E).
    apply for_in_unchanged; try reflexivity.
    intros batch u. apply train_batch_unchanged; reflexivity.
  - refine (unchanged_ok (k_test_data (I:=NDArrayIter)) _ _ _ _ _ E).
    apply for_in_unchanged; try reflexivity.
    intros batch u. apply train_batch_unchanged; reflexivity.
Qed.

Lemma mnist_epoch_accuracies prepare e0 (s s' : kernel NDArrayIter) e p
    outputs_train outputs_test :
  k_e s = Some e ->
  k_nets s !! "net" = Some p ->
  mnist_epoch prepare e0 s = (Ok tt, s') ->
  exists p' loss,
    sgd_pass prepare (nd_batches (k_train_data s)) p = Some p' /\
    (answers p' prepare (nd_batches (k_train_data s)) outputs_train ->
     answers p' prepare (nd_batches (k_test_data s)) outputs_test ->
     k_stdout s' = k_stdout s ++
       [{| r_epoch := e; r_loss := loss;
           r_train_acc :=
             fraction_correct (seen outputs_train (nd_batches (k_train_data s)));
           r_test_acc :=
             fraction_correct (seen outputs_test (nd_batches (k_test_data s))) |}]).
Proof.
  intros He Hnet Hrun.
  destruct (mnist_epoch_reports prepare e0 s s' e He Hrun)
    as (s1 & s2 & s3 & ta & tr & loss & Htrain & Htest & Htrainacc & _ & Hout).
  destruct (for_in_train_sources _ _ _ _ _ Htrain) as [Hb1 Ht1].
  rewrite for_in_eq in Htrain.
  apply (iterate_train_sgd prepare "net" train_data true _ 0 _ s1 p)
    in Htrain as (p' & Hpass & Hn1); [|exact Hnet].
  exists p', loss. split; [exact Hpass|].
  intros Hans_train Hans_test.
  assert (Hnet1 : k_nets s1 !! "net" = Some p').
  { rewrite Hn1. apply lookup_insert_eq. }
  (* the test accuracy is that of the parameters after the batch loop *)
  assert (Hta : ta = fraction_correct (seen outputs_test (nd_batches (k_test_data s)))).
  { pose proof (mnist_evaluate_accuracy_value prepare test_data "net" s1 p'
                  outputs_test Hnet1) as Hv.
    cbv zeta in Hv. cbn [the_source] in Hv. rewrite Ht1 in Hv.
    specialize (Hv Hans_test). rewrite Htest in Hv. now injection Hv. }
  (* and so is the accuracy on the training data *)
  assert (Htr : tr = fraction_correct (seen outputs_train (nd_batches (k_train_data s)))).
  { pose proof (mnist_evaluate_accuracy_besides_cursors prepare test_data "net"
                  _ p' _ _ Hnet1 Htest) as H2.
    unfold besides_cursors in H2. injection H2 as Hn2 _ _ _ _ _ Hb2 _.
    pose proof (mnist_evaluate_accuracy_value prepare train_data "net" s2 p'
                  outputs_train) as Hv.
    cbv zeta in Hv. cbn [the_source] in Hv.
    rewrite Hn2, Hb2, Hb1 in Hv. cbn [map_source set_train_data k_train_data
      NDArrayIter_reset nd_batches] in Hv.
    specialize (Hv Hnet1 Hans_train). rewrite Htrainacc in Hv. now injection Hv. }
  now rewrite Hout, Hta, Htr.
Qed.

End ReportedAccuracy.



(** ** The loss that an epoch prints *)

Section PrintedLoss.
Context `{Framework}.

Lemma train_batch_keeps_e {I} `{!DataIter I} prepare net batch (s s' : kernel I) r :
  train_batch prepare net batch tt s = (r, s') -> k_e s' = k_e s.
Proof.
  intros E. refine (unchanged_ok k_e _ _ _ _ _ E).
  apply train_batch_unchanged; reflexivity.
Qed.

Lemma enter_iteration_enumerate {I} `{!DataIter I} src i (s : kernel I) :
  k_i (enter_iteration src true i s) = Some i /\
  k_e (enter_iteration src true i s) = k_e s /\
  k_moving_loss (enter_iteration src true i s) = k_moving_loss s.
Proof. unfold enter_iteration. now destruct src. Qed.

Lemma iterate_train_moving_loss {I} `{!DataIter I} prepare net src pending :
  forall i (s s' : kernel I) e p,
  k_e s = Some e ->
  k_nets s !! net = Some p ->
  iterate src true i pending (train_batch prepare net) tt s = (Ok tt, s') ->
  length (pass_losses prepare pending p) = length pending /\
  k_moving_loss s' =
    smoothed (Nat.eqb i 0 && Nat.eqb e 0) (k_moving_loss s)
             (pass_losses prepare pending p).
Proof.
  induction pending as [|batch rest IH]; intros i s s' e p He Hnet E.
  - injection E as <-. now split.
  - rewrite iterate_cons in E.
    apply bind_inv_ok in E as ([] & s1 & Hbatch & Hrest).
    destruct (enter_iteration_enumerate src i s) as (Hi0 & He0 & Hm0).
    pose proof (enter_iteration_nets src true i s) as Hn0.
    rewrite <- He0 in He. rewrite <- Hn0 in Hnet.
    pose proof (train_batch_keeps_e _ _ _ _ _ _ Hbatch) as He1.
    destruct (train_batch_moving_loss prepare net batch _ s1 i e Hi0 He Hbatch)
      as (p0 & output & v & Hp0 & Hfw & Hloss & Hfirst & Hlater & _).
    rewrite (parameters_of_initialised _ _ _ _ Hnet) in Hp0.
    injection Hp0 as <-.
    destruct (train_batch_sgd prepare net batch _ s1 p Hnet Hbatch)
      as (p1 & Hstep & Hn1).
    destruct (IH (S i) s1 s' e p1) as [Hlen Hml];
      [congruence|rewrite Hn1; apply lookup_insert_eq|exact Hrest|].
    cbn [pass_losses]. unfold batch_loss. rewrite Hfw, Hloss, Hstep.
    cbn [length]. split; [now rewrite Hlen|].
    rewrite Hml. cbn [Nat.eqb andb]. rewrite <- Hm0.
    destruct (Nat.eqb_spec i 0) as [->|Hi]; [destruct (Nat.eqb_spec e 0) as [->|Hne]|];
      cbn [andb].
    + rewrite (Hfirst (conj eq_refl eq_refl)).
      cbn [smoothed]. now destruct (pass_losses prepare rest p1).
    + destruct Hlater as (m & Hm & ->); [now right|].
      rewrite Hm. cbn [smoothed fold_left].
      now destruct (pass_losses prepare rest p1).
    + destruct Hlater as (m & Hm & ->); [now left|].
      rewrite Hm. cbn [smoothed fold_left].
      now destruct (pass_losses prepare rest p1).
Qed.

Lemma mnist_epoch_loss prepare e0 (s s' : kernel NDArrayIter) e p :
  k_e s = Some e ->
  k_nets s !! "net" = Some p ->
  mnist_epoch prepare e0 s = (Ok tt, s') ->
  let losses := pass_losses prepare (nd_batches (k_train_data s)) p in
  exists line,
    k_stdout s' = k_stdout s ++ [line] /\
    r_epoch line = e /\
    length losses = length (nd_batches (k_train_data s)) /\
    smoothed (Nat.eqb e 0) (k_moving_loss s) losses = Some (r_loss line) /\
    k_moving_loss s' = Some (r_loss line).
Proof.
  intros He Hnet Hrun losses.
  destruct (mnist_epoch_reports prepare e0 s s' e He Hrun)
    as (_ & _ & _ & ta' & tr' & loss & _ & _ & _ & _ & Hout).
  unfold mnist_epoch in Hrun.
  rewrite (bind_ok _ _ s tt (map_source train_data NDArrayIter_reset s) eq_refl)
    in Hrun.
  apply bind_inv_ok in Hrun as ([] & s1 & Htrain & Hrun).
  apply bind_inv_ok in Hrun as (ta & s2 & Htest & Hrun).
  apply bind_inv_ok in Hrun as (tr & s3 & Htrainacc & Hprint).
  apply bind_inv_ok in Htest as (net1 & s1' & Hnet1 & Htest).
  apply bind_inv_ok in Htrainacc as (net2 & s2' & Hnet2 & Htrainacc).
  apply lookup_net_ok in Hnet1 as [-> ->]. apply lookup_net_ok in Hnet2 as [-> ->].
  assert (Hm2 : k_moving_loss s2 = k_moving_loss s1).
  { refine (unchanged_ok k_moving_loss _ _ _ _ _ Htest).
    apply mnist_evaluate_accuracy_unchanged; reflexivity. }
  assert (Hm3 : k_moving_loss s3 = k_moving_loss s2).
  { refine (unchanged_ok k_moving_loss _ _ _ _ _ Htrainacc).
    apply mnist_evaluate_accuracy_unchanged; reflexivity. }
  rewrite for_in_eq in Htrain.
  destruct (iterate_train_moving_loss prepare "net" train_data _ 0
              (map_source train_data iter_begin
                 (map_source train_data NDArrayIter_reset s)) s1 e p
              He Hnet Htrain) as [Hlen Hs1].
  cbn [Nat.eqb andb] in Hs1.
  rewrite print_report_run in Hprint.
  destruct (k_e s3) as [e3|]; [|discriminate].
  destruct (k_moving_loss s3) as [ml|] eqn:Hml3; [|discriminate].
  injection Hprint as <-. cbn [set_stdout k_stdout k_moving_loss] in Hout |- *.
  apply app_inj_tail in Hout as [Hs3 Hline]. rewrite Hs3.
  eexists. split; [reflexivity|]. cbn [r_epoch r_loss].
  split; [now injection Hline|]. split; [exact Hlen|].
  split; [|exact Hml3].
  symmetry. rewrite Hm3, Hm2, Hs1. reflexivity.
Qed.

End PrintedLoss.



(** ** Two names for one array *)

(** X18.  A second name for the same array sees an in-place write and
    does not see a rebinding.  Let [w] and [u] be bound to one object,
    which holds the array [a], and let [v] hold an array [b] of the shape
    of [a].  Then [u += v] goes through, and after it [w] and [u] are
    still bound to that object and both hold the elementwise sum of [a]
    and [b]; [u = u + v] goes through too, and after it [w] is left on the
    old object, which still holds [a], while [u] is on another object,
    which holds the sum. *)
Theorem second_name_sees_in_place_write `{Framework}
    (st : NDArrayCells.state) (u w v : string) (l : nat)
    (a b : NDArrayCells.NDArray) :
  NDArrayCells.names st !! u = Some l ->
  NDArrayCells.names st !! w = Some l ->
  w <> u ->
  NDArrayCells.store st !! l = Some a ->
  NDArrayCells.value_of v st = Ok b ->
  NDArrayCells.shape a = NDArrayCells.shape b ->
  let sum := {| NDArrayCells.shape := NDArrayCells.shape a;
                NDArrayCells.values :=
                  zip_with fadd (NDArrayCells.values a) (NDArrayCells.values b) |} in
  (exists st', NDArrayCells.iadd u v st = Ok st' /\
     NDArrayCells.id_of w st' = Ok l /\
     NDArrayCells.id_of u st' = Ok l /\
     NDArrayCells.value_of w st' = Ok sum /\
     NDArrayCells.value_of u st' = Ok sum) /\
  (exists st', NDArrayCells.assign_add u u v st = Ok st' /\
     NDArrayCells.id_of w st' = Ok l /\
     NDArrayCells.id_of u st' <> Ok l /\
     NDArrayCells.value_of w st' = Ok a /\
     NDArrayCells.value_of u st' = Ok sum).
Proof.
  intros Hu Hw Hne Ha Hb Hs sum.
  pose proof (value_of_intro u st l a Hu Ha) as Hva.
  pose proof (elementwise_add_same_shape a b Hs) as Hadd. fold sum in Hadd.
  split.
  - eexists. split.
    { unfold NDArrayCells.iadd. rewrite Hu, Hva, Hb, Hadd. reflexivity. }
    unfold NDArrayCells.id_of, NDArrayCells.value_of.
    cbn [NDArrayCells.names NDArrayCells.store].
    rewrite lookup_insert_eq, lookup_insert_ne, Hw by congruence.
    now rewrite lookup_insert_eq.
  - eexists. split.
    { unfold NDArrayCells.assign_add, NDArrayCells.add_expr.
      rewrite Hva, Hb, Hadd. reflexivity. }
    pose proof (fresh_not_stored st l a Ha) as Hfresh.
    unfold NDArrayCells.id_of, NDArrayCells.value_of.
    cbn [NDArrayCells.names NDArrayCells.store NDArrayCells.allocate fst snd].
    rewrite lookup_insert_eq, lookup_insert_ne, Hw by congruence.
    rewrite lookup_insert_eq, lookup_insert_ne, Ha by congruence.
    repeat split; congruence.
Qed.

Lemma second_name_sees_in_place_write_witness :
  let array (v : list Q) : NDArrayCells.NDArray (H:=Toy.framework) :=
    NDArrayCells.Build_NDArray (H:=Toy.framework) [2] v in
  let st : NDArrayCells.state (H:=Toy.framework) :=
    {| NDArrayCells.names := <["x" := 0]> (<["w" := 0]> (<["y" := 1]> ∅));
       NDArrayCells.store :=
         <[0 := array [1; 2]%Q]> (<[1 := array [10; 20]%Q]> ∅) |} in
  (exists st', NDArrayCells.iadd "x" "y" st = Ok st' /\
     NDArrayCells.id_of "w" st' = Ok 0 /\
     NDArrayCells.id_of "x" st' = Ok 0 /\
     NDArrayCells.value_of "w" st' = Ok (array [11; 22]%Q) /\
     NDArrayCells.value_of "x" st' = Ok (array [11; 22]%Q)) /\
  (exists st', NDArrayCells.assign_add "x" "x" "y" st = Ok st' /\
     NDArrayCells.id_of "w" st' = Ok 0 /\
     NDArrayCells.id_of "x" st' <> Ok 0 /\
     NDArrayCells.value_of "w" st' = Ok (array [1; 2]%Q) /\
     NDArrayCells.value_of "x" st' = Ok (array [11; 22]%Q)).
Proof.
  intros array st.
  apply (second_name_sees_in_place_write (H:=Toy.framework) st "x" "w" "y" 0
           (array [1; 2]%Q) (array [10; 20]%Q)).
  - reflexivity.
  - reflexivity.
  - discriminate.
  - reflexivity.
  - reflexivity.
  - reflexivity.
Defined.
